(** * Tournament clustering and statistics aggregation (rivals_stats)

    A shallow embedding of the analysis core of [final.py] (the same
    functions are repeated in [marvel_rivals_dashboard.py]):
    [cluster_tournament_matches], [calculate_per_10],
    [extract_player_stats], [format_duration] and [analyze_tournaments].

    Conventions of the embedding.
    - Python [int]s are [Z]. JSON numbers that take part in true division
      ([/]) are rationals [Qc].  The arithmetic has two readings.  The
      functions named as in the source take every sum, product and
      quotient exactly: the formulas of the specification are stated in
      that arithmetic.  [Rounded] has the same functions with a rounding
      after each float operation; with [binary64] they compute the
      numbers that the source computes.
    - A [datetime] is the instant it denotes, in microseconds since the
      epoch (the resolution of [datetime]); [timedelta(days=1)] is [day].
    - A [dict] read with optional keys is a record whose optional keys are
      [option]s, or a [gmap] keyed by the Python key when the key set is
      open; a key read with [d[k]] on a missing key raises [KeyError].
    - Exceptions are values of [exn], carried by [result]. *)

From stdpp Require Import gmap strings list numbers pretty sorting.
From Stdlib Require Import QArith Qcanon Ascii.

Local Open Scope Z_scope.

(** ** Exceptions *)

Inductive exn : Type :=
| KeyError (key : string)
| IndexError
| ValueError (msg : string).

Inductive result (A : Type) : Type :=
| Ok (a : A)
| Raise (e : exn).
Arguments Ok {A} a.
Arguments Raise {A} e.

Definition bind {A B} (r : result A) (k : A -> result B) : result B :=
  match r with
  | Ok a => k a
  | Raise e => Raise e
  end.

Notation "'let!' x ':=' r 'in' k" := (bind r (fun x => k))
  (at level 10, x pattern, r at level 100, k at level 200).

(** ** Input feed *)

(** [stats[key]]: a dict whose ['value'] may be missing. *)
Record StatEntry : Type := { value : option Qc }.

(** One participant segment, of a raw match summary ([type == 'overview'])
    or of a detailed match record ([type == 'player']). *)
Record Segment : Type := {
  seg_type : option string;        (* segment.get('type') *)
  platformUserHandle : string;     (* segment['metadata']['platformInfo']['platformUserHandle'] *)
  teamId : option Z;               (* segment['metadata'].get('teamId') *)
  seg_result : string;             (* segment['metadata']['result'] *)
  seg_heroes : list string;        (* [h['name'] for h in segment['metadata'].get('heroes', [])] *)
  isMvp : bool;                    (* segment['metadata'].get('isMvp', 0) *)
  isSvp : bool;                    (* segment['metadata'].get('isSvp', 0) *)
  seg_stats : option (gmap string StatEntry)   (* the 'stats' key, when present *)
}.

(** One entry of [data['matches']]. *)
Record RawMatch : Type := {
  attr_mode : option string;       (* match['attributes'].get('mode') *)
  attr_id : string;                (* match['attributes']['id'] *)
  meta_timestamp : Z;              (* datetime.fromisoformat(match['metadata']['timestamp']...) *)
  meta_mapName : string;
  meta_mapModeName : string;
  meta_duration : Z;               (* int(match['metadata']['duration']) *)
  meta_winningTeamId : Z;
  meta_scores : list Z;
  raw_segments : list Segment      (* match.get('segments', []) *)
}.

Record Data : Type := {
  ign : option string;             (* data.get('ign') *)
  data_matches : list RawMatch     (* data.get('matches', []) *)
}.

(** The dict built for a tournament-mode match by the clusterer. *)
Record Match : Type := {
  match_id : string;
  timestamp : Z;
  map_name : string;
  map_mode : string;
  duration : Z;
  winning_team : Z;
  scores : list Z;
  segments : list Segment
}.

(** ** Tournament clusterer *)

(** [timedelta(days=1)], in microseconds. *)
Definition day : Z := 86400 * 1000000.
Definition hour : Z := 3600 * 1000000.

Definition is_tournament (r : RawMatch) : bool :=
  bool_decide (attr_mode r = Some "tournament"%string).

Definition to_match (r : RawMatch) : Match :=
  {| match_id := attr_id r;
     timestamp := meta_timestamp r;
     map_name := meta_mapName r;
     map_mode := meta_mapModeName r;
     duration := meta_duration r;
     winning_team := meta_winningTeamId r;
     scores := meta_scores r;
     segments := raw_segments r |}.

(** The first loop of [cluster_tournament_matches]. *)
Definition tournament_matches (d : Data) : list Match :=
  map to_match (List.filter is_tournament (data_matches d)).

(** [matches.sort(key=lambda m: m['timestamp'])]: Python's sort is stable,
    and a stable sort has one result, computed here by insertion. *)
Fixpoint insert_by_timestamp (m : Match) (l : list Match) : list Match :=
  match l with
  | [] => [m]
  | x :: l' =>
      if timestamp m <=? timestamp x then m :: x :: l'
      else x :: insert_by_timestamp m l'
  end.

Definition sort_by_timestamp (l : list Match) : list Match :=
  foldr insert_by_timestamp [] l.

(** One iteration of the scan; the state is [(tournaments, current)]. *)
Definition cluster_step (st : list (list Match) * list Match) (m : Match)
  : list (list Match) * list Match :=
  let '(tournaments, current) := st in
  match last current with
  | None => (tournaments, current ++ [m])
  | Some prev =>
      if timestamp m - timestamp prev <=? day
      then (tournaments, current ++ [m])
      else (tournaments ++ [current], [m])
  end.

Definition cluster_finish (st : list (list Match) * list Match)
  : list (list Match) :=
  let '(tournaments, current) := st in
  match current with
  | [] => tournaments
  | _ :: _ => tournaments ++ [current]
  end.

Definition cluster_sorted (matches : list Match) : list (list Match) :=
  cluster_finish (fold_left cluster_step matches ([], [])).

Definition cluster_tournament_matches (d : Data) : list (list Match) :=
  cluster_sorted (sort_by_timestamp (tournament_matches d)).

(** ** Rate normaliser *)

Local Open Scope Qc_scope.

(** [calculate_per_10(value, duration_seconds)]. *)
Definition calculate_per_10 (v : Qc) (duration_seconds : Z) : Qc :=
  let minutes := Qc_of_Z duration_seconds / Qc_of_Z 60 in
  if decide (0 < minutes) then (v / minutes) * Qc_of_Z 10 else 0.

(** ** Match stat extractor *)

(** The dict [player_info] (detailed path) or [info] (fallback path).  The
    numeric keys form an open set (a counter is stored only when the source
    reports it), so they live in [p_num], keyed by the Python key. *)
Record PlayerInfo : Type := {
  p_name : string;
  p_team_id : option Z;
  p_result : string;
  p_heroes : list string;
  p_is_mvp : bool;                 (* absent in the fallback path, read with default 0 *)
  p_is_svp : bool;
  p_num : gmap string Qc
}.

(** [player.get(key, 0)] on a numeric key. *)
Definition get (p : PlayerInfo) (key : string) : Qc :=
  default 0 (p_num p !! key).

Definition set_num (key : string) (v : Qc) (p : PlayerInfo) : PlayerInfo :=
  {| p_name := p_name p; p_team_id := p_team_id p; p_result := p_result p;
     p_heroes := p_heroes p; p_is_mvp := p_is_mvp p; p_is_svp := p_is_svp p;
     p_num := <[key := v]> (p_num p) |}.

(** [names or ["Unknown"]]. *)
Definition heroes_or_unknown (names : list string) : list string :=
  match names with
  | [] => ["Unknown"%string]
  | _ :: _ => names
  end.

(** [player.get('heroes', ["Unknown"])[0]]; [p_heroes] is never empty, see
    [heroes_or_unknown]. *)
Definition hero0 (p : PlayerInfo) : string := hd "Unknown"%string (p_heroes p).

(** A detailed match record, as fetched or read from the cache. *)
Record DetailedMatch : Type := {
  dm_duration : option Z;          (* match_data.get('metadata', {}).get('duration') *)
  dm_segments : list Segment       (* match_data.get('segments', []) *)
}.

Definition is_type (ty : string) (s : Segment) : bool :=
  bool_decide (seg_type s = Some ty).

Definition has_handle (player_ign : option string) (s : Segment) : bool :=
  bool_decide (Some (platformUserHandle s) = player_ign).

(** The raw counters copied from the stats bag, in the order of the source. *)
Definition stat_keys : list string :=
  ["kills"; "deaths"; "assists"; "kdRatio"; "kdaRatio";
   "totalHeroDamage"; "totalHeroHeal"; "totalDamageTaken";
   "lastKills"; "soloKills"; "headKills"; "sessionSurvivalKills";
   "maxContinueKills"; "mainAttacks"; "mainAttackHits";
   "continueKills3"; "shieldHits"; "chaosHits"; "summonerHits"]%string.

(** [if key in stats: player_info[key] = stats[key].get('value', 0)]. *)
Definition copy_stat (bag : gmap string StatEntry) (p : PlayerInfo) (key : string)
  : PlayerInfo :=
  match bag !! key with
  | Some e => set_num key (default 0 (value e)) p
  | None => p
  end.

(** The seven per-10 rates, written only when [match_duration] is truthy. *)
Definition per_10_keys : list (string * string) :=
  [("kills_per_10", "kills"); ("deaths_per_10", "deaths");
   ("assists_per_10", "assists"); ("damage_per_10", "totalHeroDamage");
   ("healing_per_10", "totalHeroHeal");
   ("damage_taken_per_10", "totalDamageTaken");
   ("soloKills_per_10", "soloKills")]%string.

Definition add_per_10 (match_duration : Z) (p : PlayerInfo) (kv : string * string)
  : PlayerInfo :=
  set_num (fst kv) (calculate_per_10 (get p (snd kv)) match_duration) p.

Definition accuracy_of (p : PlayerInfo) : Qc :=
  if decide (0 < get p "mainAttacks")
  then (get p "mainAttackHits" / get p "mainAttacks") * Qc_of_Z 100
  else 0.

(** The body of the second loop of [extract_player_stats], up to the
    classification. *)
Definition build_player_info (match_duration : Z) (s : Segment) : PlayerInfo :=
  let p0 := {| p_name := platformUserHandle s;
               p_team_id := teamId s;
               p_result := seg_result s;
               p_heroes := heroes_or_unknown (seg_heroes s);
               p_is_mvp := isMvp s;
               p_is_svp := isSvp s;
               p_num := ∅ |} in
  let p1 := fold_left (copy_stat (default ∅ (seg_stats s))) stat_keys p0 in
  let p2 := if decide (match_duration = 0%Z) then p1
            else fold_left (add_per_10 match_duration) per_10_keys p1 in
  let p3 := set_num "accuracy" (accuracy_of p2) p2 in
  set_num "kill_participation" 0 p3.

(** The team id of the first player segment carrying the reference handle. *)
Definition find_main_team (player_ign : option string) (segs : list Segment)
  : option Z :=
  match List.find (fun s => is_type "player" s && has_handle player_ign s) segs with
  | Some s => teamId s
  | None => None
  end.

(** [main_team is not None and team_id == main_team]. *)
Definition on_main_team (main_team : option Z) (p : PlayerInfo) : bool :=
  match main_team with
  | Some t => bool_decide (p_team_id p = Some t)
  | None => false
  end.

(** [sum(p.get('kills', 0) for p in group)]. *)
Definition sum_of (key : string) (group : list PlayerInfo) : Qc :=
  fold_left (fun acc p => acc + get p key) group 0.

(** The kill-participation pass over one group. *)
Definition backfill_kill_participation (group : list PlayerInfo) : list PlayerInfo :=
  let total_kills := sum_of "kills" group in
  if decide (total_kills = 0) then group
  else map (fun p =>
              set_num "kill_participation"
                (((get p "kills" + get p "assists") / total_kills) * Qc_of_Z 100) p)
           group.

Definition extract_player_stats (match_data : DetailedMatch) (player_ign : option string)
  : list PlayerInfo * list PlayerInfo :=
  let match_duration := default 0%Z (dm_duration match_data) in
  let main_team := find_main_team player_ign (dm_segments match_data) in
  let infos := map (build_player_info match_duration)
                   (List.filter (is_type "player") (dm_segments match_data)) in
  let team_stats := List.filter (on_main_team main_team) infos in
  let opponent_stats := List.filter (fun p => negb (on_main_team main_team p)) infos in
  (backfill_kill_participation team_stats, backfill_kill_participation opponent_stats).

(** [format_duration(seconds)]: [f"{minutes:02d}:{sec:02d}"]. *)
Definition pad2 (z : Z) : string :=
  let s := pretty z in
  if (String.length s <? 2)%nat then ("0" +:+ s)%string else s.

Definition format_duration (seconds : Z) : string :=
  (pad2 (seconds `div` 60) +:+ ":" +:+ pad2 (seconds `mod` 60))%string.

(** ** Aggregation engine *)

(** One entry of [stats['match_performances']]. *)
Record Performance : Type := {
  perf_match_id : string;
  perf_hero : string;
  perf_result : string;
  perf_kills : Qc;
  perf_deaths : Qc;
  perf_assists : Qc;
  perf_kda : Qc;
  perf_damage_per_10 : Qc;
  perf_healing_per_10 : Qc;
  perf_kills_per_10 : Qc;
  perf_deaths_per_10 : Qc;
  perf_assists_per_10 : Qc;
  perf_kill_participation : Qc;
  perf_accuracy : Qc;
  perf_solo_kills : Qc;
  perf_soloKills_per_10 : Qc;
  perf_last_kills : Qc;
  perf_fb_per_10 : Qc;
  perf_head_kills : Qc;
  perf_is_mvp : bool;
  perf_is_svp : bool
}.

(** The per-player dict of [tournament_info['player_stats']].  The keys of
    the [defaultdict] factory are fields; the keys added by the final pass
    ([avg_kills], [win_rate], [avg_kills_per_10], ...) are absent until
    then and live in [derived].  [heroes_played] stays a set: the order of
    [list(set)] is not specified. *)
Record PlayerStats : Type := {
  matches_played : Z;
  wins : Z;
  losses : Z;
  heroes_played : gset string;
  total_kills : Qc;
  total_last_kills : Qc;
  total_deaths : Qc;
  total_assists : Qc;
  total_damage : Qc;
  total_healing : Qc;
  total_damage_taken : Qc;
  total_solo_kills : Qc;
  total_head_kills : Qc;
  total_shield_hits : Qc;
  total_kill_participation : Qc;
  total_minutes : Qc;
  avg_kda : Qc;
  best_kda : Qc;
  best_hero : option string;
  match_performances : list Performance;
  derived : gmap string Qc
}.

(** The factory of the [defaultdict]. *)
Definition new_player_stats : PlayerStats :=
  {| matches_played := 0; wins := 0; losses := 0; heroes_played := ∅;
     total_kills := 0; total_last_kills := 0; total_deaths := 0;
     total_assists := 0; total_damage := 0; total_healing := 0;
     total_damage_taken := 0; total_solo_kills := 0; total_head_kills := 0;
     total_shield_hits := 0; total_kill_participation := 0;
     total_minutes := 0; avg_kda := 0; best_kda := 0; best_hero := None;
     match_performances := []; derived := ∅ |}.

Definition performance_of (mid : string) (duration_sec : Z) (player : PlayerInfo)
  : Performance :=
  {| perf_match_id := mid;
     perf_hero := hero0 player;
     perf_result := p_result player;
     perf_kills := get player "kills";
     perf_deaths := get player "deaths";
     perf_assists := get player "assists";
     perf_kda := get player "kdaRatio";
     perf_damage_per_10 := calculate_per_10 (get player "totalHeroDamage") duration_sec;
     perf_healing_per_10 := calculate_per_10 (get player "totalHeroHeal") duration_sec;
     perf_kills_per_10 := calculate_per_10 (get player "kills") duration_sec;
     perf_deaths_per_10 := calculate_per_10 (get player "deaths") duration_sec;
     perf_assists_per_10 := calculate_per_10 (get player "assists") duration_sec;
     perf_kill_participation := get player "kill_participation";
     perf_accuracy := get player "accuracy";
     perf_solo_kills := get player "soloKills";
     perf_soloKills_per_10 := calculate_per_10 (get player "soloKills") duration_sec;
     perf_last_kills := get player "lastKills";
     perf_fb_per_10 := calculate_per_10 (get player "lastKills") duration_sec;
     perf_head_kills := get player "headKills";
     perf_is_mvp := p_is_mvp player;
     perf_is_svp := p_is_svp player |}.

(** The body of the loop [for player in team_stats], on the player's dict. *)
Definition update_player_stats (mid : string) (duration_sec : Z)
    (player : PlayerInfo) (stats : PlayerStats) : PlayerStats :=
  let minutes := Qc_of_Z duration_sec / Qc_of_Z 60 in
  let won := bool_decide (p_result player = "win"%string) in
  let kda := get player "kdaRatio" in
  let better := bool_decide (best_kda stats < kda) in
  {| matches_played := (matches_played stats + 1)%Z;
     wins := if won then (wins stats + 1)%Z else wins stats;
     losses := if won then losses stats else (losses stats + 1)%Z;
     heroes_played := heroes_played stats ∪ list_to_set (p_heroes player);
     total_kills := total_kills stats + get player "kills";
     total_last_kills := total_last_kills stats + get player "lastKills";
     total_deaths := total_deaths stats + get player "deaths";
     total_assists := total_assists stats + get player "assists";
     total_damage := total_damage stats + get player "totalHeroDamage";
     total_healing := total_healing stats + get player "totalHeroHeal";
     total_damage_taken := total_damage_taken stats + get player "totalDamageTaken";
     total_solo_kills := total_solo_kills stats + get player "soloKills";
     total_head_kills := total_head_kills stats + get player "headKills";
     total_shield_hits := total_shield_hits stats + get player "shieldHits";
     total_kill_participation :=
       total_kill_participation stats + get player "kill_participation";
     total_minutes := total_minutes stats + minutes;
     avg_kda := avg_kda stats + kda;
     best_kda := if better then kda else best_kda stats;
     best_hero := if better then Some (hero0 player) else best_hero stats;
     match_performances :=
       match_performances stats ++ [performance_of mid duration_sec player];
     derived := derived stats |}.

(** [stats = tournament_info['player_stats'][player['name']]] creates the
    entry on first access; the update is then done in place. *)
Definition update_team_player (mid : string) (duration_sec : Z)
    (ps : gmap string PlayerStats) (player : PlayerInfo) : gmap string PlayerStats :=
  <[p_name player :=
      update_player_stats mid duration_sec player
        (default new_player_stats (ps !! p_name player))]> ps.

(** The final pass over one player's dict, as in [final.py]; the copy in
    [marvel_rivals_dashboard.py] differs only in rounding
    [avg_damage_per_10], [avg_healing_per_10] and [avg_damage_taken_per_10]
    to whole numbers. *)
Definition finalize_player_stats (stats : PlayerStats) : PlayerStats :=
  if decide (0 < matches_played stats)%Z then
    let n := Qc_of_Z (matches_played stats) in
    let d1 : gmap string Qc :=
      <["avg_kill_participation"%string := total_kill_participation stats / n]>
      (<["avg_shield_hits"%string := total_shield_hits stats / n]>
      (<["avg_head_kills"%string := total_head_kills stats / n]>
      (<["avg_last_kills"%string := total_last_kills stats / n]>
      (<["avg_solo_kills"%string := total_solo_kills stats / n]>
      (<["avg_damage_taken"%string := total_damage_taken stats / n]>
      (<["avg_healing"%string := total_healing stats / n]>
      (<["avg_damage"%string := total_damage stats / n]>
      (<["avg_assists"%string := total_assists stats / n]>
      (<["avg_deaths"%string := total_deaths stats / n]>
      (<["avg_kills"%string := total_kills stats / n]> (derived stats))))))))))) in
    let total_min := total_minutes stats in
    let d2 : gmap string Qc :=
      if decide (0 < total_min) then
        <["avg_damage_taken_per_10"%string :=
            (total_damage_taken stats / total_min) * Qc_of_Z 10]>
        (<["avg_healing_per_10"%string := (total_healing stats / total_min) * Qc_of_Z 10]>
        (<["avg_damage_per_10"%string := (total_damage stats / total_min) * Qc_of_Z 10]>
        (<["avg_assists_per_10"%string := (total_assists stats / total_min) * Qc_of_Z 10]>
        (<["avg_deaths_per_10"%string := (total_deaths stats / total_min) * Qc_of_Z 10]>
        (<["avg_solo_kills_per_10"%string :=
             (total_solo_kills stats / total_min) * Qc_of_Z 10]>
        (<["avg_fb_per_10"%string := (total_last_kills stats / total_min) * Qc_of_Z 10]>
        (<["avg_kills_per_10"%string := (total_kills stats / total_min) * Qc_of_Z 10]>
           d1)))))))
      else d1 in
    {| matches_played := matches_played stats; wins := wins stats;
       losses := losses stats; heroes_played := heroes_played stats;
       total_kills := total_kills stats; total_last_kills := total_last_kills stats;
       total_deaths := total_deaths stats; total_assists := total_assists stats;
       total_damage := total_damage stats; total_healing := total_healing stats;
       total_damage_taken := total_damage_taken stats;
       total_solo_kills := total_solo_kills stats;
       total_head_kills := total_head_kills stats;
       total_shield_hits := total_shield_hits stats;
       total_kill_participation := total_kill_participation stats;
       total_minutes := total_minutes stats;
       avg_kda := avg_kda stats / n;
       best_kda := best_kda stats; best_hero := best_hero stats;
       match_performances := match_performances stats;
       derived :=
         <["win_rate"%string := (Qc_of_Z (wins stats) / n) * Qc_of_Z 100]> d2 |}
  else stats.

(** One entry of [tournament_info['matches']]; [mi_timestamp] is the
    instant that the source renders with [strftime]. *)
Record MatchInfo : Type := {
  mi_id : string;
  mi_map : string;
  mi_mode : string;
  mi_result : string;
  mi_duration : string;
  mi_duration_seconds : Z;
  mi_score : string;
  mi_timestamp : Z;
  mi_team_stats : list PlayerInfo;
  mi_opponent_stats : list PlayerInfo
}.

Record TournamentInfo : Type := {
  ti_id : Z;
  ti_start_date : Z;
  ti_end_date : Z;
  ti_match_count : Z;
  ti_matches : list MatchInfo;
  ti_player_stats : gmap string PlayerStats
}.

(** *** Fallback extraction from the overview segments *)

(** [segment['stats'][key]['value']]. *)
Definition stat_value (s : Segment) (key : string) : result Qc :=
  match seg_stats s with
  | None => Raise (KeyError "stats")
  | Some bag =>
      match bag !! key with
      | None => Raise (KeyError key)
      | Some e =>
          match value e with
          | None => Raise (KeyError "value")
          | Some v => Ok v
          end
      end
  end.

(** [segment['stats'].get(key, {}).get('value', 0)]. *)
Definition stat_value_or_0 (s : Segment) (key : string) : result Qc :=
  match seg_stats s with
  | None => Raise (KeyError "stats")
  | Some bag =>
      match bag !! key with
      | None => Ok 0
      | Some e => Ok (default 0 (value e))
      end
  end.

(** The dict literal [info], its values evaluated in source order. *)
Definition fallback_info (s : Segment) : result PlayerInfo :=
  let! kills := stat_value s "kills" in
  let! deaths := stat_value s "deaths" in
  let! assists := stat_value s "assists" in
  let! kdaRatio := stat_value s "kdaRatio" in
  let! totalHeroDamage := stat_value s "totalHeroDamage" in
  let! totalHeroHeal := stat_value_or_0 s "totalHeroHeal" in
  Ok {| p_name := platformUserHandle s;
        p_team_id := teamId s;
        p_result := seg_result s;
        p_heroes := heroes_or_unknown (seg_heroes s);
        p_is_mvp := false;
        p_is_svp := false;
        p_num := <["totalHeroHeal"%string := totalHeroHeal]>
                 (<["totalHeroDamage"%string := totalHeroDamage]>
                 (<["kdaRatio"%string := kdaRatio]>
                 (<["assists"%string := assists]>
                 (<["deaths"%string := deaths]>
                 (<["kills"%string := kills]> ∅))))) |}.

(** The loop over [match.get('segments', [])] of the fallback branch, from
    the lists built so far. *)
Fixpoint fallback_stats (player_team : Z) (segs : list Segment)
    (team_stats opponent_stats : list PlayerInfo)
  : result (list PlayerInfo * list PlayerInfo) :=
  match segs with
  | [] => Ok (team_stats, opponent_stats)
  | s :: rest =>
      if is_type "overview" s then
        let! info := fallback_info s in
        if bool_decide (p_team_id info = Some player_team)
        then fallback_stats player_team rest (team_stats ++ [info]) opponent_stats
        else fallback_stats player_team rest team_stats (opponent_stats ++ [info])
      else fallback_stats player_team rest team_stats opponent_stats
  end.

(** *** The reference player's team *)

(** The inner loop: the first overview segment with the reference handle
    decides for this match, whether it has a [teamId] or not. *)
Definition match_player_team (player_ign : option string) (r : RawMatch) : option Z :=
  match List.find (fun s => is_type "overview" s && has_handle player_ign s)
                  (raw_segments r) with
  | Some s => teamId s
  | None => None
  end.

(** The outer loop stops at the first match that gives a team id. *)
Fixpoint find_player_team (player_ign : option string) (ms : list RawMatch) : option Z :=
  match ms with
  | [] => None
  | r :: rest =>
      match match_player_team player_ign r with
      | Some t => Some t
      | None => find_player_team player_ign rest
      end
  end.

(** *** One match *)

(** [l[i]] with Python's negative indices. *)
Definition py_index {A} (l : list A) (i : Z) : result A :=
  let n := Z.of_nat (length l) in
  let j := if (i <? 0)%Z then (n + i)%Z else i in
  if (j <? 0)%Z then Raise IndexError
  else match l !! Z.to_nat j with
       | Some x => Ok x
       | None => Raise IndexError
       end.

Definition score_string (player_team : Z) (m : Match) : result string :=
  match scores m with
  | [] => Ok "N/A"%string
  | _ :: _ =>
      let! a := py_index (scores m) player_team in
      let! b := py_index (scores m) (1 - player_team)%Z in
      Ok (pretty a +:+ "-" +:+ pretty b)%string
  end.

Definition resolve_stats (player_ign : option string) (player_team : Z) (m : Match)
    (detailed_match : option DetailedMatch)
  : result (list PlayerInfo * list PlayerInfo) :=
  match detailed_match with
  | Some d => Ok (extract_player_stats d player_ign)
  | None => fallback_stats player_team (segments m) [] []
  end.

Definition match_result_of (player_ign : option string) (players : list PlayerInfo)
  : string :=
  match List.find (fun p => bool_decide (Some (p_name p) = player_ign)) players with
  | Some p => p_result p
  | None => "Unknown"%string
  end.

Definition with_match (ti : TournamentInfo) (mi : MatchInfo)
    (ps : gmap string PlayerStats) : TournamentInfo :=
  {| ti_id := ti_id ti; ti_start_date := ti_start_date ti;
     ti_end_date := ti_end_date ti; ti_match_count := ti_match_count ti;
     ti_matches := ti_matches ti ++ [mi];
     ti_player_stats := ps |}.

(** The body of [for match in tournament], after the detailed record was
    looked up. *)
Definition process_match (player_ign : option string) (player_team : Z)
    (ti : TournamentInfo) (m : Match) (detailed_match : option DetailedMatch)
  : result TournamentInfo :=
  let! (team_stats, opponent_stats) :=
    resolve_stats player_ign player_team m detailed_match in
  let duration_sec := duration m in
  let ps := fold_left (update_team_player (match_id m) duration_sec)
                      team_stats (ti_player_stats ti) in
  let match_result := match_result_of player_ign (team_stats ++ opponent_stats) in
  let! score := score_string player_team m in
  Ok (with_match ti
        {| mi_id := match_id m; mi_map := map_name m; mi_mode := map_mode m;
           mi_result := match_result;
           mi_duration := format_duration duration_sec;
           mi_duration_seconds := duration_sec;
           mi_score := score;
           mi_timestamp := timestamp m;
           mi_team_stats := team_stats;
           mi_opponent_stats := opponent_stats |}
        ps).

Definition finalize_tournament (ti : TournamentInfo) : TournamentInfo :=
  {| ti_id := ti_id ti; ti_start_date := ti_start_date ti;
     ti_end_date := ti_end_date ti; ti_match_count := ti_match_count ti;
     ti_matches := ti_matches ti;
     ti_player_stats := finalize_player_stats <$> ti_player_stats ti |}.

(** *** The run

    The detailed record of a match comes from outside: the cache file and
    the browser-driven fetch.  [lookup_detailed] stands for that lookup
    (reading the cache, fetching, writing the cache) on a world [W]; it
    returns [None] when the source leaves [detailed_match] falsy.  Creating
    the cache directory and starting the browser are left out: they touch
    neither the clusters nor the aggregates. *)
Section Engine.

Context {W : Type}.
Variable lookup_detailed : W -> string -> W * option DetailedMatch.

Fixpoint process_matches (player_ign : option string) (player_team : Z)
    (w : W) (ti : TournamentInfo) (ms : list Match) : W * result TournamentInfo :=
  match ms with
  | [] => (w, Ok ti)
  | m :: rest =>
      let '(w', detailed_match) := lookup_detailed w (match_id m) in
      match process_match player_ign player_team ti m detailed_match with
      | Ok ti' => process_matches player_ign player_team w' ti' rest
      | Raise e => (w', Raise e)
      end
  end.

(** One iteration of [for idx, tournament in enumerate(tournaments_cluster)]. *)
Definition analyze_tournament (player_ign : option string) (player_team : Z)
    (w : W) (idx : Z) (tournament : list Match) : W * result TournamentInfo :=
  match head tournament, last tournament with
  | Some first, Some final =>
      let ti := {| ti_id := (idx + 1)%Z;
                   ti_start_date := timestamp first;
                   ti_end_date := timestamp final;
                   ti_match_count := Z.of_nat (length tournament);
                   ti_matches := [];
                   ti_player_stats := ∅ |} in
      match process_matches player_ign player_team w ti tournament with
      | (w', Ok ti') => (w', Ok (finalize_tournament ti'))
      | (w', Raise e) => (w', Raise e)
      end
  | _, _ => (w, Raise IndexError)
  end.

Fixpoint analyze_clusters (player_ign : option string) (player_team : Z)
    (w : W) (idx : Z) (clusters : list (list Match))
    (tournament_results : list TournamentInfo)
  : W * result (list TournamentInfo) :=
  match clusters with
  | [] => (w, Ok tournament_results)
  | tournament :: rest =>
      match analyze_tournament player_ign player_team w idx tournament with
      | (w', Ok ti) =>
          analyze_clusters player_ign player_team w' (idx + 1)%Z rest
            (tournament_results ++ [ti])
      | (w', Raise e) => (w', Raise e)
      end
  end.

Definition analyze_tournaments (data : Data) (w : W) : W * result (list TournamentInfo) :=
  let player_ign := ign data in
  match find_player_team player_ign (data_matches data) with
  | None => (w, Raise (ValueError "Player team could not be identified."))
  | Some player_team =>
      analyze_clusters player_ign player_team w 0
        (cluster_tournament_matches data) []
  end.

End Engine.

(** ** The arithmetic of the machine

    Python's [float] is binary64.  [binary64 x] is the float nearest to the
    rational [x], ties to the even significand: 53 bits of precision, and
    the spacing [2^-1074] of the subnormal range below [2^-1022].  The
    range is taken as unbounded above: a result beyond the largest float
    (about 1.8e308), where Python gives [inf] or raises [OverflowError], is
    outside what is modelled. *)

(** [2^k <= n / d], for [0 < d]. *)
Definition pow2_le (k n d : Z) : bool :=
  if (0 <=? k)%Z then (d * 2 ^ k <=? n)%Z else (d <=? n * 2 ^ (- k))%Z.

(** [floor (log2 (n / d))], for [0 < n] and [0 < d]. *)
Definition floor_log2 (n d : Z) : Z :=
  let k := (Z.log2 n - Z.log2 d)%Z in
  if pow2_le k n d then k else (k - 1)%Z.

(** The integer nearest to [n / d], ties to the even one, for [0 < d]. *)
Definition round_half_even (n d : Z) : Z :=
  let f := (n `div` d)%Z in
  let r := (n `mod` d)%Z in
  match (2 * r ?= d)%Z with
  | Lt => f
  | Gt => (f + 1)%Z
  | Eq => if Z.even f then f else (f + 1)%Z
  end.

Definition binary64 (x : Qc) : Qc :=
  let n := Qnum x in
  let d := Z.pos (Qden x) in
  let e := Z.max (floor_log2 (Z.abs n) d - 52) (-1074) in
  if (0 <=? e)%Z
  then Qc_of_Z (round_half_even n (d * 2 ^ e) * 2 ^ e)
  else Q2Qc (Qmake (round_half_even (n * 2 ^ (- e)) d) (Z.to_pos (2 ^ (- e)))).

(** ** The functions with their rounding

    The functions above take every sum, product and quotient exactly; that
    is the arithmetic in which the formulas of the specification are
    stated.  Here are the same functions with [rnd] applied where the
    source performs a float operation: at [rnd := binary64] they compute
    what the source computes, and at the identity they are the functions
    above.  Python's [int]s add exactly; the feed's integer counters are
    far below [2^53], where rounding leaves their sums as they are. *)
Module Rounded.
Section Rounding.

Variable rnd : Qc → Qc.

Definition calculate_per_10 (v : Qc) (duration_seconds : Z) : Qc :=
  let minutes := rnd (Qc_of_Z duration_seconds / Qc_of_Z 60) in
  if decide (0 < minutes) then rnd (rnd (v / minutes) * Qc_of_Z 10) else 0.

Definition add_per_10 (match_duration : Z) (p : PlayerInfo) (kv : string * string)
  : PlayerInfo :=
  set_num (fst kv) (calculate_per_10 (get p (snd kv)) match_duration) p.

Definition accuracy_of (p : PlayerInfo) : Qc :=
  if decide (0 < get p "mainAttacks")
  then rnd (rnd (get p "mainAttackHits" / get p "mainAttacks") * Qc_of_Z 100)
  else 0.

Definition build_player_info (match_duration : Z) (s : Segment) : PlayerInfo :=
  let p0 := {| p_name := platformUserHandle s;
               p_team_id := teamId s;
               p_result := seg_result s;
               p_heroes := heroes_or_unknown (seg_heroes s);
               p_is_mvp := isMvp s;
               p_is_svp := isSvp s;
               p_num := ∅ |} in
  let p1 := fold_left (copy_stat (default ∅ (seg_stats s))) stat_keys p0 in
  let p2 := if decide (match_duration = 0%Z) then p1
            else fold_left (add_per_10 match_duration) per_10_keys p1 in
  let p3 := set_num "accuracy" (accuracy_of p2) p2 in
  set_num "kill_participation" 0 p3.

(** [sum] adds from the left, starting at 0 (on floats, Python 3.12 and
    later also compensate the rounding errors of the partial sums; on the
    integer counters summed here there are none). *)
Definition sum_of (key : string) (group : list PlayerInfo) : Qc :=
  fold_left (fun acc p => rnd (acc + get p key)) group 0.

Definition backfill_kill_participation (group : list PlayerInfo) : list PlayerInfo :=
  let total_kills := sum_of "kills" group in
  if decide (total_kills = 0) then group
  else map (fun p =>
              set_num "kill_participation"
                (rnd (rnd (rnd (get p "kills" + get p "assists") / total_kills)
                      * Qc_of_Z 100)) p)
           group.

Definition extract_player_stats (match_data : DetailedMatch) (player_ign : option string)
  : list PlayerInfo * list PlayerInfo :=
  let match_duration := default 0%Z (dm_duration match_data) in
  let main_team := find_main_team player_ign (dm_segments match_data) in
  let infos := map (build_player_info match_duration)
                   (List.filter (is_type "player") (dm_segments match_data)) in
  let team_stats := List.filter (on_main_team main_team) infos in
  let opponent_stats := List.filter (fun p => negb (on_main_team main_team p)) infos in
  (backfill_kill_participation team_stats, backfill_kill_participation opponent_stats).

Definition performance_of (mid : string) (duration_sec : Z) (player : PlayerInfo)
  : Performance :=
  {| perf_match_id := mid;
     perf_hero := hero0 player;
     perf_result := p_result player;
     perf_kills := get player "kills";
     perf_deaths := get player "deaths";
     perf_assists := get player "assists";
     perf_kda := get player "kdaRatio";
     perf_damage_per_10 := calculate_per_10 (get player "totalHeroDamage") duration_sec;
     perf_healing_per_10 := calculate_per_10 (get player "totalHeroHeal") duration_sec;
     perf_kills_per_10 := calculate_per_10 (get player "kills") duration_sec;
     perf_deaths_per_10 := calculate_per_10 (get player "deaths") duration_sec;
     perf_assists_per_10 := calculate_per_10 (get player "assists") duration_sec;
     perf_kill_participation := get player "kill_participation";
     perf_accuracy := get player "accuracy";
     perf_solo_kills := get player "soloKills";
     perf_soloKills_per_10 := calculate_per_10 (get player "soloKills") duration_sec;
     perf_last_kills := get player "lastKills";
     perf_fb_per_10 := calculate_per_10 (get player "lastKills") duration_sec;
     perf_head_kills := get player "headKills";
     perf_is_mvp := p_is_mvp player;
     perf_is_svp := p_is_svp player |}.

Definition update_player_stats (mid : string) (duration_sec : Z)
    (player : PlayerInfo) (stats : PlayerStats) : PlayerStats :=
  let minutes := rnd (Qc_of_Z duration_sec / Qc_of_Z 60) in
  let won := bool_decide (p_result player = "win"%string) in
  let kda := get player "kdaRatio" in
  let better := bool_decide (best_kda stats < kda) in
  {| matches_played := (matches_played stats + 1)%Z;
     wins := if won then (wins stats + 1)%Z else wins stats;
     losses := if won then losses stats else (losses stats + 1)%Z;
     heroes_played := heroes_played stats ∪ list_to_set (p_heroes player);
     total_kills := rnd (total_kills stats + get player "kills");
     total_last_kills := rnd (total_last_kills stats + get player "lastKills");
     total_deaths := rnd (total_deaths stats + get player "deaths");
     total_assists := rnd (total_assists stats + get player "assists");
     total_damage := rnd (total_damage stats + get player "totalHeroDamage");
     total_healing := rnd (total_healing stats + get player "totalHeroHeal");
     total_damage_taken :=
       rnd (total_damage_taken stats + get player "totalDamageTaken");
     total_solo_kills := rnd (total_solo_kills stats + get player "soloKills");
     total_head_kills := rnd (total_head_kills stats + get player "headKills");
     total_shield_hits := rnd (total_shield_hits stats + get player "shieldHits");
     total_kill_participation :=
       rnd (total_kill_participation stats + get player "kill_participation");
     total_minutes := rnd (total_minutes stats + minutes);
     avg_kda := rnd (avg_kda stats + kda);
     best_kda := if better then kda else best_kda stats;
     best_hero := if better then Some (hero0 player) else best_hero stats;
     match_performances :=
       match_performances stats ++ [performance_of mid duration_sec player];
     derived := derived stats |}.

Definition update_team_player (mid : string) (duration_sec : Z)
    (ps : gmap string PlayerStats) (player : PlayerInfo) : gmap string PlayerStats :=
  <[p_name player :=
      update_player_stats mid duration_sec player
        (default new_player_stats (ps !! p_name player))]> ps.

Definition finalize_player_stats (stats : PlayerStats) : PlayerStats :=
  if decide (0 < matches_played stats)%Z then
    let n := Qc_of_Z (matches_played stats) in
    let d1 : gmap string Qc :=
      <["avg_kill_participation"%string := rnd (total_kill_participation stats / n)]>
      (<["avg_shield_hits"%string := rnd (total_shield_hits stats / n)]>
      (<["avg_head_kills"%string := rnd (total_head_kills stats / n)]>
      (<["avg_last_kills"%string := rnd (total_last_kills stats / n)]>
      (<["avg_solo_kills"%string := rnd (total_solo_kills stats / n)]>
      (<["avg_damage_taken"%string := rnd (total_damage_taken stats / n)]>
      (<["avg_healing"%string := rnd (total_healing stats / n)]>
      (<["avg_damage"%string := rnd (total_damage stats / n)]>
      (<["avg_assists"%string := rnd (total_assists stats / n)]>
      (<["avg_deaths"%string := rnd (total_deaths stats / n)]>
      (<["avg_kills"%string := rnd (total_kills stats / n)]> (derived stats))))))))))) in
    let total_min := total_minutes stats in
    let d2 : gmap string Qc :=
      if decide (0 < total_min) then
        <["avg_damage_taken_per_10"%string :=
            rnd (rnd (total_damage_taken stats / total_min) * Qc_of_Z 10)]>
        (<["avg_healing_per_10"%string :=
             rnd (rnd (total_healing stats / total_min) * Qc_of_Z 10)]>
        (<["avg_damage_per_10"%string :=
             rnd (rnd (total_damage stats / total_min) * Qc_of_Z 10)]>
        (<["avg_assists_per_10"%string :=
             rnd (rnd (total_assists stats / total_min) * Qc_of_Z 10)]>
        (<["avg_deaths_per_10"%string :=
             rnd (rnd (total_deaths stats / total_min) * Qc_of_Z 10)]>
        (<["avg_solo_kills_per_10"%string :=
             rnd (rnd (total_solo_kills stats / total_min) * Qc_of_Z 10)]>
        (<["avg_fb_per_10"%string :=
             rnd (rnd (total_last_kills stats / total_min) * Qc_of_Z 10)]>
        (<["avg_kills_per_10"%string :=
             rnd (rnd (total_kills stats / total_min) * Qc_of_Z 10)]>
           d1)))))))
      else d1 in
    {| matches_played := matches_played stats; wins := wins stats;
       losses := losses stats; heroes_played := heroes_played stats;
       total_kills := total_kills stats; total_last_kills := total_last_kills stats;
       total_deaths := total_deaths stats; total_assists := total_assists stats;
       total_damage := total_damage stats; total_healing := total_healing stats;
       total_damage_taken := total_damage_taken stats;
       total_solo_kills := total_solo_kills stats;
       total_head_kills := total_head_kills stats;
       total_shield_hits := total_shield_hits stats;
       total_kill_participation := total_kill_participation stats;
       total_minutes := total_minutes stats;
       avg_kda := rnd (avg_kda stats / n);
       best_kda := best_kda stats; best_hero := best_hero stats;
       match_performances := match_performances stats;
       derived :=
         <["win_rate"%string := rnd (rnd (Qc_of_Z (wins stats) / n) * Qc_of_Z 100)]>
           d2 |}
  else stats.

Definition resolve_stats (player_ign : option string) (player_team : Z) (m : Match)
    (detailed_match : option DetailedMatch)
  : result (list PlayerInfo * list PlayerInfo) :=
  match detailed_match with
  | Some d => Ok (extract_player_stats d player_ign)
  | None => fallback_stats player_team (segments m) [] []
  end.

Definition process_match (player_ign : option string) (player_team : Z)
    (ti : TournamentInfo) (m : Match) (detailed_match : option DetailedMatch)
  : result TournamentInfo :=
  let! (team_stats, opponent_stats) :=
    resolve_stats player_ign player_team m detailed_match in
  let duration_sec := duration m in
  let ps := fold_left (update_team_player (match_id m) duration_sec)
                      team_stats (ti_player_stats ti) in
  let match_result := match_result_of player_ign (team_stats ++ opponent_stats) in
  let! score := score_string player_team m in
  Ok (with_match ti
        {| mi_id := match_id m; mi_map := map_name m; mi_mode := map_mode m;
           mi_result := match_result;
           mi_duration := format_duration duration_sec;
           mi_duration_seconds := duration_sec;
           mi_score := score;
           mi_timestamp := timestamp m;
           mi_team_stats := team_stats;
           mi_opponent_stats := opponent_stats |}
        ps).

Definition finalize_tournament (ti : TournamentInfo) : TournamentInfo :=
  {| ti_id := ti_id ti; ti_start_date := ti_start_date ti;
     ti_end_date := ti_end_date ti; ti_match_count := ti_match_count ti;
     ti_matches := ti_matches ti;
     ti_player_stats := finalize_player_stats <$> ti_player_stats ti |}.

Section Engine.

Context {W : Type}.
Variable lookup_detailed : W -> string -> W * option DetailedMatch.

Fixpoint process_matches (player_ign : option string) (player_team : Z)
    (w : W) (ti : TournamentInfo) (ms : list Match) : W * result TournamentInfo :=
  match ms with
  | [] => (w, Ok ti)
  | m :: rest =>
      let '(w', detailed_match) := lookup_detailed w (match_id m) in
      match process_match player_ign player_team ti m detailed_match with
      | Ok ti' => process_matches player_ign player_team w' ti' rest
      | Raise e => (w', Raise e)
      end
  end.

Definition analyze_tournament (player_ign : option string) (player_team : Z)
    (w : W) (idx : Z) (tournament : list Match) : W * result TournamentInfo :=
  match head tournament, last tournament with
  | Some first, Some final =>
      let ti := {| ti_id := (idx + 1)%Z;
                   ti_start_date := timestamp first;
                   ti_end_date := timestamp final;
                   ti_match_count := Z.of_nat (length tournament);
                   ti_matches := [];
                   ti_player_stats := ∅ |} in
      match process_matches player_ign player_team w ti tournament with
      | (w', Ok ti') => (w', Ok (finalize_tournament ti'))
      | (w', Raise e) => (w', Raise e)
      end
  | _, _ => (w, Raise IndexError)
  end.

Fixpoint analyze_clusters (player_ign : option string) (player_team : Z)
    (w : W) (idx : Z) (clusters : list (list Match))
    (tournament_results : list TournamentInfo)
  : W * result (list TournamentInfo) :=
  match clusters with
  | [] => (w, Ok tournament_results)
  | tournament :: rest =>
      match analyze_tournament player_ign player_team w idx tournament with
      | (w', Ok ti) =>
          analyze_clusters player_ign player_team w' (idx + 1)%Z rest
            (tournament_results ++ [ti])
      | (w', Raise e) => (w', Raise e)
      end
  end.

Definition analyze_tournaments (data : Data) (w : W) : W * result (list TournamentInfo) :=
  let player_ign := ign data in
  match find_player_team player_ign (data_matches data) with
  | None => (w, Raise (ValueError "Player team could not be identified."))
  | Some player_team =>
      analyze_clusters player_ign player_team w 0
        (cluster_tournament_matches data) []
  end.

End Engine.
End Rounding.
End Rounded.

(** ** Vocabulary of the statements *)

Definition ts_le (a b : Match) : Prop := (timestamp a <= timestamp b)%Z.

(** Neighbours inside a cluster are at most a day apart. *)
Definition gaps_within (c : list Match) : Prop :=
  ∀ i a b, c !! i = Some a → c !! S i = Some b →
           (timestamp b - timestamp a <= day)%Z.

(** From the last match of a cluster to the first of the next there is
    more than a day. *)
Definition gaps_between (cs : list (list Match)) : Prop :=
  ∀ i c1 c2 a b, cs !! i = Some c1 → cs !! S i = Some c2 →
                 last c1 = Some a → head c2 = Some b →
                 (day < timestamp b - timestamp a)%Z.

(** What the scan maintains on [(tournaments, current)]. *)
Definition scan_inv (st : list (list Match) * list Match) : Prop :=
  Forall (λ c, c ≠ []) (fst st) ∧
  (snd st = [] → fst st = []) ∧
  Forall gaps_within (fst st ++ [snd st]) ∧
  gaps_between (fst st ++ [snd st]).

(** A team-side appearance: the match entry and the player's dict in its
    [team_stats]. *)
Definition named (n : string) (p : PlayerInfo) : bool := bool_decide (p_name p = n).

Definition appearances (n : string) (mis : list MatchInfo)
  : list (MatchInfo * PlayerInfo) :=
  flat_map (λ mi, map (λ p, (mi, p)) (List.filter (named n) (mi_team_stats mi))) mis.

Definition kda_of (a : MatchInfo * PlayerInfo) : Qc := get (snd a) "kdaRatio".

Definition won (a : MatchInfo * PlayerInfo) : bool :=
  bool_decide (p_result (snd a) = "win"%string).

(** The update of one appearance, and the running aggregate of a player
    after a list of appearances. *)
Definition update_appearance (stats : PlayerStats) (a : MatchInfo * PlayerInfo)
  : PlayerStats :=
  update_player_stats (mi_id (fst a)) (mi_duration_seconds (fst a)) (snd a) stats.

Definition running (apps : list (MatchInfo * PlayerInfo)) : PlayerStats :=
  fold_left update_appearance apps new_player_stats.

(** The same on the entry of the [defaultdict], which may not exist yet. *)
Definition update_entry (o : option PlayerStats) (a : MatchInfo * PlayerInfo)
  : option PlayerStats :=
  Some (update_appearance (default new_player_stats o) a).

(** [b] is the maximum of 0 and the values of [l]. *)
Definition is_max_with_0 (b : Qc) (l : list Qc) : Prop :=
  (b = 0 ∨ b ∈ l) ∧ 0 ≤ b ∧ ∀ x, x ∈ l → x ≤ b.

(** The hero of the first appearance that reaches the KDA [b]. *)
Definition first_hero_at (b : Qc) (apps : list (MatchInfo * PlayerInfo))
  : option string :=
  hero0 ∘ snd <$> List.find (λ a, bool_decide (kda_of a = b)) apps.

(** A tournament aggregate that belongs to a cluster. *)
Definition aggregate_of (cluster : list Match) (ti : TournamentInfo) : Prop :=
  map mi_id (ti_matches ti) = map match_id cluster ∧
  map mi_timestamp (ti_matches ti) = map timestamp cluster ∧
  ∀ n, ti_player_stats ti !! n
       = finalize_player_stats <$>
           fold_left update_entry (appearances n (ti_matches ti)) None.


(** The participations of a group add up to [100 * (K + A) / K]. *)
Definition participation_total (group : list PlayerInfo) : Prop :=
  let K := sum_of "kills" group in
  let A := sum_of "assists" group in
  0 < K →
  sum_of "kill_participation" group = Qc_of_Z 100 * (K + A) / K ∧
  (0 < A → Qc_of_Z 100 < sum_of "kill_participation" group).

(** What is claimed of the best KDA of a player's entry [stats] in the
    aggregate [ti]: it is the maximum of 0 and the KDA ratios of the
    player's appearances, its hero is the first to reach it, and along the
    appearances the running best moves only on a strictly greater KDA. *)
Definition best_kda_spec (ti : TournamentInfo) (n : string) (stats : PlayerStats) : Prop :=
  let apps := appearances n (ti_matches ti) in
  is_max_with_0 (best_kda stats) (map kda_of apps) ∧
  best_hero stats
  = (if decide (0 < best_kda stats) then first_hero_at (best_kda stats) apps else None) ∧
  best_kda stats = best_kda (running apps) ∧
  best_hero stats = best_hero (running apps) ∧
  ∀ pre a post, apps = pre ++ a :: post →
    best_kda (running pre) ≤ best_kda (running (pre ++ [a])) ∧
    best_kda (running (pre ++ [a]))
    = (if decide (best_kda (running pre) < kda_of a) then kda_of a
       else best_kda (running pre)) ∧
    best_hero (running (pre ++ [a]))
    = (if decide (best_kda (running pre) < kda_of a) then Some (hero0 (snd a))
       else best_hero (running pre)).

(** What is claimed of the performance log: as long as [matches_played],
    one snapshot per team-side appearance and in the order of the matches,
    which ascend by timestamp; where no match lists the player twice, that
    is one snapshot per match the player appeared in. *)
Definition log_spec (ti : TournamentInfo) (n : string) (stats : PlayerStats) : Prop :=
  let apps := appearances n (ti_matches ti) in
  Z.of_nat (length (match_performances stats)) = matches_played stats ∧
  map perf_match_id (match_performances stats) = map (mi_id ∘ fst) apps ∧
  StronglySorted Z.le (map mi_timestamp (ti_matches ti)) ∧
  StronglySorted Z.le (map (mi_timestamp ∘ fst) apps) ∧
  (Forall (λ mi, (length (List.filter (named n) (mi_team_stats mi)) <= 1)%nat)
          (ti_matches ti) →
   map perf_match_id (match_performances stats)
   = map mi_id (List.filter (λ mi, existsb (named n) (mi_team_stats mi)) (ti_matches ti))).


(** ** Scenarios *)

Definition entry (z : Z) : StatEntry := {| value := Some (Qc_of_Z z) |}.

Definition bag (kills deaths assists kda : Z) : gmap string StatEntry :=
  <["kills"%string := entry kills]>
  (<["deaths"%string := entry deaths]>
  (<["assists"%string := entry assists]>
  (<["kdaRatio"%string := entry kda]>
  (<["totalHeroDamage"%string := entry 1000]> ∅)))).

Definition segment_of (ty handle : string) (team : Z) (res hero : string)
    (stats : gmap string StatEntry) : Segment :=
  {| seg_type := Some ty; platformUserHandle := handle; teamId := Some team;
     seg_result := res; seg_heroes := [hero]; isMvp := false; isSvp := false;
     seg_stats := Some stats |}.

Definition raw_match (id : string) (ts dur : Z) (segs : list Segment) : RawMatch :=
  {| attr_mode := Some "tournament"%string; attr_id := id; meta_timestamp := ts;
     meta_mapName := "Midtown"; meta_mapModeName := "Convoy"; meta_duration := dur;
     meta_winningTeamId := 0; meta_scores := [2; 1]%Z; raw_segments := segs |}.

(** 2025-01-10T12:00:00Z. *)
Definition t0 : Z := 1736510400 * 1000000.

(** Three tournament matches, listed out of order: [m1] at [t0], [m2] an
    hour later, [m3] thirty hours after [m2].  The reference player wins
    [m1] (10/2/3, 600 s) and loses [m2] (4/6/1, 900 s). *)
Definition scenario : Data :=
  {| ign := Some "Ref"%string;
     data_matches :=
       [ raw_match "m3" (t0 + 31 * hour) 300
           [segment_of "overview" "Ref" 0 "win" "Hulk" (bag 1 1 1 2)];
         raw_match "m1" t0 600
           [segment_of "overview" "Ref" 0 "win" "Hulk" (bag 10 2 3 6)];
         raw_match "m2" (t0 + hour) 900
           [segment_of "overview" "Ref" 0 "loss" "Thor" (bag 4 6 1 6);
            segment_of "overview" "Foe" 1 "win" "Loki" (bag 6 4 2 2)] ] |}.

(** No detailed record is available: every match takes the fallback. *)
Definition no_detail (w : list string) (mid : string)
  : list string * option DetailedMatch := (w ++ [mid], None).

(** Detailed records for [m1] and [m2], none for [m3]. *)
Definition detail_m1 : DetailedMatch :=
  {| dm_duration := Some 600%Z;
     dm_segments :=
       [segment_of "player" "Ref" 0 "win" "Hulk" (bag 10 2 3 6);
        segment_of "player" "Ally" 0 "win" "Storm" (bag 5 3 8 4);
        segment_of "player" "Foe" 1 "loss" "Loki" (bag 5 15 0 1)] |}.

Definition detail_m2 : DetailedMatch :=
  {| dm_duration := Some 900%Z;
     dm_segments :=
       [segment_of "player" "Ref" 0 "loss" "Thor" (bag 4 6 1 6);
        segment_of "player" "Foe" 1 "win" "Loki" (bag 6 4 2 2)] |}.

Definition with_detail (w : list string) (mid : string)
  : list string * option DetailedMatch :=
  (w ++ [mid],
   if decide (mid = "m1"%string) then Some detail_m1
   else if decide (mid = "m2"%string) then Some detail_m2
   else None).

(** The reference player's entry in the [k]-th tournament of a run. *)
Definition stats_in {W} (run : W * result (list TournamentInfo)) (k : nat) (n : string)
  : option PlayerStats :=
  match snd run with
  | Ok tis => ti ← tis !! k; ti_player_stats ti !! n
  | Raise _ => None
  end.


(** A group with kill sum 10 where one player has 5 kills and 6 assists. *)
Definition duo : DetailedMatch :=
  {| dm_duration := Some 600%Z;
     dm_segments :=
       [segment_of "player" "A" 0 "win" "Hulk" (bag 5 0 6 11);
        segment_of "player" "B" 0 "win" "Thor" (bag 5 0 0 5)] |}.

(** An overview segment whose stats bag lacks [kills]. *)
Definition no_kills : Segment :=
  segment_of "overview" "Ref" 0 "win" "Hulk"
    (<["deaths"%string := entry 2]>
     (<["assists"%string := entry 3]>
     (<["kdaRatio"%string := entry 6]>
     (<["totalHeroDamage"%string := entry 1000]> ∅)))).

Definition sparse : Data :=
  {| ign := Some "Ref"%string;
     data_matches := [raw_match "m1" t0 600 [no_kills]] |}.

(** The aggregates of a run, one of them, and a player's entry in it. *)
Definition results_of {W} (run : W * result (list TournamentInfo)) : list TournamentInfo :=
  match snd run with
  | Ok tis => tis
  | Raise _ => []
  end.

Definition empty_tournament : TournamentInfo :=
  {| ti_id := 0; ti_start_date := 0; ti_end_date := 0; ti_match_count := 0;
     ti_matches := []; ti_player_stats := ∅ |}.

Definition tournament_at (tis : list TournamentInfo) (k : nat) : TournamentInfo :=
  default empty_tournament (tis !! k).

Definition entry_of (ti : TournamentInfo) (n : string) : PlayerStats :=
  default new_player_stats (ti_player_stats ti !! n).

Definition is_ok {A} (r : result A) : bool :=
  match r with
  | Ok _ => true
  | Raise _ => false
  end.

Definition has_entry (ti : TournamentInfo) (n : string) : bool :=
  match ti_player_stats ti !! n with
  | Some _ => true
  | None => false
  end.

Definition fallback_run : list string * result (list TournamentInfo) :=
  analyze_tournaments no_detail scenario [].

Definition detailed_run : list string * result (list TournamentInfo) :=
  analyze_tournaments with_detail scenario [].

(** ** Reports: what decides the rows and the record

    The report generators format numbers for display; what is embedded
    here is the part of them that selects and counts. *)

(** A string argument used as a condition: [None] and [""] are falsy. *)
Definition truthy (s : option string) : bool :=
  match s with
  | Some x => negb (bool_decide (x = ""%string))
  | None => false
  end.

(** [next((p['team_id'] for p in team_stats if p['name'] == player_ign), None)]. *)
Definition report_team_id (player_ign : option string) (team_stats : list PlayerInfo)
  : option Z :=
  match List.find (λ p, bool_decide (Some (p_name p) = player_ign)) team_stats with
  | Some p => p_team_id p
  | None => None
  end.

(** The list [teammates] of [generate_match_report]. *)
Definition match_report_teammates (filter_teammates : bool) (player_ign : option string)
    (mi : MatchInfo) : list PlayerInfo :=
  if filter_teammates && truthy player_ign then
    match report_team_id player_ign (mi_team_stats mi) with
    | Some t => List.filter (λ p, bool_decide (p_team_id p = Some t)) (mi_team_stats mi)
    | None => mi_team_stats mi
    end
  else mi_team_stats mi.

(** The set [teammates] of [generate_tournament_report]. *)
Definition add_teammates (player_ign : option string) (acc : gset string) (mi : MatchInfo)
  : gset string :=
  match report_team_id player_ign (mi_team_stats mi) with
  | Some t =>
      acc ∪ list_to_set
              (map p_name
                 (List.filter (λ p, bool_decide (p_team_id p = Some t)) (mi_team_stats mi)))
  | None => acc
  end.

Definition tournament_teammates (player_ign : option string) (ti : TournamentInfo)
  : gset string :=
  fold_left (add_teammates player_ign) (ti_matches ti) ∅.

(** [team_wins] and [team_losses] of [generate_tournament_report], of
    [main] and of the dashboard. *)
Definition team_wins (ti : TournamentInfo) : Z :=
  Z.of_nat (length (List.filter (λ mi, bool_decide (mi_result mi = "win"%string))
                      (ti_matches ti))).

Definition team_losses (ti : TournamentInfo) : Z := (ti_match_count ti - team_wins ti)%Z.

(** The keys added by the final pass that the reports and the dashboard
    table read by subscript. *)
Definition report_keys : list string :=
  ["win_rate"; "avg_kills"; "avg_deaths"; "avg_assists"; "avg_last_kills";
   "avg_solo_kills"; "avg_damage"; "avg_healing"; "avg_kill_participation"]%string.

(** The per-10 averages, written together or not at all. *)
Definition per_10_average_keys : list string :=
  ["avg_kills_per_10"; "avg_fb_per_10"; "avg_solo_kills_per_10";
   "avg_deaths_per_10"; "avg_assists_per_10"; "avg_damage_per_10";
   "avg_healing_per_10"; "avg_damage_taken_per_10"]%string.

(** [perf['match_id'].split('_')[-1]] of [generate_player_report]: what
    follows the last underscore. *)
Fixpoint after_last (sep : Ascii.ascii) (s : string) (current : string) : string :=
  match s with
  | EmptyString => current
  | String c s' =>
      if decide (c = sep) then after_last sep s' ""
      else after_last sep s' (current +:+ String c "")
  end.

Definition match_num (mid : string) : string := after_last "_"%char mid "".

(** ** Fetch: the text taken from a page without a [pre] element

    [start = page_source.find('{')], [end = page_source.rfind('}') + 1],
    then [page_source[start:end]] when [start >= 0 and end > start]. *)
Fixpoint find_char (c : Ascii.ascii) (s : string) : Z :=
  match s with
  | EmptyString => -1
  | String x s' =>
      if decide (x = c) then 0
      else let i := find_char c s' in if (i <? 0)%Z then -1 else (i + 1)%Z
  end.

Fixpoint rfind_char (c : Ascii.ascii) (s : string) : Z :=
  match s with
  | EmptyString => -1
  | String x s' =>
      let i := rfind_char c s' in
      if (0 <=? i)%Z then (i + 1)%Z
      else if decide (x = c) then 0 else -1
  end.

(** [s[start:end]] for [0 <= start]. *)
Definition slice (s : string) (start stop : Z) : string :=
  String.substring (Z.to_nat start) (Z.to_nat (stop - start)) s.

Definition json_text_of_page (page_source : string) : option string :=
  let start := find_char "{"%char page_source in
  let stop := (rfind_char "}"%char page_source + 1)%Z in
  if (0 <=? start)%Z && (start <? stop)%Z then Some (slice page_source start stop)
  else None.

(** ** Vocabulary of the further statements *)

(** The worlds a run goes through: one lookup per match, in order. *)
Definition lookups {W} (lookup_detailed : W → string → W * option DetailedMatch)
    (ms : list Match) (w : W) : W :=
  fold_left (λ w m, fst (lookup_detailed w (match_id m))) ms w.



(** What every entry of [tournament_info['matches']] satisfies. *)
Definition match_info_wf (player_ign : option string) (mi : MatchInfo) : Prop :=
  mi_result mi
  = match_result_of player_ign (mi_team_stats mi ++ mi_opponent_stats mi) ∧
  mi_duration mi = format_duration (mi_duration_seconds mi) ∧
  Forall (λ p, p_heroes p ≠ []) (mi_team_stats mi ++ mi_opponent_stats mi) ∧
  ∃ t, Forall (λ p, p_team_id p = Some t) (mi_team_stats mi).

(** The running sums, each with the counter it adds up and the average
    the final pass derives from it. *)
Definition totals_table : list ((PlayerStats → Qc) * string * string) :=
  [(total_kills, "kills", "avg_kills");
   (total_deaths, "deaths", "avg_deaths");
   (total_assists, "assists", "avg_assists");
   (total_damage, "totalHeroDamage", "avg_damage");
   (total_healing, "totalHeroHeal", "avg_healing");
   (total_damage_taken, "totalDamageTaken", "avg_damage_taken");
   (total_solo_kills, "soloKills", "avg_solo_kills");
   (total_last_kills, "lastKills", "avg_last_kills");
   (total_head_kills, "headKills", "avg_head_kills");
   (total_shield_hits, "shieldHits", "avg_shield_hits");
   (total_kill_participation, "kill_participation", "avg_kill_participation")]%string.

(** The per-10 averages, each with the running sum it is taken from. *)
Definition per_10_table : list ((PlayerStats → Qc) * string) :=
  [(total_kills, "avg_kills_per_10");
   (total_last_kills, "avg_fb_per_10");
   (total_solo_kills, "avg_solo_kills_per_10");
   (total_deaths, "avg_deaths_per_10");
   (total_assists, "avg_assists_per_10");
   (total_damage, "avg_damage_per_10");
   (total_healing, "avg_healing_per_10");
   (total_damage_taken, "avg_damage_taken_per_10")]%string.



(** The keys the reports read are there, and the per-10 averages come
    together. *)
Definition keys_spec (stats : PlayerStats) : Prop :=
  Forall (λ key, is_Some (derived stats !! key)) report_keys ∧
  (Forall (λ key, is_Some (derived stats !! key)) per_10_average_keys ∨
   Forall (λ key, derived stats !! key = None) per_10_average_keys).

(** The heroes of an entry. *)
Definition heroes_spec (ti : TournamentInfo) (n : string) (stats : PlayerStats) : Prop :=
  (∀ h, h ∈ heroes_played stats ↔
        ∃ a, a ∈ appearances n (ti_matches ti) ∧ h ∈ p_heroes (snd a)) ∧
  (∀ h, best_hero stats = Some h → h ∈ heroes_played stats).

(** The five counters the fallback reads by subscript are there. *)
Definition complete_overview (s : Segment) : bool :=
  match seg_stats s with
  | Some bag =>
      forallb (λ key, match bag !! key with
                      | Some {| value := Some _ |} => true
                      | _ => false
                      end)
        ["kills"; "deaths"; "assists"; "kdaRatio"; "totalHeroDamage"]%string
  | None => false
  end.

(** [l[i]] does not raise. *)
Definition index_ok {A} (l : list A) (i : Z) : bool :=
  let n := Z.of_nat (length l) in (- n <=? i)%Z && (i <? n)%Z.

(** A match that the fallback can process for the team [player_team]. *)
Definition fallback_ready (player_team : Z) (m : Match) : bool :=
  forallb (λ s, negb (is_type "overview" s) || complete_overview s) (segments m)
  && match scores m with
     | [] => true
     | _ :: _ => index_ok (scores m) player_team && index_ok (scores m) (1 - player_team)%Z
     end.

(** The decimal digit [n]. *)
Definition digit (n : Z) : Ascii.ascii := Ascii.ascii_of_nat (48 + Z.to_nat n).

(** The tournaments of the scenario, cut by hand. *)
Definition scenario_clusters : list (list Match) :=
  match tournament_matches scenario with
  | [c; a; b] => [[a; b]; [c]]
  | _ => []
  end.

(** The overview segments of a match with a bystander of another type. *)
Definition scenario_segments : list Segment :=
  [segment_of "overview" "Ref" 0 "loss" "Thor" (bag 4 6 1 6);
   segment_of "player" "Ghost" 0 "loss" "Hela" (bag 0 0 0 0);
   segment_of "overview" "Foe" 1 "win" "Loki" (bag 6 4 2 2)].

Definition groups_of (r : result (list PlayerInfo * list PlayerInfo))
  : list PlayerInfo * list PlayerInfo :=
  match r with
  | Ok g => g
  | Raise _ => ([], [])
  end.

(** ** The scenarios as the machine computes them *)

Definition fallback_run64 : list string * result (list TournamentInfo) :=
  Rounded.analyze_tournaments binary64 no_detail scenario [].

Definition detailed_run64 : list string * result (list TournamentInfo) :=
  Rounded.analyze_tournaments binary64 with_detail scenario [].

(** The float that Python writes [5.6000000000000005]: the one next above
    the float nearest to 5.6. *)
Definition float_5_6000000000000005 : Qc :=
  Q2Qc (6305039478318695 # 1125899906842624).

(** The float that Python writes [110.00000000000001]: the one next above
    110. *)
Definition float_110_00000000000001 : Qc :=
  Q2Qc (7740561859543041 # 70368744177664).

(** ** Inputs at the edges of the claims *)

(** The same segment without a [teamId]. *)
Definition without_team (s : Segment) : Segment :=
  {| seg_type := seg_type s; platformUserHandle := platformUserHandle s;
     teamId := None; seg_result := seg_result s; seg_heroes := seg_heroes s;
     isMvp := isMvp s; isSvp := isSvp s; seg_stats := seg_stats s |}.

(** One match with two overview segments of the reference player: the
    first has no team id, the second has. *)
Definition shadowed : Data :=
  {| ign := Some "Ref"%string;
     data_matches :=
       [raw_match "m1" t0 600
          [without_team (segment_of "overview" "Ref" 0 "win" "Hulk" (bag 10 2 3 6));
           segment_of "overview" "Ref" 0 "win" "Hulk" (bag 10 2 3 6)]] |}.

(** Two matches an hour apart in which the reference player has no kill
    and no assist: a KDA ratio of 0 in both. *)
Definition idle : Data :=
  {| ign := Some "Ref"%string;
     data_matches :=
       [raw_match "m1" t0 600
          [segment_of "overview" "Ref" 0 "loss" "Hulk" (bag 0 3 0 0)];
        raw_match "m2" (t0 + hour) 600
          [segment_of "overview" "Ref" 0 "loss" "Thor" (bag 0 5 0 0)]] |}.

Definition idle_run : list string * result (list TournamentInfo) :=
  analyze_tournaments no_detail idle [].

(** A detailed record of [m1] with two player segments of the reference
    player. *)
Definition detail_twice : DetailedMatch :=
  {| dm_duration := Some 600%Z;
     dm_segments :=
       [segment_of "player" "Ref" 0 "win" "Hulk" (bag 10 2 3 6);
        segment_of "player" "Ref" 0 "win" "Storm" (bag 5 3 8 4)] |}.

Definition with_twice (w : list string) (mid : string)
  : list string * option DetailedMatch :=
  (w ++ [mid], if decide (mid = "m1"%string) then Some detail_twice else None).

Definition twice_run : list string * result (list TournamentInfo) :=
  analyze_tournaments with_twice scenario [].

(** * Properties of the clusterer *)

Section Clusterer.

Implicit Types (m a b : Match) (l c : list Match) (cs : list (list Match)).

Lemma insert_by_timestamp_perm m l : insert_by_timestamp m l ≡ₚ m :: l.
Proof.
  induction l as [|x l IH]; simpl; [done|].
  destruct (timestamp m <=? timestamp x)%Z; [done|].
  rewrite IH. apply Permutation_swap.
Qed.

Lemma sort_by_timestamp_perm l : sort_by_timestamp l ≡ₚ l.
Proof.
  induction l as [|x l IH]; simpl; [done|].
  by rewrite insert_by_timestamp_perm, IH.
Qed.

#[local] Instance ts_le_trans : Transitive ts_le.
Proof. unfold ts_le. intros a b c ??. lia. Qed.

Lemma insert_by_timestamp_sorted m l :
  StronglySorted ts_le l → StronglySorted ts_le (insert_by_timestamp m l).
Proof.
  induction 1 as [|x l Hl IH Hx]; simpl.
  { repeat constructor. }
  destruct (Z.leb_spec (timestamp m) (timestamp x)) as [Hle|Hlt].
  - constructor; [by constructor|].
    constructor; [done|].
    eapply Forall_impl; [exact Hx|]. intros y Hy. by etrans.
  - constructor; [done|].
    rewrite insert_by_timestamp_perm. constructor; [|done].
    unfold ts_le. lia.
Qed.

Lemma sort_by_timestamp_sorted l : StronglySorted ts_le (sort_by_timestamp l).
Proof.
  induction l as [|x l IH]; simpl; [constructor|].
  by apply insert_by_timestamp_sorted.
Qed.

(** The sort is stable: matches with one timestamp keep their order. *)
Lemma insert_by_timestamp_stable (t : Z) m l :
  List.filter (λ x, bool_decide (timestamp x = t)) (insert_by_timestamp m l)
  = List.filter (λ x, bool_decide (timestamp x = t)) (m :: l).
Proof.
  induction l as [|x l IH]; [done|]. simpl in *.
  destruct (Z.leb_spec (timestamp m) (timestamp x)) as [Hle|Hlt]; [done|].
  simpl. rewrite IH.
  repeat case_bool_decide; try done. lia.
Qed.

Lemma sort_by_timestamp_stable (t : Z) l :
  List.filter (λ x, bool_decide (timestamp x = t)) (sort_by_timestamp l)
  = List.filter (λ x, bool_decide (timestamp x = t)) l.
Proof.
  induction l as [|x l IH]; [done|]. simpl.
  rewrite insert_by_timestamp_stable. simpl. by rewrite IH.
Qed.

(** The scan neither drops nor repeats a match. *)
Lemma cluster_step_concat st m :
  concat (fst (cluster_step st m)) ++ snd (cluster_step st m)
  = (concat (fst st) ++ snd st) ++ [m].
Proof.
  destruct st as [ts cur]. unfold cluster_step.
  destruct (last cur) as [prev|] eqn:Hlast.
  - destruct (_ <=? _)%Z; simpl.
    + by rewrite app_assoc.
    + by rewrite concat_app; simpl; rewrite app_nil_r.
  - simpl. by rewrite app_assoc.
Qed.

Lemma cluster_scan_concat l st :
  concat (fst (fold_left cluster_step l st)) ++ snd (fold_left cluster_step l st)
  = (concat (fst st) ++ snd st) ++ l.
Proof.
  revert st. induction l as [|m l IH]; intros st; simpl.
  - by rewrite app_nil_r.
  - rewrite IH, cluster_step_concat. by rewrite <- app_assoc.
Qed.

Lemma cluster_finish_concat st :
  concat (cluster_finish st) = concat (fst st) ++ snd st.
Proof.
  destruct st as [ts [|x cur]]; simpl.
  - by rewrite app_nil_r.
  - rewrite concat_app. simpl. by rewrite app_nil_r.
Qed.

Lemma cluster_sorted_concat l : concat (cluster_sorted l) = l.
Proof.
  unfold cluster_sorted. by rewrite cluster_finish_concat, cluster_scan_concat.
Qed.

Lemma gaps_within_snoc c prev m :
  gaps_within c → last c = Some prev →
  (timestamp m - timestamp prev <= day)%Z → gaps_within (c ++ [m]).
Proof.
  intros Hc Hlast Hgap i a b Ha Hb.
  apply lookup_app_Some in Hb as [Hb|[Hlen Hb]].
  - apply (Hc i a b); [|done].
    apply lookup_lt_Some in Hb.
    rewrite lookup_app_l in Ha by lia. done.
  - apply list_lookup_singleton_Some in Hb as [Hi ->].
    rewrite last_lookup in Hlast.
    rewrite lookup_app_l in Ha by lia.
    replace (pred (length c)) with i in Hlast by lia.
    by simplify_eq.
Qed.

Lemma gaps_within_short c : (length c <= 1)%nat → gaps_within c.
Proof.
  intros Hlen i a b Ha Hb. apply lookup_lt_Some in Hb. lia.
Qed.

(** Growing the last cluster keeps the distances between clusters. *)
Lemma gaps_between_grow cs c m :
  c ≠ [] → gaps_between (cs ++ [c]) → gaps_between (cs ++ [c ++ [m]]).
Proof.
  intros Hne Hcs i c1 c2 a b H1 H2 Ha Hb.
  apply lookup_app_Some in H2 as [H2|[Hlen H2]].
  - apply (Hcs i c1 c2 a b); [| |done..].
    + apply lookup_lt_Some in H2.
      rewrite lookup_app_l in H1 by lia. by rewrite lookup_app_l by lia.
    + by rewrite lookup_app_l by (by eapply lookup_lt_Some).
  - apply list_lookup_singleton_Some in H2 as [Hi <-].
    rewrite lookup_app_l in H1 by lia.
    apply (Hcs i c1 c a b); [| |done|].
    + by rewrite lookup_app_l by lia.
    + rewrite lookup_app_r by lia.
      by replace (S i - length cs)%nat with 0%nat by lia.
    + destruct c; [done|]. done.
Qed.

(** Opening a cluster whose first match is more than a day later. *)
Lemma gaps_between_open cs c prev m :
  last c = Some prev → (day < timestamp m - timestamp prev)%Z →
  gaps_between (cs ++ [c]) → gaps_between ((cs ++ [c]) ++ [[m]]).
Proof.
  intros Hlast Hgap Hcs i c1 c2 a b H1 H2 Ha Hb.
  apply lookup_app_Some in H2 as [H2|[Hlen H2]].
  - apply (Hcs i c1 c2 a b); [|done..].
    apply lookup_lt_Some in H2.
    by rewrite lookup_app_l in H1 by lia.
  - apply list_lookup_singleton_Some in H2 as [Hi <-].
    rewrite length_app in Hlen, Hi. simpl in *.
    rewrite lookup_app_l in H1 by (rewrite length_app; simpl; lia).
    rewrite lookup_app_r in H1 by lia.
    replace (i - length cs)%nat with 0%nat in H1 by lia.
    simpl in *. by simplify_eq.
Qed.

Lemma scan_inv_init : scan_inv ([], []).
Proof.
  unfold scan_inv. split_and!; simpl.
  - constructor.
  - done.
  - rewrite Forall_singleton. apply gaps_within_short; simpl; lia.
  - intros i c1 c2 a b _ H2. by destruct i.
Qed.

Lemma scan_inv_step st m : scan_inv st → scan_inv (cluster_step st m).
Proof.
  destruct st as [ts cur]. intros (Hne & Hempty & Hwithin & Hbetween).
  simpl in *. unfold cluster_step.
  destruct (last cur) as [prev|] eqn:Hlast.
  - assert (cur ≠ []) as Hcur by (by intros ->).
    apply Forall_app in Hwithin as [Hts Hcurw].
    rewrite Forall_singleton in Hcurw.
    destruct (Z.leb_spec (timestamp m - timestamp prev) day) as [Hle|Hlt];
      unfold scan_inv; split_and!; simpl.
    + done.
    + intros Happ. by destruct cur.
    + apply Forall_app. split; [done|].
      rewrite Forall_singleton. by eapply gaps_within_snoc.
    + by apply gaps_between_grow.
    + apply Forall_app. split; [done|]. by rewrite Forall_singleton.
    + done.
    + apply Forall_app. split; [apply Forall_app; split; [done|]|].
      * by rewrite Forall_singleton.
      * rewrite Forall_singleton. apply gaps_within_short; simpl; lia.
    + by eapply gaps_between_open.
  - apply last_None in Hlast as ->. rewrite (Hempty eq_refl).
    unfold scan_inv. split_and!; simpl.
    + constructor.
    + done.
    + rewrite Forall_singleton. apply gaps_within_short; simpl; lia.
    + intros i c1 c2 a b _ H2. by destruct i.
Qed.

Lemma scan_inv_fold l st : scan_inv st → scan_inv (fold_left cluster_step l st).
Proof.
  revert st. induction l as [|m l IH]; intros st Hst; simpl; [done|].
  by apply IH, scan_inv_step.
Qed.

(** What the invariant gives once the open cluster is closed. *)
Lemma scan_inv_finish st :
  scan_inv st →
  Forall (λ c, c ≠ []) (cluster_finish st) ∧
  Forall gaps_within (cluster_finish st) ∧
  gaps_between (cluster_finish st).
Proof.
  destruct st as [ts [|x cur]]; intros (Hne & Hempty & Hwithin & Hbetween);
    simpl in *.
  - rewrite (Hempty eq_refl). split_and!; [constructor..|].
    intros i c1 c2 a b H1. by destruct i.
  - split_and!; [|done..].
    apply Forall_app. split; [done|]. by rewrite Forall_singleton.
Qed.

Lemma cluster_sorted_props l :
  Forall (λ c, c ≠ []) (cluster_sorted l) ∧
  Forall gaps_within (cluster_sorted l) ∧
  gaps_between (cluster_sorted l).
Proof. apply scan_inv_finish, scan_inv_fold, scan_inv_init. Qed.

(** Every cluster is a segment of the list that was scanned. *)
Lemma concat_segment cs c :
  c ∈ cs → ∃ pre post, concat cs = pre ++ c ++ post.
Proof.
  intros (cs1 & cs2 & ->)%list_elem_of_split.
  exists (concat cs1), (concat cs2). by rewrite concat_app.
Qed.

Lemma cluster_sorted_each_sorted l :
  StronglySorted ts_le l → Forall (StronglySorted ts_le) (cluster_sorted l).
Proof.
  intros Hl. apply Forall_forall. intros c Hc.
  destruct (concat_segment _ _ Hc) as (pre & post & Heq).
  rewrite cluster_sorted_concat in Heq. subst l.
  by apply StronglySorted_app_1_r, StronglySorted_app_1_l in Hl.
Qed.

Lemma clusters_each_sorted (d : Data) :
  Forall (StronglySorted ts_le) (cluster_tournament_matches d).
Proof. apply cluster_sorted_each_sorted, sort_by_timestamp_sorted. Qed.

End Clusterer.

(** * Properties of the extractor *)

Section Extractor.

Implicit Types (p : PlayerInfo) (group : list PlayerInfo) (key : string).

Lemma get_set_num_eq key v p : get (set_num key v p) key = v.
Proof. unfold get, set_num. simpl. by rewrite lookup_insert_eq. Qed.

Lemma get_set_num_ne key key' v p :
  key ≠ key' → get (set_num key v p) key' = get p key'.
Proof. intros Hne. unfold get, set_num. simpl. by rewrite lookup_insert_ne. Qed.

Lemma sum_of_from key group acc :
  fold_left (λ acc p, acc + get p key) group acc = acc + sum_of key group.
Proof.
  unfold sum_of. revert acc.
  induction group as [|p group IH]; intros acc; simpl.
  - ring.
  - rewrite (IH (acc + get p key)), (IH (0 + get p key)). ring.
Qed.

Lemma sum_of_cons key p group :
  sum_of key (p :: group) = get p key + sum_of key group.
Proof. unfold sum_of at 1. simpl. rewrite sum_of_from. ring. Qed.

(** Writing one key leaves the sums over the other keys alone. *)
Lemma sum_of_set_other key key' (f : PlayerInfo → Qc) group :
  key ≠ key' →
  sum_of key' (map (λ p, set_num key (f p) p) group) = sum_of key' group.
Proof.
  intros Hne. induction group as [|p group IH]; [done|].
  simpl. rewrite !sum_of_cons, IH. by rewrite get_set_num_ne.
Qed.

Lemma sum_of_participation (K : Qc) group :
  sum_of "kill_participation"
    (map (λ p, set_num "kill_participation"
                 (((get p "kills" + get p "assists") / K) * Qc_of_Z 100) p) group)
  = Qc_of_Z 100 * (sum_of "kills" group + sum_of "assists" group) / K.
Proof.
  induction group as [|p group IH].
  - unfold sum_of. simpl. unfold Qcdiv. ring.
  - simpl. rewrite !sum_of_cons, IH, get_set_num_eq. unfold Qcdiv. ring.
Qed.



Lemma backfill_total group : participation_total (backfill_kill_participation group).
Proof.
  unfold participation_total, backfill_kill_participation.
  destruct (decide (sum_of "kills" group = 0)) as [Heq|Hne].
  - rewrite Heq. intros Hlt. by apply Qclt_not_eq in Hlt.
  - rewrite !(sum_of_set_other _ "kills"), !(sum_of_set_other _ "assists") by done.
    rewrite sum_of_participation.
    intros HK. split; [done|]. intros HA.
    set (K := sum_of "kills" group) in *. set (A := sum_of "assists" group) in *.
    replace (Qc_of_Z 100 * (K + A) / K)
      with (Qc_of_Z 100 + Qc_of_Z 100 * (A / K)) by (field; done).
    rewrite <- (Qcplus_0_r (Qc_of_Z 100)) at 1.
    apply Qcplus_lt_mono_l.
    apply Qcmult_pos_pos; [done|].
    unfold Qcdiv. apply Qcmult_pos_pos; [done|].
    by apply Qcinv_pos.
Qed.


(** Every dict that leaves the extractor has a hero. *)
Lemma build_player_info_heroes d s : p_heroes (build_player_info d s) ≠ [].
Proof.
  assert (∀ key v p, p_heroes (set_num key v p) = p_heroes p) as Hset by done.
  assert (∀ (f : PlayerInfo → string → PlayerInfo) keys p,
             (∀ p k, p_heroes (f p k) = p_heroes p) →
             p_heroes (fold_left f keys p) = p_heroes p) as Hfold.
  { intros f keys. induction keys as [|k keys IH]; intros p Hf; simpl; [done|].
    by rewrite IH, Hf. }
  assert (∀ (dur : Z) (f : PlayerInfo → string * string → PlayerInfo) keys p,
             (∀ p k, p_heroes (f p k) = p_heroes p) →
             p_heroes (fold_left f keys p) = p_heroes p) as Hfold2.
  { intros _ f keys. induction keys as [|k keys IH]; intros p Hf; simpl; [done|].
    by rewrite IH, Hf. }
  unfold build_player_info. rewrite !Hset.
  destruct (decide (d = 0%Z)).
  - rewrite Hfold.
    + simpl. by destruct (seg_heroes s).
    + intros p k. unfold copy_stat. by destruct (_ !! k).
  - rewrite (Hfold2 d), Hfold.
    + simpl. by destruct (seg_heroes s).
    + intros p k. unfold copy_stat. by destruct (_ !! k).
    + done.
Qed.

End Extractor.

(** * Properties of the running aggregate *)

Section Aggregate.

Implicit Types (a : MatchInfo * PlayerInfo) (apps : list (MatchInfo * PlayerInfo)).
Implicit Types (stats : PlayerStats) (n : string).

Lemma running_snoc apps a :
  running (apps ++ [a]) = update_appearance (running apps) a.
Proof. unfold running. by rewrite fold_left_app. Qed.

Lemma fold_update_entry apps (o : option PlayerStats) :
  fold_left update_entry apps o
  = match apps with
    | [] => o
    | _ :: _ => Some (fold_left update_appearance apps (default new_player_stats o))
    end.
Proof.
  revert o. induction apps as [|a apps IH]; intros o; simpl; [done|].
  rewrite IH. by destruct apps.
Qed.

Lemma find_snoc {A} (f : A → bool) (l : list A) (x : A) :
  List.find f (l ++ [x])
  = match List.find f l with
    | Some y => Some y
    | None => if f x then Some x else None
    end.
Proof.
  induction l as [|y l IH]; simpl; [done|]. by destruct (f y).
Qed.

Lemma find_none_iff {A} (f : A → bool) (l : list A) :
  List.find f l = None ↔ ∀ x, x ∈ l → f x = false.
Proof.
  induction l as [|y l IH]; simpl.
  - split; [|done]. intros _ x Hx. by apply elem_of_nil in Hx.
  - destruct (f y) eqn:Hy.
    + split; [done|]. intros H. rewrite H in Hy; [done|]. by left.
    + rewrite IH. split.
      * intros H x [->|Hx]%elem_of_cons; auto.
      * intros H x Hx. apply H. by right.
Qed.

(** Counters: every appearance counts as a match, and as a win or a loss. *)
Lemma running_counts apps :
  matches_played (running apps) = Z.of_nat (length apps) ∧
  wins (running apps) = Z.of_nat (length (List.filter won apps)) ∧
  losses (running apps) = Z.of_nat (length (List.filter (λ a, negb (won a)) apps)).
Proof.
  induction apps as [|a apps (IHm & IHw & IHl)] using rev_ind; [done|].
  rewrite running_snoc, !List.filter_app, !length_app. simpl.
  unfold update_appearance, update_player_stats. simpl.
  rewrite IHm, IHw, IHl. fold (won a).
  destruct (won a); simpl; split_and!; lia.
Qed.

(** The log: one snapshot per appearance, in the order of the appearances. *)
Lemma running_performances apps :
  match_performances (running apps)
  = map (λ a, performance_of (mi_id (fst a)) (mi_duration_seconds (fst a)) (snd a)) apps.
Proof.
  induction apps as [|a apps IH] using rev_ind; [done|].
  rewrite running_snoc, map_app. simpl. by rewrite IH.
Qed.

(** The best KDA changes only on a strictly greater KDA. *)
Lemma update_best_kda stats a :
  best_kda (update_appearance stats a)
  = (if decide (best_kda stats < kda_of a) then kda_of a else best_kda stats) ∧
  best_hero (update_appearance stats a)
  = (if decide (best_kda stats < kda_of a) then Some (hero0 (snd a))
     else best_hero stats).
Proof.
  unfold update_appearance, update_player_stats, kda_of. simpl.
  by destruct (decide _); [rewrite bool_decide_eq_true_2|rewrite bool_decide_eq_false_2].
Qed.

Lemma update_best_kda_mono stats a :
  best_kda stats ≤ best_kda (update_appearance stats a).
Proof.
  destruct (update_best_kda stats a) as [-> _].
  destruct (decide _) as [Hlt|Hge]; [by apply Qclt_le_weak|apply Qcle_refl].
Qed.

Lemma running_best_kda apps :
  is_max_with_0 (best_kda (running apps)) (map kda_of apps).
Proof.
  induction apps as [|a apps (Hin & Hpos & Hub)] using rev_ind.
  { split_and!; [by left|apply Qcle_refl|]. intros x Hx. by apply elem_of_nil in Hx. }
  rewrite running_snoc, map_app.
  destruct (update_best_kda (running apps) a) as [-> _].
  change (map kda_of [a]) with [kda_of a].
  destruct (decide _) as [Hlt|Hge]; split_and!.
  - right. apply elem_of_app. right. by left.
  - eapply Qcle_trans; [done|]. by apply Qclt_le_weak.
  - intros x [Hx|Hx]%elem_of_app.
    + eapply Qcle_trans; [by apply Hub|]. by apply Qclt_le_weak.
    + apply list_elem_of_singleton in Hx as ->. apply Qcle_refl.
  - destruct Hin as [?|?]; [by left|]. right. apply elem_of_app. by left.
  - done.
  - intros x [Hx|Hx]%elem_of_app; [by apply Hub|].
    apply list_elem_of_singleton in Hx as ->. by apply Qcnot_lt_le.
Qed.

(** Ties keep the hero that was seen first. *)
Lemma running_best_hero apps :
  best_hero (running apps)
  = if decide (0 < best_kda (running apps))
    then first_hero_at (best_kda (running apps)) apps
    else None.
Proof.
  induction apps as [|a apps IH] using rev_ind; [done|].
  pose proof (running_best_kda apps) as (Hin & Hpos & Hub).
  rewrite running_snoc.
  destruct (update_best_kda (running apps) a) as [-> ->].
  unfold first_hero_at. rewrite find_snoc.
  destruct (decide (best_kda (running apps) < kda_of a)) as [Hlt|Hge].
  - rewrite decide_True by (by eapply Qcle_lt_trans).
    rewrite (proj2 (find_none_iff _ apps)).
    + by rewrite bool_decide_eq_true_2.
    + intros x Hx. apply bool_decide_eq_false_2. intros Heq.
      assert (kda_of x ≤ best_kda (running apps)) as Hle.
      { apply Hub, list_elem_of_fmap. eauto. }
      rewrite Heq in Hle. by apply Qcle_not_lt in Hle.
  - rewrite IH. destruct (decide (0 < best_kda (running apps))) as [Hb|Hb]; [|done].
    unfold first_hero_at.
    destruct Hin as [Hz|Hin]; [rewrite Hz in Hb; by apply Qclt_not_eq in Hb|].
    apply list_elem_of_fmap in Hin as (x & Hx & Hxin).
    destruct (List.find _ apps) eqn:Hfind; [done|].
    rewrite find_none_iff in Hfind. specialize (Hfind x Hxin).
    by apply bool_decide_eq_false_1 in Hfind.
Qed.

(** The final pass keeps the counters, the bests and the log. *)
Lemma finalize_keeps stats :
  matches_played (finalize_player_stats stats) = matches_played stats ∧
  wins (finalize_player_stats stats) = wins stats ∧
  losses (finalize_player_stats stats) = losses stats ∧
  best_kda (finalize_player_stats stats) = best_kda stats ∧
  best_hero (finalize_player_stats stats) = best_hero stats ∧
  match_performances (finalize_player_stats stats) = match_performances stats.
Proof. unfold finalize_player_stats. by destruct (decide _). Qed.

Lemma finalize_win_rate stats :
  (0 < matches_played stats)%Z →
  derived (finalize_player_stats stats) !! "win_rate"%string
  = Some ((Qc_of_Z (wins stats) / Qc_of_Z (matches_played stats)) * Qc_of_Z 100).
Proof.
  intros Hpos. unfold finalize_player_stats. rewrite decide_True by done.
  simpl. by rewrite lookup_insert_eq.
Qed.

End Aggregate.

(** * Properties of the engine *)

Section EngineFacts.

Context {W : Type}.
Variable lookup_detailed : W → string → W * option DetailedMatch.

Implicit Types (m : Match) (mi : MatchInfo) (ti : TournamentInfo) (n : string).

Lemma appearances_app n (l1 l2 : list MatchInfo) :
  appearances n (l1 ++ l2) = appearances n l1 ++ appearances n l2.
Proof. unfold appearances. by rewrite flat_map_app. Qed.

(** The loop over [team_stats], seen from one key of the [defaultdict]. *)
Lemma update_team_lookup mi n (team : list PlayerInfo) (ps : gmap string PlayerStats) :
  fold_left (update_team_player (mi_id mi) (mi_duration_seconds mi)) team ps !! n
  = fold_left update_entry (map (λ p, (mi, p)) (List.filter (named n) team)) (ps !! n).
Proof.
  revert ps. induction team as [|p team IH]; intros ps; simpl; [done|].
  rewrite IH. unfold update_team_player at 1.
  destruct (named n p) eqn:Hn; simpl.
  - apply bool_decide_eq_true_1 in Hn. subst n. by rewrite lookup_insert_eq.
  - apply bool_decide_eq_false_1 in Hn. by rewrite lookup_insert_ne.
Qed.

Lemma process_match_spec player_ign player_team ti m dm ti' :
  process_match player_ign player_team ti m dm = Ok ti' →
  ∃ mi, ti_matches ti' = ti_matches ti ++ [mi] ∧
        mi_id mi = match_id m ∧ mi_timestamp mi = timestamp m ∧
        ∀ n, ti_player_stats ti' !! n
             = fold_left update_entry (appearances n [mi]) (ti_player_stats ti !! n).
Proof.
  unfold process_match.
  destruct (resolve_stats _ _ _ _) as [[team opp]|e]; simpl; [|done].
  destruct (score_string _ _) as [score|e]; simpl; [|done].
  intros [= <-]. eexists. split_and!; [done..|].
  intros n. simpl. unfold appearances. simpl. rewrite app_nil_r.
  by rewrite <- update_team_lookup.
Qed.

Lemma process_matches_spec player_ign player_team (ms : list Match) w ti w' ti' :
  process_matches lookup_detailed player_ign player_team w ti ms = (w', Ok ti') →
  ∃ new, ti_matches ti' = ti_matches ti ++ new ∧
         map mi_id new = map match_id ms ∧
         map mi_timestamp new = map timestamp ms ∧
         ∀ n, ti_player_stats ti' !! n
              = fold_left update_entry (appearances n new) (ti_player_stats ti !! n).
Proof.
  revert w ti. induction ms as [|m ms IH]; intros w ti; simpl.
  - intros [= <- <-]. exists []. by rewrite app_nil_r.
  - destruct (lookup_detailed w (match_id m)) as [w1 dm].
    destruct (process_match _ _ _ _ _) as [ti1|e] eqn:Hm; [|done].
    intros Hrest. apply IH in Hrest as (new & Hnew & Hids & Hts & Hps).
    apply process_match_spec in Hm as (mi & Hmi & Hid & Ht & Hps1).
    exists (mi :: new). split_and!.
    + by rewrite Hnew, Hmi, <- app_assoc.
    + simpl. by rewrite Hid, Hids.
    + simpl. by rewrite Ht, Hts.
    + intros n. rewrite Hps, Hps1.
      change (mi :: new) with ([mi] ++ new).
      by rewrite appearances_app, fold_left_app.
Qed.

Lemma analyze_tournament_spec player_ign player_team w idx cluster w' ti :
  analyze_tournament lookup_detailed player_ign player_team w idx cluster = (w', Ok ti) →
  aggregate_of cluster ti.
Proof.
  unfold analyze_tournament.
  destruct (head cluster), (last cluster); try done.
  destruct (process_matches _ _ _ _ _ _) as [w1 [ti1|e]] eqn:Hrun; [|done].
  intros [= <- <-].
  apply process_matches_spec in Hrun as (new & Hnew & Hids & Hts & Hps).
  simpl in Hnew, Hps. unfold aggregate_of, finalize_tournament. simpl.
  rewrite Hnew. split_and!; [done..|].
  intros n. by rewrite lookup_fmap, Hps, lookup_empty.
Qed.

Lemma analyze_clusters_spec player_ign player_team clusters w idx acc w' res :
  analyze_clusters lookup_detailed player_ign player_team w idx clusters acc
  = (w', Ok res) →
  ∃ new, res = acc ++ new ∧ Forall2 aggregate_of clusters new.
Proof.
  revert w idx acc. induction clusters as [|c clusters IH]; intros w idx acc; simpl.
  - intros [= <- <-]. exists []. by rewrite app_nil_r.
  - destruct (analyze_tournament _ _ _ _ _ _) as [w1 [ti|e]] eqn:Hti; [|done].
    intros (new & -> & Hall)%IH.
    apply analyze_tournament_spec in Hti.
    exists (ti :: new). split; [by rewrite <- app_assoc|by constructor].
Qed.

(** A successful run returns one aggregate per cluster, in order. *)
Lemma analyze_tournaments_spec data w w' res :
  analyze_tournaments lookup_detailed data w = (w', Ok res) →
  Forall2 aggregate_of (cluster_tournament_matches data) res.
Proof.
  unfold analyze_tournaments.
  destruct (find_player_team _ _); [|done].
  by intros (new & -> & Hall)%analyze_clusters_spec.
Qed.

Lemma analyze_tournaments_cluster data w w' res ti :
  analyze_tournaments lookup_detailed data w = (w', Ok res) → ti ∈ res →
  ∃ cluster, cluster ∈ cluster_tournament_matches data ∧ aggregate_of cluster ti.
Proof.
  intros Hall%analyze_tournaments_spec (i & Hi)%list_elem_of_lookup.
  destruct (Forall2_lookup_r _ _ _ _ _ Hall Hi) as (cluster & Hc & Hagg).
  exists cluster. split; [|done]. apply list_elem_of_lookup. eauto.
Qed.

(** A player's entry in an aggregate is the finalised running aggregate
    of the player's appearances, and there is at least one. *)
Lemma aggregate_player cluster ti n (stats : PlayerStats) :
  aggregate_of cluster ti → ti_player_stats ti !! n = Some stats →
  appearances n (ti_matches ti) ≠ [] ∧
  stats = finalize_player_stats (running (appearances n (ti_matches ti))).
Proof.
  intros (_ & _ & Hps). rewrite Hps, fold_update_entry.
  destruct (appearances n (ti_matches ti)) as [|a apps] eqn:Happs; [done|].
  simpl. intros [= <-]. done.
Qed.

(** The only [ValueError] is the one of the team check. *)
Lemma fallback_stats_not_value_error player_team segs team opp msg :
  fallback_stats player_team segs team opp ≠ Raise (ValueError msg).
Proof.
  revert team opp. induction segs as [|s segs IH]; intros team opp; simpl; [done|].
  destruct (is_type _ s); [|done].
  unfold fallback_info, stat_value, stat_value_or_0.
  destruct (seg_stats s) as [stats|]; simpl; [|done].
  repeat (match goal with
          | |- context [?b !! ?k] => destruct (b !! k) as [[[?|]]|]; simpl; try done
          end).
  all: by case_bool_decide.
Qed.

Lemma process_match_not_value_error player_ign player_team ti m dm msg :
  process_match player_ign player_team ti m dm ≠ Raise (ValueError msg).
Proof.
  unfold process_match, resolve_stats.
  destruct dm as [d|]; simpl.
  - destruct (extract_player_stats d player_ign) as [team opp]. simpl.
    unfold score_string, py_index.
    destruct (scores m); simpl; [done|].
    repeat (case_match; simpl; try done).
  - pose proof (fallback_stats_not_value_error player_team (segments m) [] [] msg).
    destruct (fallback_stats _ _ _ _) as [[team opp]|e]; simpl; [|congruence].
    unfold score_string, py_index.
    destruct (scores m); simpl; [done|].
    repeat (case_match; simpl; try done).
Qed.

Lemma process_matches_not_value_error player_ign player_team (ms : list Match) w ti msg :
  snd (process_matches lookup_detailed player_ign player_team w ti ms)
  ≠ Raise (ValueError msg).
Proof.
  revert w ti. induction ms as [|x ms IH]; intros w ti; simpl; [done|].
  destruct (lookup_detailed w (match_id x)) as [w1 dm].
  pose proof (process_match_not_value_error player_ign player_team ti x dm msg).
  destruct (process_match _ _ _ _ _) as [ti1|e]; [apply IH|simpl; congruence].
Qed.

Lemma analyze_tournament_not_value_error player_ign player_team w idx cluster msg :
  snd (analyze_tournament lookup_detailed player_ign player_team w idx cluster)
  ≠ Raise (ValueError msg).
Proof.
  unfold analyze_tournament.
  destruct (head cluster), (last cluster); try done.
  match goal with
  | |- context [process_matches ?l ?i ?t ?w ?ti ?ms] =>
      pose proof (process_matches_not_value_error i t ms w ti msg) as Hrun;
      destruct (process_matches l i t w ti ms) as [w1 [ti1|e]]
  end; simpl in *; [done|congruence].
Qed.

Lemma analyze_clusters_not_value_error player_ign player_team clusters w idx acc msg :
  snd (analyze_clusters lookup_detailed player_ign player_team w idx clusters acc)
  ≠ Raise (ValueError msg).
Proof.
  revert w idx acc. induction clusters as [|c clusters IH]; intros w idx acc; simpl; [done|].
  pose proof (analyze_tournament_not_value_error player_ign player_team w idx c msg) as Hti.
  destruct (analyze_tournament _ _ _ _ _ _) as [w1 [ti|e]]; [apply IH|].
  simpl in *. congruence.
Qed.

End EngineFacts.

(** * The clusterer partitions and respects the gap *)

(** C3. The clusters of [cluster_tournament_matches] partition the
    tournament-mode matches of the input: their concatenation is the
    stable sort by timestamp of these matches, hence a permutation of them
    (every match in one cluster, once); no cluster is empty; each cluster,
    and the sequence of clusters as a whole, ascends by timestamp; no
    tournament-mode match gives no cluster, and a single one gives a single
    one-element cluster. *)
Theorem cluster_partition (d : Data) :
  concat (cluster_tournament_matches d) ≡ₚ tournament_matches d ∧
  concat (cluster_tournament_matches d) = sort_by_timestamp (tournament_matches d) ∧
  Forall (λ c, c ≠ []) (cluster_tournament_matches d) ∧
  Forall (StronglySorted ts_le) (cluster_tournament_matches d) ∧
  StronglySorted ts_le (concat (cluster_tournament_matches d)) ∧
  (tournament_matches d = [] → cluster_tournament_matches d = []) ∧
  (∀ m, tournament_matches d = [m] → cluster_tournament_matches d = [[m]]).
Proof.
  pose proof (clusters_each_sorted d) as Heach.
  unfold cluster_tournament_matches in *.
  split_and!.
  - rewrite cluster_sorted_concat. apply sort_by_timestamp_perm.
  - apply cluster_sorted_concat.
  - apply cluster_sorted_props.
  - done.
  - rewrite cluster_sorted_concat. apply sort_by_timestamp_sorted.
  - by intros ->.
  - by intros m ->.
Qed.

(** C4. In the output of the clusterer, neighbours inside a cluster are at
    most 24 hours apart, and from the last match of a cluster to the first
    match of the next there are more than 24 hours.  On the boundary the
    scan keeps the match: a gap of exactly 24 hours extends the current
    cluster, any longer gap closes it and opens a new one. *)
Theorem cluster_gaps (d : Data) :
  Forall gaps_within (cluster_tournament_matches d) ∧
  gaps_between (cluster_tournament_matches d) ∧
  (∀ tournaments current prev m,
     last current = Some prev →
     ((timestamp m - timestamp prev = day)%Z →
      cluster_step (tournaments, current) m = (tournaments, current ++ [m])) ∧
     ((day < timestamp m - timestamp prev)%Z →
      cluster_step (tournaments, current) m = (tournaments ++ [current], [m]))) ∧
  (∀ a b, tournament_matches d = [a; b] →
     ((timestamp b - timestamp a = day)%Z →
      cluster_tournament_matches d = [[a; b]]) ∧
     ((day < timestamp b - timestamp a)%Z →
      cluster_tournament_matches d = [[a]; [b]])).
Proof.
  split_and!.
  - apply cluster_sorted_props.
  - apply cluster_sorted_props.
  - intros ts cur prev m Hlast. unfold cluster_step. rewrite Hlast. split; intros Hgap.
    + by rewrite (proj2 (Z.leb_le _ _)) by lia.
    + by rewrite (proj2 (Z.leb_gt _ _)) by lia.
  - intros a b Hab. unfold cluster_tournament_matches. rewrite Hab.
    assert (0 < day)%Z as Hday by done.
    split; intros Hgap; simpl.
    + rewrite (proj2 (Z.leb_le (timestamp a) (timestamp b))) by lia.
      unfold cluster_sorted. simpl.
      by rewrite (proj2 (Z.leb_le _ _)) by lia.
    + rewrite (proj2 (Z.leb_le (timestamp a) (timestamp b))) by lia.
      unfold cluster_sorted. simpl.
      by rewrite (proj2 (Z.leb_gt _ _)) by lia.
Qed.

(** A day to the microsecond stays, one microsecond more splits; the input
    order does not matter. *)
Example boundary_stays :
  map (map match_id)
    (cluster_tournament_matches
       {| ign := None;
          data_matches := [raw_match "b" (t0 + day) 600 []; raw_match "a" t0 600 []] |})
  = [["a"; "b"]]%string.
Proof. reflexivity. Qed.

Example boundary_splits :
  map (map match_id)
    (cluster_tournament_matches
       {| ign := None;
          data_matches := [raw_match "b" (t0 + day + 1) 600 []; raw_match "a" t0 600 []] |})
  = [["a"]; ["b"]]%string.
Proof. reflexivity. Qed.

(** * Missing counters *)

Lemma copy_stats_absent (bag : gmap string StatEntry) keys p key :
  bag !! key = None →
  get (fold_left (copy_stat bag) keys p) key = get p key.
Proof.
  intros Hnone. revert p. induction keys as [|k keys IH]; intros p; simpl; [done|].
  rewrite IH. unfold copy_stat.
  destruct (bag !! k) as [e|] eqn:Hk; [|done].
  apply get_set_num_ne. congruence.
Qed.

Lemma add_per_10_other d keys p key :
  key ∉ map fst keys →
  get (fold_left (add_per_10 d) keys p) key = get p key.
Proof.
  revert p. induction keys as [|k keys IH]; intros p Hnot; simpl; [done|].
  rewrite IH.
  - unfold add_per_10. apply get_set_num_ne. intros <-. apply Hnot. simpl. by left.
  - intros Hin. apply Hnot. simpl. by right.
Qed.

(** The detailed path reads a counter that the stats bag lacks as 0. *)
Lemma build_player_info_absent d s key :
  default ∅ (seg_stats s) !! key = None →
  key ∉ map fst per_10_keys → key ≠ "accuracy"%string →
  key ≠ "kill_participation"%string →
  get (build_player_info d s) key = 0.
Proof.
  intros Hnone Hper Hacc Hkp. unfold build_player_info.
  rewrite !get_set_num_ne by done.
  destruct (decide (d = 0%Z)).
  - by rewrite copy_stats_absent.
  - by rewrite add_per_10_other, copy_stats_absent.
Qed.

(** The fallback path raises on each of the five counters it reads with
    [segment['stats'][key]['value']]. *)
Lemma fallback_info_absent s (bag : gmap string StatEntry) key :
  seg_stats s = Some bag →
  key ∈ ["kills"; "deaths"; "assists"; "kdaRatio"; "totalHeroDamage"]%string →
  bag !! key = None →
  ∃ e, fallback_info s = Raise e.
Proof.
  intros Hbag Hkey Hnone. unfold fallback_info, stat_value. rewrite Hbag.
  repeat (apply elem_of_cons in Hkey as [->|Hkey];
          [rewrite ?Hnone; simpl;
           repeat (match goal with
                   | |- context [bag !! ?k] =>
                       destruct (bag !! k) as [[[?|]]|]; simpl; eauto
                   end); eauto|]).
  by apply elem_of_nil in Hkey.
Qed.

(** Only [totalHeroHeal] is read with a default. *)
Lemma fallback_info_heal_absent s (bag : gmap string StatEntry) :
  seg_stats s = Some bag →
  (∀ key, key ∈ ["kills"; "deaths"; "assists"; "kdaRatio"; "totalHeroDamage"]%string →
          ∃ v, bag !! key = Some {| value := Some v |}) →
  bag !! "totalHeroHeal"%string = None →
  ∃ info, fallback_info s = Ok info ∧ get info "totalHeroHeal" = 0.
Proof.
  intros Hbag Hall Hheal. unfold fallback_info, stat_value, stat_value_or_0.
  rewrite Hbag, Hheal.
  destruct (Hall "kills"%string) as [v1 ->]; [by repeat constructor|].
  destruct (Hall "deaths"%string) as [v2 ->]; [by repeat constructor|].
  destruct (Hall "assists"%string) as [v3 ->]; [by repeat constructor|].
  destruct (Hall "kdaRatio"%string) as [v4 ->]; [by repeat constructor|].
  destruct (Hall "totalHeroDamage"%string) as [v5 ->]; [by repeat constructor|].
  simpl. eexists. split; [done|]. unfold get. simpl. by rewrite lookup_insert_eq.
Qed.

(** * The team check *)

Lemma match_player_team_Some player_ign r t :
  match_player_team player_ign r = Some t →
  ∃ s, s ∈ raw_segments r ∧ is_type "overview" s = true ∧
       has_handle player_ign s = true ∧ teamId s = Some t.
Proof.
  unfold match_player_team.
  destruct (List.find _ _) as [s|] eqn:Hfind; [|done].
  intros Ht. apply find_some in Hfind as [Hin [Hty Hh]%andb_prop].
  exists s. by rewrite list_elem_of_In.
Qed.

Lemma match_player_team_None player_ign r :
  (∀ s, s ∈ raw_segments r → is_type "overview" s = true →
        has_handle player_ign s = true → teamId s = None) →
  match_player_team player_ign r = None.
Proof.
  intros Hall. unfold match_player_team.
  destruct (List.find _ _) as [s|] eqn:Hfind; [|done].
  apply find_some in Hfind as [Hin [Hty Hh]%andb_prop].
  apply Hall; [by apply list_elem_of_In|done..].
Qed.

Lemma find_player_team_Some player_ign ms t :
  find_player_team player_ign ms = Some t →
  ∃ r s, r ∈ ms ∧ s ∈ raw_segments r ∧ is_type "overview" s = true ∧
         has_handle player_ign s = true ∧ teamId s = Some t.
Proof.
  induction ms as [|r ms IH]; simpl; [done|].
  destruct (match_player_team player_ign r) as [t'|] eqn:Hr.
  - intros [= ->]. apply match_player_team_Some in Hr as (s & ? & ? & ? & ?).
    exists r, s. split_and!; [by left|done..].
  - intros (r' & s & ? & ?)%IH. exists r', s. split; [by right|done].
Qed.

(** A match whose inner loop gives a team id makes the scan succeed. *)
Lemma find_player_team_first player_ign ms r t :
  r ∈ ms → match_player_team player_ign r = Some t →
  ∃ t', find_player_team player_ign ms = Some t'.
Proof.
  induction ms as [|r0 ms IH]; [by intros ?%elem_of_nil|].
  intros Hr Ht. simpl.
  destruct (match_player_team player_ign r0) as [t0|] eqn:Hr0; [eauto|].
  apply elem_of_cons in Hr as [->|Hr]; [congruence|]. by apply IH.
Qed.

Lemma find_player_team_None player_ign ms :
  (∀ r s, r ∈ ms → s ∈ raw_segments r → is_type "overview" s = true →
          has_handle player_ign s = true → teamId s = None) →
  find_player_team player_ign ms = None.
Proof.
  induction ms as [|r ms IH]; intros Hall; simpl; [done|].
  rewrite match_player_team_None.
  - apply IH. intros r' s Hr'. apply Hall. by right.
  - intros s. apply Hall. by left.
Qed.

(** * The two readings of the arithmetic *)

(** Without rounding the functions of [Rounded] are the exact ones: the
    two readings are one program. *)
Lemma rounded_extract_exact (match_data : DetailedMatch) (player_ign : option string) :
  Rounded.extract_player_stats id match_data player_ign
  = extract_player_stats match_data player_ign.
Proof. reflexivity. Qed.

Lemma rounded_update_exact mid duration_sec player stats :
  Rounded.update_player_stats id mid duration_sec player stats
  = update_player_stats mid duration_sec player stats.
Proof. reflexivity. Qed.

Lemma rounded_finalize_exact stats :
  Rounded.finalize_player_stats id stats = finalize_player_stats stats.
Proof. reflexivity. Qed.

Lemma rounded_run_exact {W} (lookup_detailed : W → string → W * option DetailedMatch)
    (data : Data) (w : W) :
  Rounded.analyze_tournaments id lookup_detailed data w
  = analyze_tournaments lookup_detailed data w.
Proof. reflexivity. Qed.

(** Integers up to [2^53] are floats: rounding leaves the counters of the
    feed, and their sums below that bound, as they are. *)
Lemma round_half_even_exact (n d q : Z) :
  (0 < d)%Z → n = (q * d)%Z → round_half_even n d = q.
Proof.
  intros Hd ->. unfold round_half_even.
  rewrite Z.mod_mul by lia. rewrite Z.div_mul by lia.
  replace (2 * 0)%Z with 0%Z by lia.
  by destruct (Z.compare_spec 0 d); try lia.
Qed.

Lemma floor_log2_int (z : Z) :
  (0 < z)%Z → floor_log2 z 1 = Z.log2 z.
Proof.
  intros Hz. unfold floor_log2, pow2_le. simpl (Z.log2 1). rewrite Z.sub_0_r.
  pose proof (Z.log2_nonneg z) as Hnn.
  rewrite (proj2 (Z.leb_le 0 _)) by done.
  destruct (Z.log2_spec z Hz) as [Hlow _].
  rewrite (proj2 (Z.leb_le _ _)) by lia. done.
Qed.

Lemma binary64_int (z : Z) :
  (Z.abs z <= 2 ^ 53)%Z → binary64 (Qc_of_Z z) = Qc_of_Z z.
Proof.
  intros Hz. unfold binary64.
  change (Qnum (Qc_of_Z z)) with z. change (Qden (Qc_of_Z z)) with 1%positive.
  cbv zeta.
  destruct (decide (z = 0%Z)) as [->|Hnz]; [apply Qc_is_canon; by vm_compute|].
  rewrite floor_log2_int by lia.
  assert (0 <= Z.log2 (Z.abs z) <= 53)%Z as Hlog.
  { split; [apply Z.log2_nonneg|].
    replace 53%Z with (Z.log2 (2 ^ 53)) by (by rewrite Z.log2_pow2).
    by apply Z.log2_le_mono. }
  rewrite Z.max_l by lia.
  destruct (Z.leb_spec 0 (Z.log2 (Z.abs z) - 52)) as [Hnn|Hneg].
  - f_equal.
    destruct (decide (Z.log2 (Z.abs z) = 52%Z)) as [H52|H52].
    + rewrite H52. change (2 ^ (52 - 52))%Z with 1%Z.
      rewrite (round_half_even_exact z (1 * 1) z) by lia. lia.
    + assert (Z.log2 (Z.abs z) = 53%Z) as H53 by lia. rewrite H53.
      assert (Z.abs z = 2 ^ 53)%Z as Habs.
      { destruct (Z.log2_spec (Z.abs z) ltac:(lia)) as [Hlow _].
        rewrite H53 in Hlow. lia. }
      change (2 ^ (53 - 52))%Z with 2%Z.
      assert (z = 2 ^ 53 ∨ z = - 2 ^ 53)%Z as [-> | ->] by lia; by vm_compute.
  - set (m := (- (Z.log2 (Z.abs z) - 52))%Z).
    assert (0 < 2 ^ m)%Z as Hpow by (apply Z.pow_pos_nonneg; lia).
    rewrite (round_half_even_exact (z * 2 ^ m) 1 (z * 2 ^ m)) by lia.
    apply Qc_is_canon. unfold Q2Qc, Qc_of_Z. cbn [this].
    rewrite (Qred_correct (z * 2 ^ m # Z.to_pos (2 ^ m))).
    unfold Qeq, inject_Z. cbn [Qnum Qden].
    rewrite Z2Pos.id by done. lia.
Qed.

(** The rounding on a few values: a tenth, a third below zero, the first
    integers that are not floats, the smallest float and a tie below it. *)
Example binary64_values :
  binary64 (Q2Qc (1 # 10)) = Q2Qc (3602879701896397 # 36028797018963968) ∧
  binary64 (Q2Qc (-1 # 3)) = Q2Qc (-6004799503160661 # 18014398509481984) ∧
  binary64 (Qc_of_Z (2 ^ 53)) = Qc_of_Z (2 ^ 53) ∧
  binary64 (Qc_of_Z (2 ^ 53 + 1)) = Qc_of_Z (2 ^ 53) ∧
  binary64 (Qc_of_Z (2 ^ 53 + 3)) = Qc_of_Z (2 ^ 53 + 4) ∧
  binary64 (Q2Qc (1 # (2 ^ 1074))) = Q2Qc (1 # (2 ^ 1074)) ∧
  binary64 (Q2Qc (1 # (2 ^ 1075))) = 0 ∧
  binary64 (Q2Qc (3 # (2 ^ 1075))) = Q2Qc (1 # (2 ^ 1073)) ∧
  binary64 0 = 0.
Proof.
  split_and!; vm_compute;
    repeat (first [reflexivity | apply Qc_is_canon; reflexivity | f_equal]).
Qed.

(** * The claims on the extractor *)

Ltac qc_eq :=
  vm_compute;
  repeat (first [reflexivity | apply Qc_is_canon; reflexivity | f_equal]).

(** C1, on the failing input.  A stat missing from the stats bag of an
    overview segment is fatal in the fallback extraction: without [kills]
    the run ends in [KeyError], after the lookup of the first match.  The
    same holds for [deaths], [assists], [kdaRatio] and [totalHeroDamage];
    only [totalHeroHeal] is read with the default 0, as the detailed path
    reads every counter. *)
Theorem fallback_missing_stat_raises :
  fallback_info no_kills = Raise (KeyError "kills") ∧
  analyze_tournaments no_detail sparse [] = (["m1"%string], Raise (KeyError "kills")) ∧
  (∀ s (bag : gmap string StatEntry) key,
     seg_stats s = Some bag →
     key ∈ ["kills"; "deaths"; "assists"; "kdaRatio"; "totalHeroDamage"]%string →
     bag !! key = None → ∃ e, fallback_info s = Raise e) ∧
  (∀ d s, default ∅ (seg_stats s) !! "kills"%string = None →
          get (build_player_info d s) "kills" = 0).
Proof.
  split_and!.
  - reflexivity.
  - reflexivity.
  - apply fallback_info_absent.
  - intros d s Hnone. apply build_player_info_absent; try done.
    intros Hin. simpl in Hin.
    repeat (apply elem_of_cons in Hin as [Hin|Hin]; [done|]).
    by apply elem_of_nil in Hin.
Qed.


(** C9, as amended.  Kill participation is not capped at 100: in each
    group whose kills sum to K > 0, with assists summing to A, the
    participations sum to 100 * (K + A) / K, more than 100 as soon as
    A > 0 (the formula in exact arithmetic); and a single player with 5
    kills and 6 assists in a group with 10 kills has, as the machine
    computes it, 110.00000000000001: the float next above 110. *)
Theorem kill_participation_unbounded (match_data : DetailedMatch) (player_ign : option string) :
  participation_total (fst (extract_player_stats match_data player_ign)) ∧
  participation_total (snd (extract_player_stats match_data player_ign)) ∧
  map (λ p, get p "kill_participation")
    (fst (Rounded.extract_player_stats binary64 duo (Some "A"%string)))
  = [float_110_00000000000001; Qc_of_Z 50] ∧
  float_110_00000000000001
  = binary64 (binary64 (binary64 (Qc_of_Z 5 + Qc_of_Z 6) / Qc_of_Z 10) * Qc_of_Z 100) ∧
  binary64 (Q2Qc (11000000000000001 # 100000000000000)) = float_110_00000000000001 ∧
  float_110_00000000000001 - Qc_of_Z 110 = Q2Qc (1 # (2 ^ 46)) ∧
  Qc_of_Z 100 < float_110_00000000000001.
Proof.
  split_and!.
  - apply backfill_total.
  - apply backfill_total.
  - qc_eq.
  - qc_eq.
  - qc_eq.
  - qc_eq.
  - by vm_compute.
Qed.

(** C9, the claim as stated fails: for kills 5 and assists 6 in a group
    with kill sum 10 the source computes ((5 + 6) / 10) * 100 in binary64,
    and the result is above 110.0. *)
Lemma kill_participation_unbounded_counterexample :
  map (λ p, get p "kill_participation")
    (fst (Rounded.extract_player_stats binary64 duo (Some "A"%string)))
  = [float_110_00000000000001; Qc_of_Z 50] ∧
  Qc_of_Z 110 < float_110_00000000000001 ∧
  binary64 (Qc_of_Z 110) < float_110_00000000000001.
Proof. split_and!; [qc_eq|by vm_compute|by vm_compute]. Qed.

(** * The claims on the engine *)

Lemma repeated_sorted (t : Z) (l : list Z) :
  Forall (λ x, x = t) l → StronglySorted Z.le l.
Proof.
  induction 1 as [|x l -> Hl IH]; constructor; [done|].
  eapply Forall_impl; [exact Hl|]. intros y ->. lia.
Qed.

Lemma appearances_cons n mi (mis : list MatchInfo) :
  appearances n (mi :: mis)
  = map (λ p, (mi, p)) (List.filter (named n) (mi_team_stats mi)) ++ appearances n mis.
Proof. done. Qed.

Lemma appearances_from n (mis : list MatchInfo) a :
  a ∈ appearances n mis → fst a ∈ mis.
Proof.
  induction mis as [|mi mis IH]; [by intros ?%elem_of_nil|].
  rewrite appearances_cons. intros [Ha|Ha]%elem_of_app.
  - apply list_elem_of_fmap in Ha as (p & -> & _). by left.
  - right. by apply IH.
Qed.

(** The appearances inherit the order of the matches. *)
Lemma appearances_sorted n (mis : list MatchInfo) :
  StronglySorted Z.le (map mi_timestamp mis) →
  StronglySorted Z.le (map (mi_timestamp ∘ fst) (appearances n mis)).
Proof.
  induction mis as [|mi mis IH]; [constructor|].
  simpl map at 1. intros [Hall Hrest]%StronglySorted_cons.
  rewrite appearances_cons, map_app. apply StronglySorted_app_2.
  - intros x1 x2 Hx1 Hx2.
    apply list_elem_of_fmap in Hx1 as (a1 & -> & Ha1).
    apply list_elem_of_fmap in Ha1 as (p & -> & _).
    apply list_elem_of_fmap in Hx2 as (a2 & -> & Ha2%appearances_from).
    rewrite Forall_forall in Hall. apply Hall, list_elem_of_fmap. eauto.
  - apply (repeated_sorted (mi_timestamp mi)), Forall_forall.
    intros x Hx. apply list_elem_of_fmap in Hx as (a & -> & Ha).
    by apply list_elem_of_fmap in Ha as (p & -> & _).
  - by apply IH.
Qed.

Lemma existsb_filter {A} (f : A → bool) (l : list A) :
  existsb f l = match List.filter f l with [] => false | _ :: _ => true end.
Proof. induction l as [|x l IH]; simpl; [done|]. by destruct (f x). Qed.

(** Where no match lists the player twice, an appearance is a match. *)
Lemma appearances_once n (mis : list MatchInfo) :
  Forall (λ mi, (length (List.filter (named n) (mi_team_stats mi)) <= 1)%nat) mis →
  map (mi_id ∘ fst) (appearances n mis)
  = map mi_id (List.filter (λ mi, existsb (named n) (mi_team_stats mi)) mis).
Proof.
  induction 1 as [|mi mis Hmi Hmis IH]; [done|].
  rewrite appearances_cons, map_app, IH. simpl. rewrite existsb_filter.
  destruct (List.filter (named n) (mi_team_stats mi)) as [|p [|q l]]; simpl in *;
    [done..|lia].
Qed.

Lemma timestamps_sorted (c : list Match) :
  StronglySorted ts_le c → StronglySorted Z.le (map timestamp c).
Proof. induction 1; simpl; constructor; [done|]. by apply Forall_fmap. Qed.

Section Claims.

Context {W : Type}.
Variable lookup_detailed : W → string → W * option DetailedMatch.

(** C5, as amended.  The run raises [ValueError] when no match gives the
    reference player's team, which is the case when no overview segment of
    the player carries a team id; the check comes first: the world is left
    as it was, no lookup was made and no aggregate exists.  The scan finds
    a team id when, in some match, the first overview segment of the
    player has one (a later segment of the match is not consulted); the id
    found is the one of an overview segment of the player, the run then
    goes on to the clusters and does not raise [ValueError]. *)
Theorem team_precondition (data : Data) (w : W) :
  (find_player_team (ign data) (data_matches data) = None →
   analyze_tournaments lookup_detailed data w
   = (w, Raise (ValueError "Player team could not be identified."))) ∧
  ((∀ r s, r ∈ data_matches data → s ∈ raw_segments r →
           is_type "overview" s = true → has_handle (ign data) s = true →
           teamId s = None) →
   analyze_tournaments lookup_detailed data w
   = (w, Raise (ValueError "Player team could not be identified."))) ∧
  (∀ r t, r ∈ data_matches data → match_player_team (ign data) r = Some t →
          ∃ t', find_player_team (ign data) (data_matches data) = Some t') ∧
  (∀ t, find_player_team (ign data) (data_matches data) = Some t →
     (∃ r s, r ∈ data_matches data ∧ s ∈ raw_segments r ∧
             is_type "overview" s = true ∧ has_handle (ign data) s = true ∧
             teamId s = Some t) ∧
     analyze_tournaments lookup_detailed data w
     = analyze_clusters lookup_detailed (ign data) t w 0
         (cluster_tournament_matches data) [] ∧
     ∀ msg, snd (analyze_tournaments lookup_detailed data w) ≠ Raise (ValueError msg)).
Proof.
  unfold analyze_tournaments. split_and!.
  - by intros ->.
  - intros Hall. by rewrite find_player_team_None.
  - intros r t. apply find_player_team_first.
  - intros t Ht. rewrite Ht. split_and!.
    + by apply find_player_team_Some.
    + done.
    + intros msg. apply analyze_clusters_not_value_error.
Qed.

(** C7, as amended.  For every player of every aggregate of a successful
    run: [best_kda] is the maximum of 0 and the KDA ratios of the matches
    the player was folded in with, it moves only when a match has a
    strictly greater KDA and so never decreases; when it is positive,
    [best_hero] is the hero of the first match that reached it, and when
    it is 0, no match having a positive KDA, [best_hero] stays unset. *)
Theorem best_kda_running (data : Data) (w w' : W) (res : list TournamentInfo)
    (k : nat) (ti : TournamentInfo) (n : string) (stats : PlayerStats) :
  analyze_tournaments lookup_detailed data w = (w', Ok res) →
  res !! k = Some ti →
  ti_player_stats ti !! n = Some stats →
  best_kda_spec ti n stats.
Proof.
  intros Hrun Hk Hn.
  destruct (analyze_tournaments_cluster _ _ _ _ _ ti Hrun) as (c & _ & Hagg).
  { apply list_elem_of_lookup. eauto. }
  destruct (aggregate_player _ _ _ _ Hagg Hn) as [_ ->].
  unfold best_kda_spec.
  destruct (finalize_keeps (running (appearances n (ti_matches ti))))
    as (_ & _ & _ & -> & -> & _).
  split_and!.
  - apply running_best_kda.
  - apply running_best_hero.
  - done.
  - done.
  - intros pre a post _. rewrite running_snoc.
    destruct (update_best_kda (running pre) a) as [Hk' Hh].
    split_and!; [apply update_best_kda_mono|done..].
Qed.

(** C8, as amended.  For every player of every aggregate of a successful
    run, whatever the lookup of detailed records does: the log
    [match_performances] has [matches_played] snapshots, one per team-side
    row of the player and in the order of the matches of the tournament,
    which ascend by timestamp; that is one snapshot per match the player
    appeared in when no match lists the player twice on the team side. *)
Theorem performance_log (data : Data) (w w' : W) (res : list TournamentInfo)
    (k : nat) (ti : TournamentInfo) (n : string) (stats : PlayerStats) :
  analyze_tournaments lookup_detailed data w = (w', Ok res) →
  res !! k = Some ti →
  ti_player_stats ti !! n = Some stats →
  log_spec ti n stats.
Proof.
  intros Hrun Hk Hn.
  destruct (analyze_tournaments_cluster _ _ _ _ _ ti Hrun) as (c & Hc & Hagg).
  { apply list_elem_of_lookup. eauto. }
  destruct (aggregate_player _ _ _ _ Hagg Hn) as [_ ->].
  destruct Hagg as (_ & Hts & _).
  unfold log_spec.
  destruct (finalize_keeps (running (appearances n (ti_matches ti))))
    as (-> & _ & _ & _ & _ & ->).
  rewrite running_performances.
  destruct (running_counts (appearances n (ti_matches ti))) as (-> & _ & _).
  assert (StronglySorted Z.le (map mi_timestamp (ti_matches ti))) as Hsorted.
  { rewrite Hts. apply timestamps_sorted.
    pose proof (clusters_each_sorted data) as Heach.
    rewrite Forall_forall in Heach. by apply Heach. }
  assert (map perf_match_id
            (map (λ a, performance_of (mi_id a.1) (mi_duration_seconds a.1) a.2)
               (appearances n (ti_matches ti)))
          = map (mi_id ∘ fst) (appearances n (ti_matches ti))) as Hids.
  { rewrite map_map. done. }
  split_and!.
  - by rewrite length_map.
  - done.
  - done.
  - by apply appearances_sorted.
  - intros Honce. by rewrite Hids, appearances_once.
Qed.


End Claims.

(** * The scenario *)

(** C2, as amended.  Three tournament-mode matches, two an hour apart and
    one thirty hours after the second, form two tournaments of sizes 2 and
    1.  In the first, the player who wins the first match (10/2/3, 600 s)
    and loses the second (4/6/1, 900 s) ends with 2 matches played, 1 win,
    1 loss, a win rate of 50, 7 kills per match, and 14 kills over 25
    minutes; the kills per 10 minutes are (14 / 25) * 10 as the machine
    computes it, 5.6000000000000005: the float next above the one nearest
    to 5.6, [3 / (5 * 2^50)] above 5.6 — on the fallback path and with
    detailed records alike. *)
Theorem end_to_end_scenario :
  map (map match_id) (cluster_tournament_matches scenario)
  = [["m1"; "m2"]; ["m3"]]%string ∧
  map length (cluster_tournament_matches scenario) = [2; 1]%nat ∧
  Forall (λ run : list string * result (list TournamentInfo),
            let st := stats_in run 0 "Ref" in
            matches_played <$> st = Some 2%Z ∧
            wins <$> st = Some 1%Z ∧
            losses <$> st = Some 1%Z ∧
            total_kills <$> st = Some (Qc_of_Z 14) ∧
            total_minutes <$> st = Some (Qc_of_Z 25) ∧
            (st ≫= λ s, derived s !! "win_rate"%string) = Some (Qc_of_Z 50) ∧
            (st ≫= λ s, derived s !! "avg_kills"%string) = Some (Qc_of_Z 7) ∧
            (st ≫= λ s, derived s !! "avg_kills_per_10"%string)
            = Some float_5_6000000000000005)
         [fallback_run64; detailed_run64] ∧
  float_5_6000000000000005
  = binary64 (binary64 (Qc_of_Z 14 / Qc_of_Z 25) * Qc_of_Z 10) ∧
  binary64 (Q2Qc (56000000000000005 # 10000000000000000))
  = float_5_6000000000000005 ∧
  float_5_6000000000000005 - Q2Qc (56 # 10) = Q2Qc (3 # (5 * 2 ^ 50)).
Proof.
  split_and!; [reflexivity..| |qc_eq|qc_eq|qc_eq].
  repeat (apply Forall_cons; split; [split_and!; qc_eq|]).
  by apply Forall_nil.
Qed.

(** C2, the claim as stated fails: the source computes (14 / 25) * 10 in
    binary64, and the result is above 5.6 and above the float nearest to
    5.6. *)
Lemma end_to_end_scenario_counterexample :
  (stats_in fallback_run64 0 "Ref" ≫= λ s, derived s !! "avg_kills_per_10"%string)
  = Some float_5_6000000000000005 ∧
  Q2Qc (56 # 10) < float_5_6000000000000005 ∧
  binary64 (Q2Qc (56 # 10)) < float_5_6000000000000005.
Proof. split_and!; [qc_eq|by vm_compute|by vm_compute]. Qed.

(** In exact arithmetic the kills per 10 minutes of the scenario are the
    5.6 of the formula. *)
Example exact_kills_per_10 :
  (stats_in fallback_run 0 "Ref" ≫= λ s, derived s !! "avg_kills_per_10"%string)
  = Some (Q2Qc (56 # 10)).
Proof. qc_eq. Qed.

(** C5, the claim as stated fails: an overview segment of the reference
    player carries a team id, and the run is aborted all the same, because
    an earlier overview segment of the player in the same match has none
    and ends the scan of the match. *)
Lemma team_precondition_counterexample :
  (∃ r s, r ∈ data_matches shadowed ∧ s ∈ raw_segments r ∧
          is_type "overview" s = true ∧ has_handle (ign shadowed) s = true ∧
          teamId s = Some 0%Z) ∧
  analyze_tournaments no_detail shadowed []
  = ([], Raise (ValueError "Player team could not be identified.")).
Proof.
  split; [|reflexivity].
  eexists _, (segment_of "overview" "Ref" 0 "win" "Hulk" (bag 10 2 3 6)).
  split_and!; [by left|by right; left|reflexivity..].
Qed.

(** C7, the claim as stated fails: the two matches of the player tie on
    the best KDA, which is 0, the first of them was played with Hulk, and
    no hero is recorded. *)
Lemma best_kda_running_counterexample :
  (map perf_kda ∘ match_performances <$> stats_in idle_run 0 "Ref")
  = Some [Qc_of_Z 0; Qc_of_Z 0] ∧
  (best_kda <$> stats_in idle_run 0 "Ref") = Some (Qc_of_Z 0) ∧
  (map perf_hero ∘ match_performances <$> stats_in idle_run 0 "Ref")
  = Some ["Hulk"; "Thor"]%string ∧
  (best_hero <$> stats_in idle_run 0 "Ref") = Some None.
Proof. split_and!; qc_eq. Qed.

(** C8, the claim as stated fails: with a detailed record that lists the
    player twice, the first tournament has two matches and the player's
    log three snapshots, two of them of the first match. *)
Lemma performance_log_counterexample :
  map (λ ti, map mi_id (ti_matches ti)) (results_of twice_run)
  = [["m1"; "m2"]; ["m3"]]%string ∧
  (map perf_match_id ∘ match_performances <$> stats_in twice_run 0 "Ref")
  = Some ["m1"; "m1"; "m2"]%string ∧
  (matches_played <$> stats_in twice_run 0 "Ref") = Some 3%Z.
Proof. split_and!; reflexivity. Qed.

(** The two first matches of the scenario tie on the best KDA: the hero of
    the earlier one stays. *)
Example tie_keeps_first_hero :
  (best_kda <$> stats_in fallback_run 0 "Ref") = Some (Qc_of_Z 6) ∧
  (best_hero <$> stats_in fallback_run 0 "Ref") = Some (Some "Hulk"%string) ∧
  (map perf_hero ∘ match_performances <$> stats_in fallback_run 0 "Ref")
  = Some ["Hulk"; "Thor"]%string.
Proof. split_and!; qc_eq. Qed.

(** The lookups of a run happen match by match, in chronological order. *)
Example lookups_in_order :
  fst fallback_run = ["m1"; "m2"; "m3"]%string.
Proof. reflexivity. Qed.

(** A run that ends well, a tournament that exists and a player that has
    an entry are what [results_of], [tournament_at] and [entry_of] name. *)
Lemma run_results {W} (run : W * result (list TournamentInfo)) :
  is_ok (snd run) = true → run = (fst run, Ok (results_of run)).
Proof. destruct run as [w [tis|e]]; [done|discriminate]. Qed.

Lemma tournament_at_lookup (tis : list TournamentInfo) (k : nat) :
  (k <? length tis)%nat = true → tis !! k = Some (tournament_at tis k).
Proof.
  intros Hk%Nat.ltb_lt. unfold tournament_at.
  by destruct (lookup_lt_is_Some_2 tis k Hk) as [ti ->].
Qed.

Lemma entry_of_lookup (ti : TournamentInfo) (n : string) :
  has_entry ti n = true → ti_player_stats ti !! n = Some (entry_of ti n).
Proof. unfold has_entry, entry_of. by destruct (_ !! n). Qed.

Lemma best_kda_running_witness :
  analyze_tournaments no_detail scenario []
  = (fst fallback_run, Ok (results_of fallback_run)) ∧
  results_of fallback_run !! 0%nat = Some (tournament_at (results_of fallback_run) 0) ∧
  ti_player_stats (tournament_at (results_of fallback_run) 0) !! "Ref"%string
  = Some (entry_of (tournament_at (results_of fallback_run) 0) "Ref") ∧
  best_kda_spec (tournament_at (results_of fallback_run) 0) "Ref"
    (entry_of (tournament_at (results_of fallback_run) 0) "Ref").
Proof.
  assert (analyze_tournaments no_detail scenario []
          = (fst fallback_run, Ok (results_of fallback_run))) as H1.
  { apply (run_results fallback_run). vm_compute. reflexivity. }
  assert (results_of fallback_run !! 0%nat
          = Some (tournament_at (results_of fallback_run) 0)) as H2.
  { apply tournament_at_lookup. vm_compute. reflexivity. }
  assert (ti_player_stats (tournament_at (results_of fallback_run) 0) !! "Ref"%string
          = Some (entry_of (tournament_at (results_of fallback_run) 0) "Ref")) as H3.
  { apply entry_of_lookup. vm_compute. reflexivity. }
  split; [exact H1|]. split; [exact H2|]. split; [exact H3|].
  exact (best_kda_running no_detail scenario [] _ _ 0%nat _ _ _ H1 H2 H3).
Defined.

Lemma performance_log_witness :
  analyze_tournaments with_detail scenario []
  = (fst detailed_run, Ok (results_of detailed_run)) ∧
  results_of detailed_run !! 0%nat = Some (tournament_at (results_of detailed_run) 0) ∧
  ti_player_stats (tournament_at (results_of detailed_run) 0) !! "Ref"%string
  = Some (entry_of (tournament_at (results_of detailed_run) 0) "Ref") ∧
  log_spec (tournament_at (results_of detailed_run) 0) "Ref"
    (entry_of (tournament_at (results_of detailed_run) 0) "Ref").
Proof.
  assert (analyze_tournaments with_detail scenario []
          = (fst detailed_run, Ok (results_of detailed_run))) as H1.
  { apply (run_results detailed_run). vm_compute. reflexivity. }
  assert (results_of detailed_run !! 0%nat
          = Some (tournament_at (results_of detailed_run) 0)) as H2.
  { apply tournament_at_lookup. vm_compute. reflexivity. }
  assert (ti_player_stats (tournament_at (results_of detailed_run) 0) !! "Ref"%string
          = Some (entry_of (tournament_at (results_of detailed_run) 0) "Ref")) as H3.
  { apply entry_of_lookup. vm_compute. reflexivity. }
  split; [exact H1|]. split; [exact H2|]. split; [exact H3|].
  exact (performance_log with_detail scenario [] _ _ 0%nat _ _ _ H1 H2 H3).
Defined.


(** * Further properties: the rate normaliser *)

Lemma minutes_positive (d : Z) : 0 < Qc_of_Z d / Qc_of_Z 60 ↔ (0 < d)%Z.
Proof.
  assert (0 < / Qc_of_Z 60) as H60 by (by apply Qcinv_pos).
  rewrite Z2Qc_inj_lt, Z2Qc_inj_0. unfold Qcdiv.
  rewrite (Qcmult_lt_mono_pos_r 0 (Qc_of_Z d) _ H60). by rewrite Qcmult_0_l.
Qed.

Lemma calculate_per_10_nonpos (v : Qc) (d : Z) :
  (d <= 0)%Z → calculate_per_10 v d = 0.
Proof.
  intros Hd. unfold calculate_per_10.
  rewrite decide_False; [done|]. rewrite minutes_positive. lia.
Qed.

(** X1. For a positive duration the rate is the value scaled to 600
    seconds, and scaling it back gives the value; for a zero or negative
    duration the rate is 0, whatever the value. *)
Theorem per_10_rate (v : Qc) (d : Z) :
  ((0 < d)%Z →
   calculate_per_10 v d = v * Qc_of_Z 600 / Qc_of_Z d ∧
   calculate_per_10 v d * Qc_of_Z d / Qc_of_Z 600 = v) ∧
  ((d <= 0)%Z → calculate_per_10 v d = 0).
Proof.
  unfold calculate_per_10. split; intros Hd.
  - rewrite decide_True by (by apply minutes_positive).
    assert (Qc_of_Z d ≠ 0) as Hd0.
    { rewrite <- Z2Qc_inj_0. intros ?%Z2Qc_inj. lia. }
    assert (Qc_of_Z 60 ≠ 0) as H60 by done.
    assert (Qc_of_Z 600 ≠ 0) as H600 by done.
    replace (Qc_of_Z 600) with (Qc_of_Z 60 * Qc_of_Z 10) in *
      by (by rewrite <- Z2Qc_inj_mul).
    assert (Qc_of_Z 10 ≠ 0) as H10 by done.
    split; by field.
  - unfold calculate_per_10 in *. by apply calculate_per_10_nonpos.
Qed.

(** * Further properties: durations as text *)

Lemma pad2_digits (z : Z) :
  (0 <= z < 100)%Z →
  pad2 z = String (digit (z `div` 10)) (String (digit (z `mod` 10)) "").
Proof.
  intros Hz.
  assert (forallb (λ z, bool_decide
                          (pad2 z = String (digit (z `div` 10))
                                      (String (digit (z `mod` 10)) "")))
            (seqZ 0 100) = true) as Hall by (vm_compute; reflexivity).
  rewrite forallb_forall in Hall. specialize (Hall z).
  rewrite bool_decide_eq_true in Hall. apply Hall.
  apply (proj1 (list_elem_of_In _ _)), elem_of_seqZ. lia.
Qed.

Lemma digit_inj (a b : Z) :
  (0 <= a < 10)%Z → (0 <= b < 10)%Z → digit a = digit b → a = b.
Proof.
  intros Ha Hb Heq. unfold digit in Heq.
  apply (f_equal nat_of_ascii) in Heq.
  rewrite !nat_ascii_embedding in Heq by lia. lia.
Qed.

(** X2. Under a hundred minutes a duration is rendered as five characters,
    two digits of minutes, a colon and two digits of seconds. *)
Theorem format_duration_digits (seconds : Z) :
  (0 <= seconds < 6000)%Z →
  format_duration seconds
  = String (digit (((seconds `div` 60) `div` 10)))
      (String (digit (((seconds `div` 60) `mod` 10)))
         (String ":"
            (String (digit (((seconds `mod` 60) `div` 10)))
               (String (digit (((seconds `mod` 60) `mod` 10))) "")))) ∧
  String.length (format_duration seconds) = 5%nat.
Proof.
  intros Hs. unfold format_duration.
  assert (0 <= seconds `div` 60 < 100)%Z as Hm.
  { split; [apply Z.div_pos; lia|apply Z.div_lt_upper_bound; lia]. }
  assert (0 <= seconds `mod` 60 < 100)%Z as Hsec.
  { pose proof (Z.mod_pos_bound seconds 60). lia. }
  rewrite !pad2_digits by done. done.
Qed.

Lemma format_duration_digits_witness :
  (0 <= 754 < 6000)%Z ∧
  format_duration 754
  = String (digit (((754 `div` 60) `div` 10)))
      (String (digit (((754 `div` 60) `mod` 10)))
         (String ":"
            (String (digit (((754 `mod` 60) `div` 10)))
               (String (digit (((754 `mod` 60) `mod` 10))) "")))) ∧
  String.length (format_duration 754) = 5%nat.
Proof.
  assert (0 <= 754 < 6000)%Z as H by lia.
  split; [exact H|]. exact (format_duration_digits 754 H).
Defined.

(** X3. Under a hundred minutes the rendering loses nothing: two
    durations with the same text are the same. *)
Theorem format_duration_inj (s1 s2 : Z) :
  (0 <= s1 < 6000)%Z → (0 <= s2 < 6000)%Z →
  format_duration s1 = format_duration s2 → s1 = s2.
Proof.
  intros H1 H2.
  assert (0 <= s1 `div` 60 < 100)%Z as Hm1.
  { split; [apply Z.div_pos; lia|apply Z.div_lt_upper_bound; lia]. }
  assert (0 <= s2 `div` 60 < 100)%Z as Hm2.
  { split; [apply Z.div_pos; lia|apply Z.div_lt_upper_bound; lia]. }
  pose proof (Z.mod_pos_bound s1 60) as Hs1.
  pose proof (Z.mod_pos_bound s2 60) as Hs2.
  unfold format_duration. rewrite !pad2_digits by lia.
  intros [= Ha Hb Hc Hd].
  assert (∀ z, (0 <= z < 100)%Z → (0 <= z `div` 10 < 10)%Z ∧ (0 <= z `mod` 10 < 10)%Z)
    as Hdig.
  { intros z Hz. split; [|apply Z.mod_pos_bound; lia].
    split; [apply Z.div_pos; lia|apply Z.div_lt_upper_bound; lia]. }
  apply digit_inj in Ha; [|apply Hdig; lia..].
  apply digit_inj in Hb; [|apply Hdig; lia..].
  apply digit_inj in Hc; [|apply Hdig; lia..].
  apply digit_inj in Hd; [|apply Hdig; lia..].
  rewrite (Z.div_mod s1 60), (Z.div_mod s2 60) by lia.
  rewrite (Z.div_mod (s1 `div` 60) 10), (Z.div_mod (s2 `div` 60) 10) by lia.
  rewrite (Z.div_mod (s1 `mod` 60) 10), (Z.div_mod (s2 `mod` 60) 10) by lia.
  rewrite Ha, Hb, Hc, Hd. done.
Qed.

Lemma format_duration_inj_witness :
  (0 <= 754 < 6000)%Z ∧ (0 <= 754 < 6000)%Z ∧
  format_duration 754 = format_duration 754 ∧ 754%Z = 754%Z.
Proof.
  assert (0 <= 754 < 6000)%Z as H by lia.
  assert (format_duration 754 = format_duration 754) as He by reflexivity.
  split; [exact H|]. split; [exact H|]. split; [exact He|].
  exact (format_duration_inj 754 754 H H He).
Defined.

(** Past a hundred minutes the minutes take a third digit, and a negative
    duration keeps the sign of the floored quotient. *)
Example format_duration_edges :
  format_duration 754 = "12:34"%string ∧ format_duration 0 = "00:00"%string ∧
  format_duration 6000 = "100:00"%string ∧ format_duration (-1) = "-1:59"%string.
Proof. by vm_compute. Qed.

(** * Further properties: the clustering is the only one *)

(** Inside a cluster the scan only appends. *)
Lemma scan_within (ts : list (list Match)) (cur c : list Match) :
  cur ≠ [] → gaps_within (cur ++ c) →
  fold_left cluster_step c (ts, cur) = (ts, cur ++ c).
Proof.
  revert cur. induction c as [|m c IH]; intros cur Hne Hgaps; simpl.
  - by rewrite app_nil_r.
  - destruct (last cur) as [prev|] eqn:Hlast; [|by apply last_None in Hlast].
    assert (timestamp m - timestamp prev <= day)%Z as Hgap.
    { apply (Hgaps (pred (length cur))).
      - rewrite lookup_app_l by (destruct cur; simpl in *; [done|lia]).
        by rewrite <- last_lookup.
      - rewrite lookup_app_r by lia.
        replace (S (pred (length cur)) - length cur)%nat with 0%nat; [done|].
        destruct cur; simpl in *; [done|lia]. }
    rewrite (proj2 (Z.leb_le _ _) Hgap).
    rewrite IH.
    + by rewrite <- app_assoc.
    + by destruct cur.
    + by rewrite <- app_assoc.
Qed.

(** A match more than a day after the open cluster closes it. *)
Lemma scan_next (ts : list (list Match)) (cur c : list Match) prev m :
  last cur = Some prev → (day < timestamp m - timestamp prev)%Z →
  gaps_within (m :: c) →
  fold_left cluster_step (m :: c) (ts, cur) = (ts ++ [cur], m :: c).
Proof.
  intros Hlast Hgap Hgaps. simpl. rewrite Hlast.
  rewrite (proj2 (Z.leb_gt _ _)) by lia.
  by rewrite (scan_within _ [m] c).
Qed.

Lemma scan_first (c : list Match) m :
  gaps_within (m :: c) → fold_left cluster_step (m :: c) ([], []) = ([], m :: c).
Proof. intros Hgaps. simpl. by rewrite (scan_within _ [m] c). Qed.

Lemma scan_valid (cs : list (list Match)) (c : list Match) :
  Forall (λ c, c ≠ []) (cs ++ [c]) → Forall gaps_within (cs ++ [c]) →
  gaps_between (cs ++ [c]) →
  fold_left cluster_step (concat (cs ++ [c])) ([], []) = (cs, c).
Proof.
  revert c. induction cs as [|c' cs IH] using rev_ind; intros c Hne Hin Hbetween.
  - simpl in *. rewrite app_nil_r.
    rewrite Forall_singleton in Hne. rewrite Forall_singleton in Hin.
    destruct c as [|m c]; [done|]. by apply scan_first.
  - rewrite concat_app, fold_left_app. simpl. rewrite app_nil_r.
    apply Forall_app in Hne as [Hne Hc]. apply Forall_app in Hin as [Hin Hcw].
    rewrite Forall_singleton in Hc. rewrite Forall_singleton in Hcw.
    rewrite IH; [|done..|].
    + destruct c as [|m c]; [done|].
      pose proof Hne as [_ Hc']%Forall_app. rewrite Forall_singleton in Hc'.
      destruct (last c') as [prev|] eqn:Hlast; [|by apply last_None in Hlast].
      apply (scan_next _ _ _ prev); [done| |done].
      apply (Hbetween (length cs) c' (m :: c)); [| |done..].
      * rewrite lookup_app_l by (rewrite length_app; simpl; lia).
        by rewrite lookup_app_r, Nat.sub_diag by lia.
      * rewrite lookup_app_r by (rewrite length_app; simpl; lia).
        rewrite length_app. simpl.
        by replace (S (length cs) - (length cs + 1))%nat with 0%nat by lia.
    + intros i c1 c2 a b H1 H2. apply (Hbetween i c1 c2 a b).
      * apply lookup_lt_Some in H2 as Hlt.
        by rewrite lookup_app_l by lia.
      * by rewrite lookup_app_l by (by eapply lookup_lt_Some).
Qed.

(** Clustering the concatenation of a valid clustering gives it back. *)
Lemma cluster_sorted_concat_valid (cs : list (list Match)) :
  Forall (λ c, c ≠ []) cs → Forall gaps_within cs → gaps_between cs →
  cluster_sorted (concat cs) = cs.
Proof.
  destruct cs as [|c cs _] using rev_ind; [done|].
  intros Hne Hin Hbetween. unfold cluster_sorted.
  rewrite scan_valid by done. simpl.
  apply Forall_app in Hne as [_ Hc]. rewrite Forall_singleton in Hc.
  by destruct c.
Qed.

(** X4. The clusters are determined by the two gap conditions: any way of
    cutting the sorted tournament matches into non-empty runs whose
    neighbours are at most a day apart, with more than a day between runs,
    is the one the clusterer returns. *)
Theorem cluster_unique (d : Data) (cs : list (list Match)) :
  concat cs = sort_by_timestamp (tournament_matches d) →
  Forall (λ c, c ≠ []) cs → Forall gaps_within cs → gaps_between cs →
  cs = cluster_tournament_matches d.
Proof.
  intros Hconcat Hne Hin Hbetween. unfold cluster_tournament_matches.
  rewrite <- Hconcat. symmetry. by apply cluster_sorted_concat_valid.
Qed.

Lemma cluster_unique_witness :
  concat scenario_clusters = sort_by_timestamp (tournament_matches scenario) ∧
  Forall (λ c, c ≠ []) scenario_clusters ∧
  Forall gaps_within scenario_clusters ∧
  gaps_between scenario_clusters ∧
  scenario_clusters = cluster_tournament_matches scenario.
Proof.
  assert (concat scenario_clusters = sort_by_timestamp (tournament_matches scenario))
    as H1 by reflexivity.
  assert (Forall (λ c : list Match, c ≠ []) scenario_clusters) as H2.
  { unfold scenario_clusters. simpl. by repeat constructor. }
  assert (Forall gaps_within scenario_clusters) as H3.
  { unfold scenario_clusters. simpl. repeat constructor.
    - intros [|[|i]] a b Ha Hb; simpl in *; simplify_eq. simpl. by vm_compute.
    - intros [|i] a b Ha Hb; simpl in *; simplify_eq. }
  assert (gaps_between scenario_clusters) as H4.
  { unfold scenario_clusters. simpl.
    intros [|[|i]] c1 c2 a b Hc1 Hc2 Ha Hb; simpl in *; simplify_eq.
    vm_compute in Ha. vm_compute in Hb. simplify_eq. by vm_compute. }
  split; [exact H1|]. split; [exact H2|]. split; [exact H3|]. split; [exact H4|].
  exact (cluster_unique scenario scenario_clusters H1 H2 H3 H4).
Defined.

(** * Further properties: the extractor *)

Section ExtractorRows.

Implicit Types (p : PlayerInfo) (s : Segment) (group : list PlayerInfo) (key : string).

Lemma filter_split_perm {A} (f : A → bool) (l : list A) :
  List.filter f l ++ List.filter (λ x, negb (f x)) l ≡ₚ l.
Proof.
  induction l as [|x l IH]; simpl; [done|].
  destruct (f x); simpl.
  - by rewrite IH.
  - rewrite <- Permutation_middle. by rewrite IH.
Qed.

Lemma filter_sublist {A} (f : A → bool) (l : list A) : List.filter f l `sublist_of` l.
Proof.
  induction l as [|x l IH]; simpl; [constructor|].
  destruct (f x); by constructor.
Qed.

Lemma fold_keeps_identity {K} (f : PlayerInfo → K → PlayerInfo) (keys : list K) p :
  (∀ q k, (p_name (f q k), p_team_id (f q k), p_result (f q k), p_heroes (f q k))
          = (p_name q, p_team_id q, p_result q, p_heroes q)) →
  (p_name (fold_left f keys p), p_team_id (fold_left f keys p),
   p_result (fold_left f keys p), p_heroes (fold_left f keys p))
  = (p_name p, p_team_id p, p_result p, p_heroes p).
Proof.
  intros Hf. revert p. induction keys as [|k keys IH]; intros p; simpl; [done|].
  by rewrite IH, Hf.
Qed.

(** The identity of a row is the identity of its segment. *)
Lemma build_player_info_identity d s :
  (p_name (build_player_info d s), p_team_id (build_player_info d s),
   p_result (build_player_info d s), p_heroes (build_player_info d s))
  = (platformUserHandle s, teamId s, seg_result s, heroes_or_unknown (seg_heroes s)).
Proof.
  unfold build_player_info. cbn [set_num p_name p_team_id p_result p_heroes].
  assert (∀ q k, (p_name (copy_stat (default ∅ (seg_stats s)) q k),
                  p_team_id (copy_stat (default ∅ (seg_stats s)) q k),
                  p_result (copy_stat (default ∅ (seg_stats s)) q k),
                  p_heroes (copy_stat (default ∅ (seg_stats s)) q k))
                 = (p_name q, p_team_id q, p_result q, p_heroes q)) as Hcopy.
  { intros q k. unfold copy_stat. by destruct (_ !! k). }
  destruct (decide (d = 0%Z)).
  - by rewrite (fold_keeps_identity _ stat_keys _ Hcopy).
  - rewrite (fold_keeps_identity (add_per_10 d)) by done.
    by rewrite (fold_keeps_identity _ stat_keys _ Hcopy).
Qed.

Lemma build_player_info_fields d s :
  p_name (build_player_info d s) = platformUserHandle s ∧
  p_team_id (build_player_info d s) = teamId s ∧
  p_result (build_player_info d s) = seg_result s ∧
  p_heroes (build_player_info d s) = heroes_or_unknown (seg_heroes s).
Proof.
  pose proof (build_player_info_identity d s) as H.
  split; [exact (f_equal (λ x, fst (fst (fst x))) H)|].
  split; [exact (f_equal (λ x, snd (fst (fst x))) H)|].
  split; [exact (f_equal (λ x, snd (fst x)) H)|].
  exact (f_equal snd H).
Qed.

Lemma copy_stats_get (bag : gmap string StatEntry) keys p key :
  key ∈ keys →
  get (fold_left (copy_stat bag) keys p) key
  = match bag !! key with
    | Some e => default 0 (value e)
    | None => get p key
    end.
Proof.
  induction keys as [|k keys IH] using rev_ind; [by intros ?%elem_of_nil|].
  intros Hin. rewrite fold_left_app. simpl.
  destruct (decide (k = key)) as [->|Hne].
  - unfold copy_stat. destruct (bag !! key) as [e|] eqn:Hkey.
    + apply get_set_num_eq.
    + by apply copy_stats_absent.
  - assert (key ∈ keys) as Hin'.
    { apply elem_of_app in Hin as [?|Hin]; [done|].
      apply list_elem_of_singleton in Hin. congruence. }
    unfold copy_stat at 1. destruct (bag !! k).
    + rewrite get_set_num_ne by done. by apply IH.
    + by apply IH.
Qed.

Lemma stat_keys_apart key :
  key ∈ stat_keys →
  (key ∉ map fst per_10_keys) ∧ key ≠ "accuracy"%string ∧
  key ≠ "kill_participation"%string.
Proof.
  assert (Forall (λ key, (key ∉ map fst per_10_keys) ∧ key ≠ "accuracy"%string ∧
                         key ≠ "kill_participation"%string) stat_keys) as Hall.
  { apply (bool_decide_unpack _). by vm_compute. }
  rewrite Forall_forall in Hall. apply Hall.
Qed.

(** A counter of the whitelist is the value of the stats bag, and 0 when
    the bag has no such key or the key no value. *)
Lemma build_player_info_counter d s key :
  key ∈ stat_keys →
  get (build_player_info d s) key
  = match default ∅ (seg_stats s) !! key with
    | Some e => default 0 (value e)
    | None => 0
    end.
Proof.
  intros Hin. destruct (stat_keys_apart key Hin) as (Hper & Hacc & Hkp).
  unfold build_player_info. rewrite !get_set_num_ne by done.
  destruct (decide (d = 0%Z)).
  - by rewrite copy_stats_get.
  - by rewrite add_per_10_other, copy_stats_get.
Qed.

Lemma backfill_Forall (P : PlayerInfo → Prop) group :
  (∀ p v, P p → P (set_num "kill_participation" v p)) →
  Forall P group → Forall P (backfill_kill_participation group).
Proof.
  intros Hset Hall. unfold backfill_kill_participation.
  destruct (decide _); [done|].
  apply Forall_fmap. eapply Forall_impl; [exact Hall|].
  intros p Hp. by apply Hset.
Qed.

Lemma backfill_identity {A} (f : PlayerInfo → A) group :
  (∀ p v, f (set_num "kill_participation" v p) = f p) →
  map f (backfill_kill_participation group) = map f group.
Proof.
  intros Hf. unfold backfill_kill_participation.
  destruct (decide _); [done|].
  rewrite map_map. apply map_ext. intros p. apply Hf.
Qed.

(** What holds of every row built from a player segment holds of both
    groups of the extractor. *)
Lemma extract_Forall (P : PlayerInfo → Prop) match_data player_ign :
  (∀ p v, P p → P (set_num "kill_participation" v p)) →
  (∀ s, s ∈ dm_segments match_data → is_type "player" s = true →
        P (build_player_info (default 0%Z (dm_duration match_data)) s)) →
  Forall P (fst (extract_player_stats match_data player_ign)
            ++ snd (extract_player_stats match_data player_ign)).
Proof.
  intros Hset Hbuild. unfold extract_player_stats. simpl.
  assert (Forall P (map (build_player_info (default 0%Z (dm_duration match_data)))
                      (List.filter (is_type "player") (dm_segments match_data))))
    as Hall.
  { apply Forall_fmap, Forall_forall. intros s Hs.
    apply list_elem_of_In, filter_In in Hs as [Hs Hty].
    apply Hbuild; [by apply list_elem_of_In|done]. }
  apply Forall_app. split; apply backfill_Forall; try done.
  - apply Forall_forall. intros p Hp.
    apply list_elem_of_In, filter_In in Hp as [Hp _].
    rewrite Forall_forall in Hall. by apply Hall, list_elem_of_In.
  - apply Forall_forall. intros p Hp.
    apply list_elem_of_In, filter_In in Hp as [Hp _].
    rewrite Forall_forall in Hall. by apply Hall, list_elem_of_In.
Qed.

End ExtractorRows.

(** X5. Every row that leaves the extractor, on either side, comes from a
    player segment of the record: it has the segment's handle, team id,
    result and heroes (["Unknown"] when the segment lists none), and each
    counter of the whitelist is the value in the segment's stats bag, read
    as 0 when the bag lacks the key or the key its value. *)
Theorem extract_rows (match_data : DetailedMatch) (player_ign : option string) :
  Forall (λ p, ∃ s, s ∈ dm_segments match_data ∧ is_type "player" s = true ∧
                    p_name p = platformUserHandle s ∧ p_team_id p = teamId s ∧
                    p_result p = seg_result s ∧
                    p_heroes p = heroes_or_unknown (seg_heroes s) ∧
                    ∀ key, key ∈ stat_keys →
                           get p key = match default ∅ (seg_stats s) !! key with
                                       | Some e => default 0 (value e)
                                       | None => 0
                                       end)
    (fst (extract_player_stats match_data player_ign)
     ++ snd (extract_player_stats match_data player_ign)).
Proof.
  apply extract_Forall.
  - intros p v (s & Hs & Hty & Hn & Ht & Hr & Hh & Hc).
    exists s. split; [exact Hs|]. split; [exact Hty|].
    split; [exact Hn|]. split; [exact Ht|]. split; [exact Hr|]. split; [exact Hh|].
    intros key Hkey. rewrite get_set_num_ne; [exact (Hc key Hkey)|].
    destruct (stat_keys_apart key Hkey) as (_ & _ & Hkp). congruence.
  - intros s Hs Hty. exists s.
    destruct (build_player_info_fields (default 0%Z (dm_duration match_data)) s)
      as (Hn & Ht & Hr & Hh).
    split; [exact Hs|]. split; [exact Hty|].
    split; [exact Hn|]. split; [exact Ht|]. split; [exact Hr|]. split; [exact Hh|].
    intros key Hkey. exact (build_player_info_counter _ s key Hkey).
Qed.

(** X6. The extractor drops no player segment and invents none: the
    handles of the two groups together are those of the player segments,
    each group keeps the order of the segments, and segments of any other
    type are left out. *)
Theorem extract_partition (match_data : DetailedMatch) (player_ign : option string) :
  let players := List.filter (is_type "player") (dm_segments match_data) in
  map p_name (fst (extract_player_stats match_data player_ign))
  ++ map p_name (snd (extract_player_stats match_data player_ign))
  ≡ₚ map platformUserHandle players ∧
  map p_name (fst (extract_player_stats match_data player_ign))
  `sublist_of` map platformUserHandle players ∧
  map p_name (snd (extract_player_stats match_data player_ign))
  `sublist_of` map platformUserHandle players ∧
  (length (fst (extract_player_stats match_data player_ign))
   + length (snd (extract_player_stats match_data player_ign)) = length players)%nat.
Proof.
  intros players. unfold extract_player_stats. cbn [fst snd].
  set (d := default 0%Z (dm_duration match_data)).
  set (main := find_main_team player_ign (dm_segments match_data)).
  fold players.
  rewrite !(backfill_identity p_name) by done.
  assert (map p_name (map (build_player_info d) players)
          = map platformUserHandle players) as Hnames.
  { rewrite map_map. apply map_ext. intros s.
    exact (proj1 (build_player_info_fields d s)). }
  rewrite <- Hnames.
  pose proof (filter_split_perm (on_main_team main) (map (build_player_info d) players))
    as Hperm.
  split_and!.
  - rewrite <- map_app. by apply Permutation_map.
  - apply (fmap_sublist p_name), filter_sublist.
  - apply (fmap_sublist p_name), filter_sublist.
  - assert (∀ g, length (backfill_kill_participation g) = length g) as Hlen.
    { intros g. rewrite <- (length_map p_name), (backfill_identity p_name) by done.
      by rewrite length_map. }
    rewrite !Hlen, <- length_app, Hperm. by rewrite length_map.
Qed.

Lemma backfill_elem (group : list PlayerInfo) (p : PlayerInfo) :
  p ∈ group →
  ∃ q, q ∈ backfill_kill_participation group ∧ p_name q = p_name p.
Proof.
  intros Hp. unfold backfill_kill_participation.
  destruct (decide _); [by exists p|].
  eexists. split; [apply list_elem_of_fmap; eexists; split; [reflexivity|exact Hp]|].
  reflexivity.
Qed.

Lemma find_main_team_Some player_ign (segs : list Segment) t :
  find_main_team player_ign segs = Some t →
  ∃ s, s ∈ segs ∧ is_type "player" s = true ∧ has_handle player_ign s = true ∧
       teamId s = Some t.
Proof.
  unfold find_main_team.
  destruct (List.find _ _) as [s|] eqn:Hfind; [|done].
  intros Ht. apply find_some in Hfind as [Hin [Hty Hh]%andb_prop].
  exists s. split; [by apply list_elem_of_In|done].
Qed.

(** X7. When the record has no player segment of the reference player, or
    the first one has no team id, the team group is empty and every
    player is an opponent.  Otherwise the team group is made of the rows
    with the reference player's team id, the reference player among them,
    and the opponent group of all the others. *)
Theorem extract_sides (match_data : DetailedMatch) (player_ign : option string) :
  (find_main_team player_ign (dm_segments match_data) = None →
   fst (extract_player_stats match_data player_ign) = []) ∧
  ((∀ s, s ∈ dm_segments match_data → is_type "player" s = true →
         has_handle player_ign s = true → teamId s = None) →
   fst (extract_player_stats match_data player_ign) = []) ∧
  (∀ t, find_main_team player_ign (dm_segments match_data) = Some t →
        Forall (λ p, p_team_id p = Some t)
          (fst (extract_player_stats match_data player_ign)) ∧
        Forall (λ p, p_team_id p ≠ Some t)
          (snd (extract_player_stats match_data player_ign)) ∧
        ∃ p, p ∈ fst (extract_player_stats match_data player_ign) ∧
             Some (p_name p) = player_ign).
Proof.
  unfold extract_player_stats. cbn [fst snd].
  set (d := default 0%Z (dm_duration match_data)).
  set (infos := map (build_player_info d)
                  (List.filter (is_type "player") (dm_segments match_data))).
  assert (find_main_team player_ign (dm_segments match_data) = None →
          backfill_kill_participation (List.filter (on_main_team None) infos) = [])
    as Hnone.
  { intros _. assert (List.filter (on_main_team None) infos = []) as ->; [|done].
    clear. induction infos as [|p l IH]; [done|exact IH]. }
  split; [|split].
  - intros Hmain. rewrite Hmain. by apply Hnone.
  - intros Hall.
    destruct (find_main_team player_ign (dm_segments match_data)) as [t|] eqn:Hmain;
      [|by apply Hnone].
    apply find_main_team_Some in Hmain as (s & Hs & Hty & Hh & Ht).
    rewrite (Hall s Hs Hty Hh) in Ht. discriminate.
  - intros t Hmain. rewrite Hmain. split; [|split].
    + apply backfill_Forall; [done|]. apply Forall_forall. intros p Hp.
      apply list_elem_of_In, filter_In in Hp as [_ Hp].
      by apply bool_decide_eq_true_1 in Hp.
    + apply backfill_Forall; [done|]. apply Forall_forall. intros p Hp.
      apply list_elem_of_In, filter_In in Hp as [_ Hp].
      apply negb_true_iff in Hp. by apply bool_decide_eq_false_1 in Hp.
    + apply find_main_team_Some in Hmain as (s & Hs & Hty & Hh & Ht).
      destruct (build_player_info_fields d s) as (Hn & Hid & _ & _).
      destruct (backfill_elem (List.filter (on_main_team (Some t)) infos)
                  (build_player_info d s)) as (q & Hq & Hqn).
      { apply list_elem_of_In, filter_In. split.
        - apply list_elem_of_In, list_elem_of_fmap. exists s. split; [done|].
          apply list_elem_of_In, filter_In. split; [by apply list_elem_of_In|done].
        - unfold on_main_team. apply bool_decide_eq_true_2. congruence. }
      exists q. split; [exact Hq|]. rewrite Hqn, Hn.
      by apply bool_decide_eq_true_1 in Hh.
Qed.


Lemma copy_stats_other (bag : gmap string StatEntry) keys p key :
  key ∉ keys → get (fold_left (copy_stat bag) keys p) key = get p key.
Proof.
  revert p. induction keys as [|k keys IH]; intros p Hnot; simpl; [done|].
  rewrite IH by (intros Hin; apply Hnot; by right).
  unfold copy_stat. destruct (bag !! k); [|done].
  apply get_set_num_ne. intros <-. apply Hnot. by left.
Qed.

Lemma add_per_10_get d (keys : list (string * string)) p kv :
  NoDup (map fst keys) → Forall (λ kv, snd kv ∉ map fst keys) keys → kv ∈ keys →
  get (fold_left (add_per_10 d) keys p) (fst kv)
  = calculate_per_10 (get p (snd kv)) d.
Proof.
  induction keys as [|k keys IH] using rev_ind; [by intros _ _ ?%elem_of_nil|].
  rewrite map_app. simpl. intros [Hnd [Hk _]]%NoDup_app Hall Hin.
  apply Forall_app in Hall as [Hall Hlast]. rewrite Forall_singleton in Hlast.
  rewrite fold_left_app. simpl. unfold add_per_10 at 1.
  apply elem_of_app in Hin as [Hin|Hin].
  - assert (fst k ≠ fst kv) as Hne.
    { intros Heq. apply (Hk (fst kv)).
      - apply list_elem_of_fmap. eauto.
      - rewrite Heq. by left. }
    rewrite get_set_num_ne by done. apply IH; [done| |done].
    eapply Forall_impl; [exact Hall|]. intros x Hx Hin'. apply Hx.
    apply elem_of_app. by left.
  - apply list_elem_of_singleton in Hin as ->. rewrite get_set_num_eq.
    f_equal. apply add_per_10_other. intros Hin. apply Hlast.
    apply elem_of_app. by left.
Qed.

Lemma per_10_keys_apart (kv : string * string) :
  kv ∈ per_10_keys →
  (fst kv ∉ stat_keys) ∧ (snd kv ∉ map fst per_10_keys) ∧
  fst kv ≠ "accuracy"%string ∧ fst kv ≠ "kill_participation"%string ∧
  snd kv ≠ "accuracy"%string ∧ snd kv ≠ "kill_participation"%string.
Proof.
  assert (Forall (λ kv : string * string,
                    (fst kv ∉ stat_keys) ∧ (snd kv ∉ map fst per_10_keys) ∧
                    fst kv ≠ "accuracy"%string ∧
                    fst kv ≠ "kill_participation"%string ∧
                    snd kv ≠ "accuracy"%string ∧
                    snd kv ≠ "kill_participation"%string) per_10_keys) as Hall.
  { apply (bool_decide_unpack _). by vm_compute. }
  rewrite Forall_forall in Hall. apply Hall.
Qed.

(** X9. In every row of the extractor each of the seven per-10 rates is
    the rate of its counter over the duration of the record; with a
    duration of 0 the rates are not written and read as 0, which is the
    rate over no time. *)
Theorem extract_rates (match_data : DetailedMatch) (player_ign : option string) :
  Forall (λ p, ∀ kv, kv ∈ per_10_keys →
                     get p (fst kv)
                     = calculate_per_10 (get p (snd kv))
                         (default 0%Z (dm_duration match_data)))
    (fst (extract_player_stats match_data player_ign)
     ++ snd (extract_player_stats match_data player_ign)).
Proof.
  apply extract_Forall.
  - intros p v Hp kv Hkv.
    destruct (per_10_keys_apart kv Hkv) as (_ & _ & _ & Hf & _ & Hs).
    rewrite !get_set_num_ne by done. by apply Hp.
  - intros s _ _ kv Hkv.
    destruct (per_10_keys_apart kv Hkv) as (Hstat & Hcnt & Hfa & Hfk & Hsa & Hsk).
    set (d := default 0%Z (dm_duration match_data)).
    unfold build_player_info. cbv zeta.
    rewrite !(get_set_num_ne "kill_participation") by done.
    rewrite !(get_set_num_ne "accuracy") by done.
    destruct (decide (d = 0%Z)) as [Hd|Hd].
    + rewrite Hd. rewrite (copy_stats_other _ _ _ (fst kv)) by done.
      by rewrite calculate_per_10_nonpos.
    + rewrite (add_per_10_other d per_10_keys _ (snd kv)) by done.
      apply add_per_10_get; [| |done].
      * apply (bool_decide_unpack _). by vm_compute.
      * apply Forall_forall. intros x Hx. by apply per_10_keys_apart.
Qed.

(** * Further properties: the fallback extraction *)

Lemma fallback_info_complete (s : Segment) :
  is_ok (fallback_info s) = complete_overview s.
Proof.
  unfold fallback_info, stat_value, stat_value_or_0, complete_overview.
  destruct (seg_stats s) as [bag|]; [|done]. simpl.
  destruct (bag !! "kills"%string) as [[[?|]]|]; simpl; [|done..].
  destruct (bag !! "deaths"%string) as [[[?|]]|]; simpl; [|done..].
  destruct (bag !! "assists"%string) as [[[?|]]|]; simpl; [|done..].
  destruct (bag !! "kdaRatio"%string) as [[[?|]]|]; simpl; [|done..].
  destruct (bag !! "totalHeroDamage"%string) as [[[?|]]|]; simpl; [|done..].
  by destruct (bag !! "totalHeroHeal"%string).
Qed.

(** What the fallback makes of an overview segment. *)
Lemma fallback_info_Ok (s : Segment) (info : PlayerInfo) :
  fallback_info s = Ok info →
  p_name info = platformUserHandle s ∧ p_team_id info = teamId s ∧
  p_result info = seg_result s ∧ p_heroes info = heroes_or_unknown (seg_heroes s) ∧
  ∃ bag, seg_stats s = Some bag ∧
         (∀ key, key ∈ ["kills"; "deaths"; "assists"; "kdaRatio";
                        "totalHeroDamage"]%string →
                 bag !! key = Some {| value := Some (get info key) |}) ∧
         get info "totalHeroHeal"
         = match bag !! "totalHeroHeal"%string with
           | Some e => default 0 (value e)
           | None => 0
           end.
Proof.
  unfold fallback_info, stat_value, stat_value_or_0.
  destruct (seg_stats s) as [bag|]; [|done]. simpl.
  destruct (bag !! "kills"%string) as [[[v1|]]|] eqn:H1; simpl; [|done..].
  destruct (bag !! "deaths"%string) as [[[v2|]]|] eqn:H2; simpl; [|done..].
  destruct (bag !! "assists"%string) as [[[v3|]]|] eqn:H3; simpl; [|done..].
  destruct (bag !! "kdaRatio"%string) as [[[v4|]]|] eqn:H4; simpl; [|done..].
  destruct (bag !! "totalHeroDamage"%string) as [[[v5|]]|] eqn:H5; simpl; [|done..].
  intros Hinfo.
  assert (∃ heal, info = {| p_name := platformUserHandle s; p_team_id := teamId s;
                            p_result := seg_result s;
                            p_heroes := heroes_or_unknown (seg_heroes s);
                            p_is_mvp := false; p_is_svp := false;
                            p_num := <["totalHeroHeal"%string := heal]>
                                     (<["totalHeroDamage"%string := v5]>
                                     (<["kdaRatio"%string := v4]>
                                     (<["assists"%string := v3]>
                                     (<["deaths"%string := v2]>
                                     (<["kills"%string := v1]> ∅))))) |} ∧
                  heal = match bag !! "totalHeroHeal"%string with
                         | Some e => default 0 (value e)
                         | None => 0
                         end) as (heal & -> & Hheal).
  { destruct (bag !! "totalHeroHeal"%string); simpl in Hinfo;
      injection Hinfo as <-; eauto. }
  split_and!; [done..|]. exists bag. split_and!; [done| |].
  - intros key Hkey. unfold get. simpl.
    repeat (apply elem_of_cons in Hkey as [->|Hkey];
            [by repeat (rewrite lookup_insert_ne by done);
                rewrite ?lookup_insert_eq|]).
    by apply elem_of_nil in Hkey.
  - unfold get. simpl. by rewrite lookup_insert_eq.
Qed.

Lemma fallback_stats_acc player_team (segs : list Segment) team0 opp0 team opp :
  fallback_stats player_team segs team0 opp0 = Ok (team, opp) →
  ∃ team1 opp1,
    team = team0 ++ team1 ∧ opp = opp0 ++ opp1 ∧
    Forall (λ p, p_team_id p = Some player_team ∧
                 ∃ s, s ∈ segs ∧ is_type "overview" s = true ∧ fallback_info s = Ok p)
      team1 ∧
    Forall (λ p, p_team_id p ≠ Some player_team ∧
                 ∃ s, s ∈ segs ∧ is_type "overview" s = true ∧ fallback_info s = Ok p)
      opp1 ∧
    map p_name team1 ++ map p_name opp1
    ≡ₚ map platformUserHandle (List.filter (is_type "overview") segs).
Proof.
  revert team0 opp0.
  induction segs as [|s segs IH]; intros team0 opp0; simpl.
  - intros [= <- <-]. exists [], []. by rewrite !app_nil_r.
  - assert (∀ (P : PlayerInfo → Prop) l,
              Forall (λ p, P p ∧ ∃ s', s' ∈ segs ∧ is_type "overview" s' = true ∧
                                       fallback_info s' = Ok p) l →
              Forall (λ p, P p ∧ ∃ s', s' ∈ s :: segs ∧ is_type "overview" s' = true ∧
                                       fallback_info s' = Ok p) l) as Hweak.
    { intros P l Hl. eapply Forall_impl; [exact Hl|].
      intros p (HP & s' & Hs' & Hrest). split; [done|].
      exists s'. split; [by right|done]. }
    destruct (is_type "overview" s) eqn:Hty.
    + destruct (fallback_info s) as [info|e] eqn:Hinfo; simpl; [|done].
      destruct (fallback_info_Ok s info Hinfo) as (Hname & _).
      case_bool_decide as Hteam.
      * intros (team1 & opp1 & -> & -> & Ht & Ho & Hperm)%IH.
        exists (info :: team1), opp1. split_and!.
        -- by rewrite <- app_assoc.
        -- done.
        -- constructor; [|by apply Hweak].
           split; [done|]. exists s. split; [by left|done].
        -- by apply Hweak.
        -- simpl. by rewrite Hperm, Hname.
      * intros (team1 & opp1 & -> & -> & Ht & Ho & Hperm)%IH.
        exists team1, (info :: opp1). split_and!.
        -- done.
        -- by rewrite <- app_assoc.
        -- by apply Hweak.
        -- constructor; [|by apply Hweak].
           split; [done|]. exists s. split; [by left|done].
        -- simpl. rewrite <- Permutation_middle. by rewrite Hperm, Hname.
    + intros (team1 & opp1 & -> & -> & Ht & Ho & Hperm)%IH.
      exists team1, opp1. split_and!; [done|done|by apply Hweak..|done].
Qed.

Lemma fallback_stats_ok player_team (segs : list Segment) team0 opp0 :
  is_ok (fallback_stats player_team segs team0 opp0)
  = forallb (λ s, negb (is_type "overview" s) || complete_overview s) segs.
Proof.
  revert team0 opp0. induction segs as [|s segs IH]; intros team0 opp0; simpl; [done|].
  destruct (is_type "overview" s); simpl; [|apply IH].
  rewrite <- fallback_info_complete.
  destruct (fallback_info s) as [info|e]; simpl; [|done].
  case_bool_decide; apply IH.
Qed.

(** X10. When the fallback extraction of a match returns, the team group
    holds the overview segments with the reference team id and the
    opponent group all other overview segments; nothing is lost, segments
    of other types are ignored, and each row has its segment's handle,
    result, heroes and the five counters as the stats bag gives them, with
    [totalHeroHeal] read as 0 when it is missing. *)
Theorem fallback_sides (player_team : Z) (segs : list Segment)
    (team opp : list PlayerInfo) :
  fallback_stats player_team segs [] [] = Ok (team, opp) →
  Forall (λ p, p_team_id p = Some player_team) team ∧
  Forall (λ p, p_team_id p ≠ Some player_team) opp ∧
  map p_name team ++ map p_name opp
  ≡ₚ map platformUserHandle (List.filter (is_type "overview") segs) ∧
  Forall (λ p, ∃ s bag, s ∈ segs ∧ is_type "overview" s = true ∧
                        seg_stats s = Some bag ∧
                        p_name p = platformUserHandle s ∧ p_team_id p = teamId s ∧
                        p_result p = seg_result s ∧
                        p_heroes p = heroes_or_unknown (seg_heroes s) ∧
                        (∀ key, key ∈ ["kills"; "deaths"; "assists"; "kdaRatio";
                                       "totalHeroDamage"]%string →
                                bag !! key = Some {| value := Some (get p key) |}) ∧
                        get p "totalHeroHeal"
                        = match bag !! "totalHeroHeal"%string with
                          | Some e => default 0 (value e)
                          | None => 0
                          end)
    (team ++ opp).
Proof.
  intros (team1 & opp1 & -> & -> & Ht & Ho & Hperm)%fallback_stats_acc. simpl.
  split_and!.
  - eapply Forall_impl; [exact Ht|]. by intros p [? _].
  - eapply Forall_impl; [exact Ho|]. by intros p [? _].
  - done.
  - apply Forall_app. split.
    + eapply Forall_impl; [exact Ht|].
      intros p (_ & s & Hs & Hty & Hinfo).
      destruct (fallback_info_Ok s p Hinfo) as (? & ? & ? & ? & bag & ? & ? & ?).
      exists s, bag. by split_and!.
    + eapply Forall_impl; [exact Ho|].
      intros p (_ & s & Hs & Hty & Hinfo).
      destruct (fallback_info_Ok s p Hinfo) as (? & ? & ? & ? & bag & ? & ? & ?).
      exists s, bag. by split_and!.
Qed.

Lemma groups_of_ok (r : result (list PlayerInfo * list PlayerInfo)) :
  is_ok r = true → r = Ok (fst (groups_of r), snd (groups_of r)).
Proof. destruct r as [[team opp]|e]; [done|discriminate]. Qed.

Lemma fallback_sides_witness :
  fallback_stats 0 scenario_segments [] []
  = Ok (fst (groups_of (fallback_stats 0 scenario_segments [] [])),
        snd (groups_of (fallback_stats 0 scenario_segments [] []))) ∧
  Forall (λ p, p_team_id p = Some 0%Z)
    (fst (groups_of (fallback_stats 0 scenario_segments [] []))) ∧
  Forall (λ p, p_team_id p ≠ Some 0%Z)
    (snd (groups_of (fallback_stats 0 scenario_segments [] []))) ∧
  map p_name (fst (groups_of (fallback_stats 0 scenario_segments [] [])))
  ++ map p_name (snd (groups_of (fallback_stats 0 scenario_segments [] [])))
  ≡ₚ map platformUserHandle (List.filter (is_type "overview") scenario_segments) ∧
  Forall (λ p, ∃ s bag, s ∈ scenario_segments ∧ is_type "overview" s = true ∧
                        seg_stats s = Some bag ∧
                        p_name p = platformUserHandle s ∧ p_team_id p = teamId s ∧
                        p_result p = seg_result s ∧
                        p_heroes p = heroes_or_unknown (seg_heroes s) ∧
                        (∀ key, key ∈ ["kills"; "deaths"; "assists"; "kdaRatio";
                                       "totalHeroDamage"]%string →
                                bag !! key = Some {| value := Some (get p key) |}) ∧
                        get p "totalHeroHeal"
                        = match bag !! "totalHeroHeal"%string with
                          | Some e => default 0 (value e)
                          | None => 0
                          end)
    (fst (groups_of (fallback_stats 0 scenario_segments [] []))
     ++ snd (groups_of (fallback_stats 0 scenario_segments [] []))).
Proof.
  assert (fallback_stats 0 scenario_segments [] []
          = Ok (fst (groups_of (fallback_stats 0 scenario_segments [] [])),
                snd (groups_of (fallback_stats 0 scenario_segments [] [])))) as H.
  { apply groups_of_ok. vm_compute. reflexivity. }
  split; [exact H|].
  exact (fallback_sides 0 scenario_segments _ _ H).
Defined.

(** X11. The fallback extraction of a match returns exactly when every
    overview segment has a stats bag with a value for [kills], [deaths],
    [assists], [kdaRatio] and [totalHeroDamage]; one overview segment
    short of one of them makes it raise, whatever the other segments
    hold. *)
Theorem fallback_returns (player_team : Z) (segs : list Segment) :
  is_ok (fallback_stats player_team segs [] [])
  = forallb (λ s, negb (is_type "overview" s) || complete_overview s) segs.
Proof. apply fallback_stats_ok. Qed.

(** * Further properties: the run, match by match *)

Section RunFacts.

Context {W : Type}.
Variable lookup_detailed : W → string → W * option DetailedMatch.

Implicit Types (m : Match) (mi : MatchInfo) (ti : TournamentInfo) (n : string).

Lemma lookups_app (ms1 ms2 : list Match) (w : W) :
  lookups lookup_detailed (ms1 ++ ms2) w
  = lookups lookup_detailed ms2 (lookups lookup_detailed ms1 w).
Proof. unfold lookups. by rewrite fold_left_app. Qed.

(** The team group of the extractor has one team id. *)
Lemma extract_team_ids match_data player_ign :
  ∃ t, Forall (λ p, p_team_id p = Some t)
         (fst (extract_player_stats match_data player_ign)).
Proof.
  unfold extract_player_stats. cbn [fst].
  destruct (find_main_team player_ign (dm_segments match_data)) as [t|].
  - exists t. apply backfill_Forall; [done|]. apply Forall_forall. intros p Hp.
    apply list_elem_of_In, filter_In in Hp as [_ Hp].
    by apply bool_decide_eq_true_1 in Hp.
  - exists 0%Z.
    match goal with
    | |- context [List.filter (on_main_team None) ?l] =>
        assert (List.filter (on_main_team None) l = []) as ->
    end.
    { match goal with |- List.filter _ ?l = [] => generalize l end.
      intros l. induction l as [|p l IH]; [done|exact IH]. }
    constructor.
Qed.

Lemma resolve_stats_wf player_ign player_team m dm team opp :
  resolve_stats player_ign player_team m dm = Ok (team, opp) →
  Forall (λ p, p_heroes p ≠ []) (team ++ opp) ∧
  ∃ t, Forall (λ p, p_team_id p = Some t) team.
Proof.
  unfold resolve_stats. destruct dm as [d|].
  - intros Hex.
    pose proof (extract_Forall (λ p, p_heroes p ≠ []) d player_ign) as Hheroes.
    pose proof (extract_team_ids d player_ign) as Hids.
    replace team with (fst (extract_player_stats d player_ign))
      by (by injection Hex).
    replace opp with (snd (extract_player_stats d player_ign))
      by (by injection Hex).
    split; [|exact Hids].
    apply Hheroes; [done|]. intros s _ _. apply build_player_info_heroes.
  - intros (team1 & opp1 & -> & -> & Ht & Ho & _)%fallback_stats_acc. simpl. split.
    + apply Forall_app. split.
      * eapply Forall_impl; [exact Ht|]. intros p (_ & s & _ & _ & Hinfo).
        destruct (fallback_info_Ok s p Hinfo) as (_ & _ & _ & -> & _).
        by destruct (seg_heroes s).
      * eapply Forall_impl; [exact Ho|]. intros p (_ & s & _ & _ & Hinfo).
        destruct (fallback_info_Ok s p Hinfo) as (_ & _ & _ & -> & _).
        by destruct (seg_heroes s).
    + exists player_team. eapply Forall_impl; [exact Ht|]. by intros p [? _].
Qed.

Lemma process_match_entry player_ign player_team ti m dm ti' :
  process_match player_ign player_team ti m dm = Ok ti' →
  (ti_id ti', ti_start_date ti', ti_end_date ti', ti_match_count ti')
  = (ti_id ti, ti_start_date ti, ti_end_date ti, ti_match_count ti) ∧
  ∃ mi, ti_matches ti' = ti_matches ti ++ [mi] ∧ match_info_wf player_ign mi ∧
        mi_id mi = match_id m ∧ mi_duration_seconds mi = duration m.
Proof.
  unfold process_match.
  destruct (resolve_stats _ _ _ _) as [[team opp]|e] eqn:Hres; simpl; [|done].
  destruct (score_string _ _) as [score|e]; simpl; [|done].
  intros [= <-]. split; [done|]. eexists. split; [done|].
  destruct (resolve_stats_wf _ _ _ _ _ _ Hres) as [Hheroes Hids].
  unfold match_info_wf. by cbn.
Qed.

Lemma process_matches_entries player_ign player_team (ms : list Match) w ti w' ti' :
  process_matches lookup_detailed player_ign player_team w ti ms = (w', Ok ti') →
  (ti_id ti', ti_start_date ti', ti_end_date ti', ti_match_count ti')
  = (ti_id ti, ti_start_date ti, ti_end_date ti, ti_match_count ti) ∧
  w' = lookups lookup_detailed ms w ∧
  ∃ new, ti_matches ti' = ti_matches ti ++ new ∧ length new = length ms ∧
         Forall (match_info_wf player_ign) new.
Proof.
  revert w ti. induction ms as [|m ms IH]; intros w ti; simpl.
  - intros [= <- <-]. split_and!; [done..|]. exists []. by rewrite app_nil_r.
  - unfold lookups. simpl. fold (lookups lookup_detailed ms).
    destruct (lookup_detailed w (match_id m)) as [w1 dm]. simpl.
    destruct (process_match _ _ _ _ _) as [ti1|e] eqn:Hm; [|done].
    intros (Hhead & Hw & new & Hnew & Hlen & Hwf)%IH.
    apply process_match_entry in Hm as (Hhead1 & mi & Hmi & Hmwf & _).
    split_and!; [congruence|done|].
    exists (mi :: new). split_and!.
    + by rewrite Hnew, Hmi, <- app_assoc.
    + simpl. by rewrite Hlen.
    + by constructor.
Qed.

(** Whatever the outcome, the lookups made are those of a prefix of the
    matches, and of all of them when the matches were processed. *)
Lemma process_matches_trace player_ign player_team (ms : list Match) w ti :
  ∃ pre post, ms = pre ++ post ∧
    fst (process_matches lookup_detailed player_ign player_team w ti ms)
    = lookups lookup_detailed pre w ∧
    (is_ok (snd (process_matches lookup_detailed player_ign player_team w ti ms)) = true →
     post = []).
Proof.
  revert w ti. induction ms as [|m ms IH]; intros w ti; simpl.
  - by exists [], [].
  - destruct (lookup_detailed w (match_id m)) as [w1 dm] eqn:Hlook.
    destruct (process_match _ _ _ _ _) as [ti1|e].
    + destruct (IH w1 ti1) as (pre & post & -> & Hw & Hok).
      exists (m :: pre), post. split_and!; [done| |done].
      rewrite Hw. unfold lookups. simpl. by rewrite Hlook.
    + exists [m], ms. split_and!; [done| |done].
      unfold lookups. simpl. by rewrite Hlook.
Qed.

Lemma analyze_tournament_entry player_ign player_team w idx cluster w' ti :
  analyze_tournament lookup_detailed player_ign player_team w idx cluster = (w', Ok ti) →
  ∃ first final,
    head cluster = Some first ∧ last cluster = Some final ∧
    ti_id ti = (idx + 1)%Z ∧
    ti_start_date ti = timestamp first ∧ ti_end_date ti = timestamp final ∧
    ti_match_count ti = Z.of_nat (length cluster) ∧
    length (ti_matches ti) = length cluster ∧
    Forall (match_info_wf player_ign) (ti_matches ti) ∧
    w' = lookups lookup_detailed cluster w.
Proof.
  unfold analyze_tournament.
  destruct (head cluster) as [first|], (last cluster) as [final|]; try done.
  destruct (process_matches _ _ _ _ _ _) as [w1 [ti1|e]] eqn:Hrun; [|done].
  intros [= <- <-].
  apply process_matches_entries in Hrun as (Hhead & Hw & new & Hnew & Hlen & Hwf).
  injection Hhead as Hid Hstart Hend Hcount. simpl in Hnew. subst new.
  exists first, final. by split_and!.
Qed.

Lemma analyze_clusters_index player_ign player_team clusters w idx acc w' res :
  analyze_clusters lookup_detailed player_ign player_team w idx clusters acc
  = (w', Ok res) →
  w' = lookups lookup_detailed (concat clusters) w ∧
  ∃ new, res = acc ++ new ∧ length new = length clusters ∧
    ∀ k c ti, clusters !! k = Some c → new !! k = Some ti →
      ∃ w1 w2, analyze_tournament lookup_detailed player_ign player_team w1
                 (idx + Z.of_nat k) c = (w2, Ok ti).
Proof.
  revert w idx acc. induction clusters as [|c clusters IH]; intros w idx acc; simpl.
  - intros [= <- <-]. split; [done|]. exists []. rewrite app_nil_r.
    split_and!; [done..|]. intros k c ti Hk. by destruct k.
  - destruct (analyze_tournament _ _ _ _ _ _) as [w1 [ti|e]] eqn:Hti; [|done].
    intros (Hw & new & -> & Hlen & Hall)%IH.
    split.
    + rewrite lookups_app, Hw.
      by apply analyze_tournament_entry in Hti as (? & ? & _ & _ & _ & _ & _ & _ & _ & _ & ->).
    + exists (ti :: new). split_and!.
      * by rewrite <- app_assoc.
      * simpl. by rewrite Hlen.
      * intros [|k] c' ti' Hc Hti'; simpl in *.
        -- simplify_eq. exists w, w1. by rewrite Z.add_0_r.
        -- destruct (Hall k c' ti' Hc Hti') as (w2 & w3 & Hrun).
           exists w2, w3. rewrite <- Hrun. f_equal. lia.
Qed.

(** The aggregate at position [k] of a successful run is the one of the
    cluster at position [k], numbered [k + 1]. *)
Lemma analyze_tournaments_index data w w' res k ti :
  analyze_tournaments lookup_detailed data w = (w', Ok res) →
  res !! k = Some ti →
  ∃ player_team c w1 w2,
    find_player_team (ign data) (data_matches data) = Some player_team ∧
    cluster_tournament_matches data !! k = Some c ∧
    analyze_tournament lookup_detailed (ign data) player_team w1 (Z.of_nat k) c
    = (w2, Ok ti).
Proof.
  unfold analyze_tournaments.
  destruct (find_player_team _ _) as [t|] eqn:Hteam; [|done].
  intros (_ & new & -> & Hlen & Hall)%analyze_clusters_index Hk. simpl in Hk.
  assert (k < length (cluster_tournament_matches data))%nat as Hlt.
  { rewrite <- Hlen. by eapply lookup_lt_Some. }
  destruct (lookup_lt_is_Some_2 _ _ Hlt) as [c Hc].
  destruct (Hall k c ti Hc Hk) as (w1 & w2 & Hrun).
  exists t, c, w1, w2. by rewrite Z.add_0_l in Hrun.
Qed.

Lemma analyze_tournaments_length data w w' res :
  analyze_tournaments lookup_detailed data w = (w', Ok res) →
  length res = length (cluster_tournament_matches data) ∧
  w' = lookups lookup_detailed (sort_by_timestamp (tournament_matches data)) w.
Proof.
  unfold analyze_tournaments.
  destruct (find_player_team _ _) as [t|] eqn:Hteam; [|done].
  intros (Hw & new & -> & Hlen & _)%analyze_clusters_index. simpl. split; [done|].
  unfold cluster_tournament_matches in Hw. by rewrite cluster_sorted_concat in Hw.
Qed.

End RunFacts.

(** * Further properties: the aggregates of a run *)

Lemma sorted_head_last (c : list Match) a b :
  StronglySorted ts_le c → head c = Some a → last c = Some b →
  (timestamp a <= timestamp b)%Z.
Proof.
  intros Hs Ha Hb. destruct c as [|x c]; [done|]. simpl in Ha. simplify_eq.
  apply StronglySorted_cons in Hs as [Hall _].
  destruct c as [|y c]; [simpl in Hb; by simplify_eq|].
  rewrite Forall_forall in Hall. apply Hall.
  apply (list_elem_of_lookup_2 _ (pred (length (y :: c)))).
  rewrite <- last_lookup. by rewrite last_cons_cons in Hb.
Qed.

Lemma run_ok_fallback :
  analyze_tournaments no_detail scenario []
  = (fst fallback_run, Ok (results_of fallback_run)).
Proof. apply (run_results fallback_run). vm_compute. reflexivity. Qed.

Lemma run_ok_detailed :
  analyze_tournaments with_detail scenario []
  = (fst detailed_run, Ok (results_of detailed_run)).
Proof. apply (run_results detailed_run). vm_compute. reflexivity. Qed.

Section RunClaims.

Context {W : Type}.
Variable lookup_detailed : W → string → W * option DetailedMatch.

(** X12. In a successful run the [k]-th aggregate belongs to the [k]-th
    cluster: its id is [k + 1], its match count is the size of the cluster
    and the number of its match entries, and it runs from the timestamp of
    the first match of the cluster to that of the last, never backwards. *)
Theorem tournament_headers (data : Data) (w w' : W) (res : list TournamentInfo)
    (k : nat) (ti : TournamentInfo) :
  analyze_tournaments lookup_detailed data w = (w', Ok res) →
  res !! k = Some ti →
  length res = length (cluster_tournament_matches data) ∧
  ∃ c first final,
    cluster_tournament_matches data !! k = Some c ∧
    head c = Some first ∧ last c = Some final ∧
    ti_id ti = (Z.of_nat k + 1)%Z ∧
    ti_match_count ti = Z.of_nat (length c) ∧
    Z.of_nat (length (ti_matches ti)) = ti_match_count ti ∧
    ti_start_date ti = timestamp first ∧ ti_end_date ti = timestamp final ∧
    (ti_start_date ti <= ti_end_date ti)%Z.
Proof.
  intros Hrun Hk.
  destruct (analyze_tournaments_length _ _ _ _ _ Hrun) as [Hlen _].
  destruct (analyze_tournaments_index _ _ _ _ _ _ _ Hrun Hk)
    as (t & c & w1 & w2 & _ & Hc & Hti).
  apply analyze_tournament_entry in Hti
    as (first & final & Hf & Hl & Hid & Hs & He & Hcount & Hlenm & _ & _).
  split; [done|]. exists c, first, final.
  split_and!; try done.
  - by rewrite Hlenm, Hcount.
  - rewrite Hs, He. apply (sorted_head_last c); [|done..].
    pose proof (clusters_each_sorted data) as Heach.
    rewrite Forall_forall in Heach. apply Heach.
    apply list_elem_of_lookup. eauto.
Qed.

(** X13. Consecutive aggregates of a successful run are more than a day
    apart: the later one starts more than 24 hours after the earlier one
    ends. *)
Theorem tournaments_apart (data : Data) (w w' : W) (res : list TournamentInfo)
    (k : nat) (ti1 ti2 : TournamentInfo) :
  analyze_tournaments lookup_detailed data w = (w', Ok res) →
  res !! k = Some ti1 → res !! S k = Some ti2 →
  (day < ti_start_date ti2 - ti_end_date ti1)%Z.
Proof.
  intros Hrun Hk1 Hk2.
  destruct (analyze_tournaments_index _ _ _ _ _ _ _ Hrun Hk1)
    as (t & c1 & w1 & w2 & _ & Hc1 & Hti1).
  destruct (analyze_tournaments_index _ _ _ _ _ _ _ Hrun Hk2)
    as (t' & c2 & w3 & w4 & _ & Hc2 & Hti2).
  apply analyze_tournament_entry in Hti1
    as (f1 & l1 & _ & Hl1 & _ & _ & -> & _).
  apply analyze_tournament_entry in Hti2
    as (f2 & l2 & Hf2 & _ & _ & -> & _).
  destruct (cluster_sorted_props (sort_by_timestamp (tournament_matches data)))
    as (_ & _ & Hbetween).
  by apply (Hbetween k c1 c2 l1 f2).
Qed.

(** X14. Whatever the outcome of a run, the detailed records it asked for
    are those of the first tournament matches in chronological order, one
    lookup each; a run that returns has asked for all of them, and a run
    that fails the team check for none. *)
Theorem lookup_trace (data : Data) (w : W) :
  ∃ pre post,
    sort_by_timestamp (tournament_matches data) = pre ++ post ∧
    fst (analyze_tournaments lookup_detailed data w)
    = lookups lookup_detailed pre w ∧
    (is_ok (snd (analyze_tournaments lookup_detailed data w)) = true → post = []) ∧
    (find_player_team (ign data) (data_matches data) = None → pre = []).
Proof.
  unfold analyze_tournaments.
  destruct (find_player_team _ _) as [t|] eqn:Hteam.
  - assert (∀ clusters w idx acc,
              ∃ pre post, concat clusters = pre ++ post ∧
                fst (analyze_clusters lookup_detailed (ign data) t w idx clusters acc)
                = lookups lookup_detailed pre w ∧
                (is_ok (snd (analyze_clusters lookup_detailed (ign data) t w idx
                               clusters acc)) = true → post = [])) as Hclusters.
    { induction clusters as [|c clusters IH]; intros w0 idx acc; simpl.
      - by exists [], [].
      - unfold analyze_tournament.
        destruct (head c) as [first|] eqn:Hhead, (last c) as [final|] eqn:Hlast;
          try (destruct c; [|done]; exists [], (concat clusters); by split_and!).
        + match goal with
          | |- context [process_matches ?l ?i ?pt ?w1 ?ti0 ?ms] =>
              destruct (process_matches_trace l i pt ms w1 ti0)
                as (pre & post & Hc & Hw & Hok);
              destruct (process_matches l i pt w1 ti0 ms) as [w1' [ti1|e]]
          end; simpl in *.
          * rewrite (Hok eq_refl) in Hc. rewrite app_nil_r in Hc. subst pre.
            destruct (IH w1' (idx + 1)%Z (acc ++ [finalize_tournament ti1]))
              as (pre' & post' & Hcs & Hw' & Hok').
            exists (c ++ pre'), post'. split_and!.
            -- by rewrite Hcs, app_assoc.
            -- by rewrite lookups_app, <- Hw.
            -- done.
          * exists pre, (post ++ concat clusters). split_and!.
            -- by rewrite Hc, app_assoc.
            -- done.
            -- done.
        + by apply last_None in Hlast as ->. }
    destruct (Hclusters (cluster_tournament_matches data) w 0%Z [])
      as (pre & post & Hc & Hw & Hok).
    exists pre, post. split_and!; [|done..].
    rewrite <- Hc. unfold cluster_tournament_matches.
    by rewrite cluster_sorted_concat.
  - exists [], (sort_by_timestamp (tournament_matches data)). by split_and!.
Qed.

End RunClaims.

(** * Further properties: sums, averages and the keys of an entry *)

Section Sums.

Implicit Types (a : MatchInfo * PlayerInfo) (apps : list (MatchInfo * PlayerInfo)).
Implicit Types (stats : PlayerStats).


Lemma running_derived apps : derived (running apps) = ∅.
Proof.
  induction apps as [|a apps IH] using rev_ind; [done|].
  by rewrite running_snoc.
Qed.


Lemma finalize_table stats :
  (0 < matches_played stats)%Z →
  Forall (λ '(total, key, avg),
            derived (finalize_player_stats stats) !! avg
            = Some (total stats / Qc_of_Z (matches_played stats)) ∧
            total (finalize_player_stats stats) = total stats)
    totals_table ∧
  total_minutes (finalize_player_stats stats) = total_minutes stats ∧
  avg_kda (finalize_player_stats stats)
  = avg_kda stats / Qc_of_Z (matches_played stats).
Proof.
  intros Hpos. unfold finalize_player_stats. rewrite decide_True by done.
  cbn [derived total_minutes avg_kda]. split_and!; [|done..].
  unfold totals_table.
  destruct (decide (0 < total_minutes stats));
    repeat (apply Forall_cons; split);
    try (by apply Forall_nil);
    (split; [|done]);
    cbn [derived];
    repeat (rewrite lookup_insert_ne by done);
    by rewrite lookup_insert_eq.
Qed.

Lemma finalize_per_10 stats :
  (0 < matches_played stats)%Z → derived stats = ∅ →
  Forall (λ '(total, key),
            derived (finalize_player_stats stats) !! key
            = if decide (0 < total_minutes stats)
              then Some (total stats / total_minutes stats * Qc_of_Z 10)
              else None)
    per_10_table.
Proof.
  intros Hpos Hempty. unfold finalize_player_stats. rewrite decide_True by done.
  cbn [derived]. rewrite Hempty. unfold per_10_table.
  destruct (decide (0 < total_minutes stats));
    repeat (apply Forall_cons; split);
    try (by apply Forall_nil);
    repeat (rewrite lookup_insert_ne by done);
    by rewrite ?lookup_insert_eq, ?lookup_empty.
Qed.

End Sums.

Section EntryClaims.

Context {W : Type}.
Variable lookup_detailed : W → string → W * option DetailedMatch.

Lemma run_aggregate data w w' res k ti :
  analyze_tournaments lookup_detailed data w = (w', Ok res) → res !! k = Some ti →
  ∃ cluster, aggregate_of cluster ti.
Proof.
  intros Hrun Hk.
  destruct (analyze_tournaments_cluster _ _ _ _ _ ti Hrun) as (c & _ & Hagg).
  { apply list_elem_of_lookup. eauto. }
  eauto.
Qed.

Lemma run_entry data w w' res k ti n stats :
  analyze_tournaments lookup_detailed data w = (w', Ok res) → res !! k = Some ti →
  ti_player_stats ti !! n = Some stats →
  appearances n (ti_matches ti) ≠ [] ∧
  stats = finalize_player_stats (running (appearances n (ti_matches ti))) ∧
  (0 < matches_played (running (appearances n (ti_matches ti))))%Z.
Proof.
  intros Hrun Hk Hn. destruct (run_aggregate _ _ _ _ _ _ Hrun Hk) as [c Hagg].
  destruct (aggregate_player _ _ _ _ Hagg Hn) as [Hne ->].
  split_and!; [done..|].
  destruct (running_counts (appearances n (ti_matches ti))) as (-> & _).
  destruct (appearances n (ti_matches ti)); [done|simpl; lia].
Qed.

Lemma run_matches data w w' res k ti :
  analyze_tournaments lookup_detailed data w = (w', Ok res) → res !! k = Some ti →
  Forall (match_info_wf (ign data)) (ti_matches ti) ∧
  Z.of_nat (length (ti_matches ti)) = ti_match_count ti ∧ ti_matches ti ≠ [].
Proof.
  intros Hrun Hk.
  destruct (analyze_tournaments_index _ _ _ _ _ _ _ Hrun Hk)
    as (t & c & w1 & w2 & _ & Hc & Hti).
  apply analyze_tournament_entry in Hti
    as (first & final & Hf & _ & _ & _ & _ & Hcount & Hlen & Hwf & _).
  split_and!; [done|by rewrite Hlen, Hcount|].
  intros Hnil. rewrite Hnil in Hlen. by destruct c.
Qed.

Lemma appearances_nonempty n (mis : list MatchInfo) :
  appearances n mis ≠ [] ↔
  ∃ mi p, mi ∈ mis ∧ p ∈ mi_team_stats mi ∧ p_name p = n.
Proof.
  split.
  - intros Hne. destruct (appearances n mis) as [|[mi p] l] eqn:Happs; [done|].
    assert ((mi, p) ∈ appearances n mis) as Hin by (rewrite Happs; by left).
    exists mi, p. split; [by apply (appearances_from n mis (mi, p))|].
    clear Happs Hne. induction mis as [|mi' mis IH]; [by apply elem_of_nil in Hin|].
    rewrite appearances_cons in Hin. apply elem_of_app in Hin as [Hin|Hin].
    + apply list_elem_of_fmap in Hin as (q & [= -> ->] & Hq).
      apply list_elem_of_In, filter_In in Hq as [Hq Hn].
      split; [by apply list_elem_of_In|by apply bool_decide_eq_true_1 in Hn].
    + by apply IH.
  - intros (mi & p & Hmi & Hp & Hn) Hnil.
    assert ((mi, p) ∈ appearances n mis) as Hin; [|rewrite Hnil in Hin; by apply elem_of_nil in Hin].
    clear Hnil. induction mis as [|mi' mis IH]; [by apply elem_of_nil in Hmi|].
    rewrite appearances_cons. apply elem_of_app.
    apply elem_of_cons in Hmi as [->|Hmi]; [left|right; by apply IH].
    apply list_elem_of_fmap. exists p. split; [done|].
    apply list_elem_of_In, filter_In. split; [by apply list_elem_of_In|].
    by apply bool_decide_eq_true_2.
Qed.

(** X15. In an aggregate of a successful run a player has an entry exactly
    when the player is in the team group of one of its matches: opponents
    get none, and no entry is without a match. *)
Theorem entries_are_team_players (data : Data) (w w' : W) (res : list TournamentInfo)
    (k : nat) (ti : TournamentInfo) :
  analyze_tournaments lookup_detailed data w = (w', Ok res) →
  res !! k = Some ti →
  ∀ n, is_Some (ti_player_stats ti !! n) ↔
       ∃ mi p, mi ∈ ti_matches ti ∧ p ∈ mi_team_stats mi ∧ p_name p = n.
Proof.
  intros Hrun Hk n. destruct (run_aggregate _ _ _ _ _ _ Hrun Hk) as [c (_ & _ & Hps)].
  rewrite <- appearances_nonempty, Hps, fold_update_entry.
  destruct (appearances n (ti_matches ti)); simpl.
  - split; [by intros [? ?]|done].
  - split; [done|eauto].
Qed.



(** X18. Every entry of a successful run has the keys that the player
    report, the tournament report and the dashboard table read by
    subscript, so they raise no [KeyError] on it; and the per-10 averages
    that the player report reads under the guard on [avg_kills_per_10] are
    all there when that one is. *)
Theorem report_keys_present (data : Data) (w w' : W) (res : list TournamentInfo)
    (k : nat) (ti : TournamentInfo) (n : string) (stats : PlayerStats) :
  analyze_tournaments lookup_detailed data w = (w', Ok res) →
  res !! k = Some ti →
  ti_player_stats ti !! n = Some stats →
  keys_spec stats.
Proof.
  intros Hrun Hk Hn.
  destruct (run_entry _ _ _ _ _ _ _ _ Hrun Hk Hn) as (_ & -> & Hpos).
  set (apps := appearances n (ti_matches ti)) in *.
  pose proof (finalize_per_10 _ Hpos (running_derived apps)) as Hper.
  destruct (finalize_table _ Hpos) as (Hfin & _).
  pose proof (finalize_win_rate _ Hpos) as Hwin.
  unfold per_10_table, totals_table in *.
  rewrite !Forall_cons in Hper. rewrite !Forall_cons in Hfin.
  destruct Hper as (P1 & P2 & P3 & P4 & P5 & P6 & P7 & P8 & _).
  destruct Hfin as ([F1 _] & [F2 _] & [F3 _] & [F4 _] & [F5 _] & [F6 _] &
                    [F7 _] & [F8 _] & [F9 _] & [F10 _] & [F11 _] & _).
  unfold keys_spec, report_keys, per_10_average_keys. split.
  - repeat (apply Forall_cons; split); [..|by apply Forall_nil]; eauto.
  - destruct (decide (0 < total_minutes (running apps))); [left|right];
      repeat (apply Forall_cons; split); try (by apply Forall_nil); eauto.
Qed.

End EntryClaims.

(** * Further properties: the reports on a run *)

Lemma find_head_filter {A} (f : A → bool) (l : list A) :
  List.find f l = head (List.filter f l).
Proof. induction l as [|x l IH]; simpl; [done|]. by destruct (f x). Qed.

Lemma find_app_l {A} (f : A → bool) (l1 l2 : list A) x :
  List.find f l1 = Some x → List.find f (l1 ++ l2) = Some x.
Proof.
  induction l1 as [|y l1 IH]; simpl; [done|]. by destruct (f y).
Qed.

Lemma filter_all {A} (f : A → bool) (l : list A) :
  Forall (λ x, f x = true) l → List.filter f l = l.
Proof. induction 1 as [|x l Hx Hl IH]; simpl; [done|]. by rewrite Hx, IH. Qed.

Lemma appearances_elem n (mis : list MatchInfo) mi p :
  (mi, p) ∈ appearances n mis ↔ mi ∈ mis ∧ p ∈ mi_team_stats mi ∧ p_name p = n.
Proof.
  induction mis as [|mi' mis IH].
  - split; [by intros ?%elem_of_nil|by intros [?%elem_of_nil _]].
  - rewrite appearances_cons, elem_of_app, IH, elem_of_cons. split.
    + intros [Hin|(? & ? & ?)]; [|by auto].
      apply list_elem_of_fmap in Hin as (q & [= -> ->] & Hq).
      apply list_elem_of_In, filter_In in Hq as [Hq Hn].
      split_and!; [by left|by apply list_elem_of_In|].
      by apply bool_decide_eq_true_1 in Hn.
    + intros ([->|Hmi] & Hp & Hn); [left|by auto].
      apply list_elem_of_fmap. exists p. split; [done|].
      apply list_elem_of_In, filter_In. split; [by apply list_elem_of_In|].
      by apply bool_decide_eq_true_2.
Qed.

(** The result of a match is the one of the reference player's row when
    the team group lists the player once. *)
Lemma match_result_of_team n (team opp : list PlayerInfo) p :
  List.filter (named n) team = [p] →
  match_result_of (Some n) (team ++ opp) = p_result p.
Proof.
  intros Hp. unfold match_result_of.
  rewrite (find_app_l _ team opp p); [done|].
  rewrite find_head_filter.
  assert (List.filter (λ q, bool_decide (Some (p_name q) = Some n)) team
          = List.filter (named n) team) as ->; [|by rewrite Hp].
  apply filter_ext. intros q. unfold named.
  apply bool_decide_ext. split; [by intros [= ->]|by intros ->].
Qed.

Lemma once_counts n (mis : list MatchInfo) :
  Forall (match_info_wf (Some n)) mis →
  Forall (λ mi, length (List.filter (named n) (mi_team_stats mi)) = 1%nat) mis →
  length (appearances n mis) = length mis ∧
  length (List.filter won (appearances n mis))
  = length (List.filter (λ mi, bool_decide (mi_result mi = "win"%string)) mis).
Proof.
  induction 1 as [|mi mis Hwf _ IH]; intros Honce; [done|].
  apply Forall_cons in Honce as [Hmi Hrest]. destruct (IH Hrest) as [IHlen IHwon].
  rewrite appearances_cons.
  destruct (List.filter (named n) (mi_team_stats mi)) as [|p [|q l]] eqn:Hp;
    simpl in Hmi; try lia.
  destruct Hwf as (Hres & _). rewrite (match_result_of_team n _ _ p Hp) in Hres.
  simpl. rewrite IHlen. split; [done|].
  unfold won at 1. simpl. rewrite Hres.
  destruct (bool_decide (p_result p = "win"%string)); simpl; by rewrite IHwon.
Qed.

Lemma running_heroes (apps : list (MatchInfo * PlayerInfo)) h :
  h ∈ heroes_played (running apps) ↔ ∃ a, a ∈ apps ∧ h ∈ p_heroes (snd a).
Proof.
  induction apps as [|a apps IH] using rev_ind.
  - split; [by intros ?%elem_of_empty|by intros (? & ?%elem_of_nil & _)].
  - rewrite running_snoc. unfold update_appearance, update_player_stats.
    cbn [heroes_played]. rewrite elem_of_union, IH, elem_of_list_to_set. split.
    + intros [(b & Hb & Hh)|Hh].
      * exists b. split; [apply elem_of_app; by left|done].
      * exists a. split; [apply elem_of_app; right; by left|done].
    + intros (b & [Hb|Hb]%elem_of_app & Hh).
      * left. eauto.
      * apply list_elem_of_singleton in Hb as ->. by right.
Qed.

Lemma finalize_heroes (stats : PlayerStats) :
  heroes_played (finalize_player_stats stats) = heroes_played stats.
Proof. unfold finalize_player_stats. by destruct (decide _). Qed.

(** The set of teammates only grows along the matches. *)
Lemma teammates_fold player_ign (mis : list MatchInfo) (acc : gset string) n :
  n ∈ fold_left (add_teammates player_ign) mis acc ↔
  n ∈ acc ∨
  ∃ mi t, mi ∈ mis ∧ report_team_id player_ign (mi_team_stats mi) = Some t ∧
          ∃ q, q ∈ mi_team_stats mi ∧ p_team_id q = Some t ∧ p_name q = n.
Proof.
  revert acc. induction mis as [|mi mis IH]; intros acc; simpl.
  - split; [by left|]. intros [?|(? & ? & ?%elem_of_nil & _)]; done.
  - rewrite IH. unfold add_teammates at 1.
    destruct (report_team_id player_ign (mi_team_stats mi)) as [t|] eqn:Hid.
    + rewrite elem_of_union, elem_of_list_to_set, list_elem_of_fmap. split.
      * intros [[?|(q & -> & Hq)]|(mi' & t' & Hmi' & Hrest)].
        -- by left.
        -- right. exists mi, t. split; [by left|]. split; [done|].
           apply list_elem_of_In, filter_In in Hq as [Hq Ht].
           exists q. split_and!; [by apply list_elem_of_In| |done].
           by apply bool_decide_eq_true_1 in Ht.
        -- right. exists mi', t'. split; [by right|done].
      * intros [?|(mi' & t' & [->|Hmi']%elem_of_cons & Ht' & q & Hq & Hqt & Hqn)].
        -- left. by left.
        -- left. right. exists q. split; [done|].
           apply list_elem_of_In, filter_In. split; [by apply list_elem_of_In|].
           apply bool_decide_eq_true_2. congruence.
        -- right. exists mi', t'. split; [done|]. split; [done|]. eauto.
    + split.
      * intros [?|(mi' & t' & Hmi' & Hrest)]; [by left|].
        right. exists mi', t'. split; [by right|done].
      * intros [?|(mi' & t' & [->|Hmi']%elem_of_cons & Ht' & Hrest)]; [by left| |].
        -- congruence.
        -- right. exists mi', t'. eauto.
Qed.

Lemma report_team_id_Some player_ign (team : list PlayerInfo) t :
  report_team_id player_ign team = Some t →
  ∃ p, p ∈ team ∧ Some (p_name p) = player_ign ∧ p_team_id p = Some t.
Proof.
  unfold report_team_id.
  destruct (List.find _ team) as [p|] eqn:Hfind; [|done].
  intros Ht. apply find_some in Hfind as [Hin Hn].
  exists p. split_and!; [by apply list_elem_of_In| |done].
  by apply bool_decide_eq_true_1 in Hn.
Qed.

Lemma report_team_id_shared player_ign (team : list PlayerInfo) t p :
  Forall (λ q, p_team_id q = Some t) team → p ∈ team →
  Some (p_name p) = player_ign → report_team_id player_ign team = Some t.
Proof.
  intros Hall Hp Hn. unfold report_team_id.
  destruct (List.find _ team) as [q|] eqn:Hfind.
  - apply find_some in Hfind as [Hq _].
    rewrite Forall_forall in Hall. by apply Hall, list_elem_of_In.
  - rewrite find_none_iff in Hfind. specialize (Hfind p Hp).
    by apply bool_decide_eq_false_1 in Hfind.
Qed.

Lemma py_index_ok {A} (l : list A) (i : Z) : is_ok (py_index l i) = index_ok l i.
Proof.
  unfold py_index, index_ok.
  destruct (Z.ltb_spec i 0%Z) as [Hneg|Hpos].
  - destruct (Z.ltb_spec (Z.of_nat (length l) + i)%Z 0%Z) as [Hlow|Hin].
    + simpl. rewrite (proj2 (Z.leb_gt _ _)) by lia. done.
    + rewrite (proj2 (Z.leb_le _ _)) by lia. rewrite (proj2 (Z.ltb_lt _ _)) by lia.
      destruct (lookup_lt_is_Some_2 l (Z.to_nat (Z.of_nat (length l) + i))) as [x ->];
        [lia|done].
  - rewrite (proj2 (Z.ltb_ge i 0%Z)) by lia.
    rewrite (proj2 (Z.leb_le _ _)) by lia. simpl.
    destruct (Z.ltb_spec i (Z.of_nat (length l))) as [Hin|Hout].
    + destruct (lookup_lt_is_Some_2 l (Z.to_nat i)) as [x ->]; [lia|done].
    + rewrite (lookup_ge_None_2 l (Z.to_nat i)) by lia. done.
Qed.

Lemma py_index_raise {A} (l : list A) (i : Z) e :
  py_index l i = Raise e → e = IndexError.
Proof.
  unfold py_index. cbv zeta.
  destruct (_ <? 0)%Z; [congruence|].
  destruct (l !! _); congruence.
Qed.

Lemma score_string_ok player_team (m : Match) :
  is_ok (score_string player_team m)
  = match scores m with
    | [] => true
    | _ :: _ => index_ok (scores m) player_team
                && index_ok (scores m) (1 - player_team)%Z
    end.
Proof.
  unfold score_string. destruct (scores m) as [|a l] eqn:Hs; [done|].
  rewrite <- !py_index_ok.
  destruct (py_index (a :: l) player_team); simpl; [|done].
  by destruct (py_index (a :: l) (1 - player_team)%Z).
Qed.

(** X19. For a match with a pair of scores, the score string is
    ["own-other"] for the reference team 0 and ["other-own"] swapped for
    team 1; any other team id raises [IndexError], negative ones included,
    although a negative index alone would be accepted; and a match without
    scores gives ["N/A"] for every team id. *)
Theorem score_string_pair (player_team : Z) (m : Match) :
  (scores m = [] → score_string player_team m = Ok "N/A"%string) ∧
  (∀ a b, scores m = [a; b] →
     score_string player_team m
     = if decide (player_team = 0)%Z then Ok (pretty a +:+ "-" +:+ pretty b)%string
       else if decide (player_team = 1)%Z then Ok (pretty b +:+ "-" +:+ pretty a)%string
       else Raise IndexError) ∧
  is_ok (score_string player_team m)
  = match scores m with
    | [] => true
    | _ :: _ => index_ok (scores m) player_team
                && index_ok (scores m) (1 - player_team)%Z
    end.
Proof.
  split_and!; [| |apply score_string_ok].
  - intros Hs. unfold score_string. by rewrite Hs.
  - intros a b Hs. unfold score_string. rewrite Hs.
    destruct (decide (player_team = 0)%Z) as [->|H0]; [done|].
    destruct (decide (player_team = 1)%Z) as [->|H1]; [done|].
    pose proof (py_index_ok [a; b] player_team) as Ha.
    pose proof (py_index_ok [a; b] (1 - player_team)%Z) as Hb.
    unfold index_ok in Ha, Hb. cbn [length] in Ha, Hb.
    destruct (py_index [a; b] player_team) as [x|e] eqn:Hx.
    + destruct (py_index [a; b] (1 - player_team)%Z) as [y|e] eqn:Hy.
      * exfalso. cbn [is_ok] in Ha, Hb. symmetry in Ha, Hb.
        apply andb_prop in Ha as [Ha1 Ha2]. apply andb_prop in Hb as [Hb1 Hb2].
        apply Z.leb_le in Ha1, Hb1. apply Z.ltb_lt in Ha2, Hb2. lia.
      * cbn [bind]. by rewrite (py_index_raise _ _ _ Hy).
    + cbn [bind]. by rewrite (py_index_raise _ _ _ Hx).
Qed.

Section ReportClaims.

Context {W : Type}.
Variable lookup_detailed : W → string → W * option DetailedMatch.

(** X20. Every match entry of a successful run is well formed: its result
    is the result of the first row carrying the reference handle, team
    rows first, and ["Unknown"] when there is none; its duration text is
    the rendering of its seconds; every row on either side has a hero, so
    taking the first hero never fails; and the team rows share one team
    id. *)
Theorem match_entries (data : Data) (w w' : W) (res : list TournamentInfo)
    (k : nat) (ti : TournamentInfo) :
  analyze_tournaments lookup_detailed data w = (w', Ok res) →
  res !! k = Some ti →
  Forall (match_info_wf (ign data)) (ti_matches ti).
Proof. intros Hrun Hk. by destruct (run_matches _ _ _ _ _ _ _ Hrun Hk). Qed.

(** X21. When the reference player is listed once in the team group of
    every match of an aggregate, the team record shown by the reports —
    the matches whose result is ['win'], and the match count less these —
    is the player's own record of wins and losses. *)
Theorem team_record (data : Data) (w w' : W) (res : list TournamentInfo)
    (k : nat) (ti : TournamentInfo) (n : string) :
  analyze_tournaments lookup_detailed data w = (w', Ok res) →
  res !! k = Some ti →
  ign data = Some n →
  Forall (λ mi, length (List.filter (named n) (mi_team_stats mi)) = 1%nat)
    (ti_matches ti) →
  ∃ stats, ti_player_stats ti !! n = Some stats ∧
           wins stats = team_wins ti ∧ losses stats = team_losses ti.
Proof.
  intros Hrun Hk Hign Honce.
  destruct (run_matches _ _ _ _ _ _ _ Hrun Hk) as (Hwf & Hcount & Hne).
  rewrite Hign in Hwf.
  destruct (once_counts n _ Hwf Honce) as [Hlen Hwon].
  destruct (run_aggregate _ _ _ _ _ _ _ Hrun Hk) as [c (_ & _ & Hps)].
  specialize (Hps n). rewrite fold_update_entry in Hps.
  set (apps := appearances n (ti_matches ti)) in *.
  assert (apps ≠ []) as Happs.
  { intros Hnil. rewrite Hnil in Hlen. by destruct (ti_matches ti). }
  destruct apps as [|a apps'] eqn:Heq; [done|]. rewrite <- Heq in *. clear Heq.
  simpl in Hps. fold (running apps) in Hps.
  eexists. split; [exact Hps|].
  destruct (finalize_keeps (running apps)) as (_ & -> & -> & _).
  destruct (running_counts apps) as (Hm & Hw & Hl).
  unfold team_losses, team_wins. rewrite <- Hwon, <- Hcount, <- Hlen, Hw, Hl.
  split; [done|].
  clear. induction apps as [|b apps IH]; simpl; [done|].
  destruct (won b); simpl; lia.
Qed.

(** X22. On the match entries of a successful run the teammate filter of
    the match report removes nothing, whatever handle it is given: the
    rows it would drop are rows of another team id, and the team group has
    none. *)
Theorem teammate_filter_keeps_all (data : Data) (w w' : W) (res : list TournamentInfo)
    (k : nat) (ti : TournamentInfo) :
  analyze_tournaments lookup_detailed data w = (w', Ok res) →
  res !! k = Some ti →
  ∀ mi filter_teammates player_ign,
    mi ∈ ti_matches ti →
    match_report_teammates filter_teammates player_ign mi = mi_team_stats mi.
Proof.
  intros Hrun Hk mi flag player_ign Hmi.
  destruct (run_matches _ _ _ _ _ _ _ Hrun Hk) as (Hwf & _).
  rewrite Forall_forall in Hwf. destruct (Hwf mi Hmi) as (_ & _ & _ & t & Hteam).
  unfold match_report_teammates.
  destruct (flag && truthy player_ign); [|done].
  destruct (report_team_id player_ign (mi_team_stats mi)) as [t'|] eqn:Hid; [|done].
  apply report_team_id_Some in Hid as (p & Hp & _ & Hpt).
  assert (t' = t) as ->.
  { rewrite Forall_forall in Hteam. specialize (Hteam p Hp). congruence. }
  apply filter_all. eapply Forall_impl; [exact Hteam|].
  intros q Hq. by apply bool_decide_eq_true_2.
Qed.

(** X23. The teammates of the tournament report, on an aggregate of a
    successful run, are the players of the team groups of the matches that
    have the given handle in their team group; each of them has an entry
    in [player_stats]. *)
Theorem teammates_of_report (data : Data) (w w' : W) (res : list TournamentInfo)
    (k : nat) (ti : TournamentInfo) :
  analyze_tournaments lookup_detailed data w = (w', Ok res) →
  res !! k = Some ti →
  ∀ player_ign n,
    (n ∈ tournament_teammates player_ign ti ↔
     ∃ mi p q, mi ∈ ti_matches ti ∧ p ∈ mi_team_stats mi ∧
               Some (p_name p) = player_ign ∧
               q ∈ mi_team_stats mi ∧ p_name q = n) ∧
    (n ∈ tournament_teammates player_ign ti → is_Some (ti_player_stats ti !! n)).
Proof.
  intros Hrun Hk player_ign n.
  destruct (run_matches _ _ _ _ _ _ _ Hrun Hk) as (Hwf & _).
  rewrite Forall_forall in Hwf.
  assert (n ∈ tournament_teammates player_ign ti ↔
          ∃ mi p q, mi ∈ ti_matches ti ∧ p ∈ mi_team_stats mi ∧
                    Some (p_name p) = player_ign ∧
                    q ∈ mi_team_stats mi ∧ p_name q = n) as Hiff.
  { unfold tournament_teammates. rewrite teammates_fold. split.
    - intros [?%elem_of_empty|(mi & t & Hmi & Hid & q & Hq & _ & Hqn)]; [done|].
      apply report_team_id_Some in Hid as (p & Hp & Hpn & _).
      exists mi, p, q. by split_and!.
    - intros (mi & p & q & Hmi & Hp & Hpn & Hq & Hqn). right.
      destruct (Hwf mi Hmi) as (_ & _ & _ & t & Hteam).
      exists mi, t. split; [done|]. split.
      + by apply (report_team_id_shared _ _ _ p).
      + exists q. split_and!; [done| |done].
        rewrite Forall_forall in Hteam. by apply Hteam. }
  split; [exact Hiff|].
  intros (mi & p & q & Hmi & _ & _ & Hq & Hqn)%Hiff.
  destruct (run_aggregate _ _ _ _ _ _ _ Hrun Hk) as [c (_ & _ & Hps)].
  rewrite Hps, fold_update_entry.
  assert ((mi, q) ∈ appearances n (ti_matches ti)) as Hin
    by (by apply appearances_elem).
  destruct (appearances n (ti_matches ti)); [by apply elem_of_nil in Hin|].
  simpl. eauto.
Qed.

(** X24. In every entry of a successful run [heroes_played] holds exactly
    the heroes of the rows the player was folded in with, and [best_hero],
    when there is one, is among them. *)
Theorem heroes_of_entry (data : Data) (w w' : W) (res : list TournamentInfo)
    (k : nat) (ti : TournamentInfo) (n : string) (stats : PlayerStats) :
  analyze_tournaments lookup_detailed data w = (w', Ok res) →
  res !! k = Some ti →
  ti_player_stats ti !! n = Some stats →
  heroes_spec ti n stats.
Proof.
  intros Hrun Hk Hn.
  destruct (run_entry _ _ _ _ _ _ _ _ _ Hrun Hk Hn) as (_ & -> & _).
  destruct (run_matches _ _ _ _ _ _ _ Hrun Hk) as (Hwf & _).
  set (apps := appearances n (ti_matches ti)) in *.
  unfold heroes_spec. fold apps. split.
  - intros h. rewrite finalize_heroes. apply running_heroes.
  - intros h. rewrite finalize_heroes.
    destruct (finalize_keeps (running apps)) as (_ & _ & _ & _ & -> & _).
    rewrite running_best_hero.
    destruct (decide _); [|done]. unfold first_hero_at.
    destruct (List.find _ apps) as [[mi p]|] eqn:Hfind; [|done].
    simpl. intros [= <-]. apply find_some in Hfind as [Hin _].
    apply list_elem_of_In in Hin.
    apply running_heroes. exists (mi, p). split; [done|]. simpl.
    apply appearances_elem in Hin as (Hmi & Hp & _).
    rewrite Forall_forall in Hwf. destruct (Hwf mi Hmi) as (_ & _ & Hheroes & _).
    rewrite Forall_forall in Hheroes.
    assert (p_heroes p ≠ []) as Hne.
    { apply Hheroes. apply elem_of_app. by left. }
    unfold hero0. destruct (p_heroes p); [done|by left].
Qed.

(** X25. A run returns, whatever the lookup of detailed records gives,
    when the team check finds a team id, every overview segment of every
    tournament match has the five counters the fallback reads, and every
    tournament match has no scores or scores that both [team id] and
    [1 - team id] index. *)
Theorem run_returns (data : Data) (w : W) (player_team : Z) :
  find_player_team (ign data) (data_matches data) = Some player_team →
  forallb (fallback_ready player_team) (tournament_matches data) = true →
  is_ok (snd (analyze_tournaments lookup_detailed data w)) = true.
Proof.
  intros Hteam Hready. unfold analyze_tournaments. rewrite Hteam.
  assert (∀ m, m ∈ tournament_matches data → fallback_ready player_team m = true)
    as Hm.
  { intros m Hin. rewrite forallb_forall in Hready.
    by apply Hready, list_elem_of_In. }
  clear Hready.
  assert (∀ m ti dm, fallback_ready player_team m = true →
            is_ok (process_match (ign data) player_team ti m dm) = true) as Hone.
  { intros m ti dm [Hsegs Hscore]%andb_prop. unfold process_match.
    assert (∃ g, resolve_stats (ign data) player_team m dm = Ok g) as [[team opp] ->].
    { unfold resolve_stats. destruct dm as [d|]; [eauto|].
      pose proof (fallback_stats_ok player_team (segments m) [] []) as Hok.
      rewrite Hsegs in Hok.
      destruct (fallback_stats _ _ _ _) as [g|e]; [eauto|done]. }
    simpl. pose proof (score_string_ok player_team m) as Hok.
    rewrite Hscore in Hok.
    by destruct (score_string player_team m). }
  assert (∀ ms w0 ti, (∀ m, m ∈ ms → fallback_ready player_team m = true) →
            is_ok (snd (process_matches lookup_detailed (ign data) player_team
                          w0 ti ms)) = true) as Hmany.
  { induction ms as [|m ms IH]; intros w0 ti Hall; simpl; [done|].
    destruct (lookup_detailed w0 (match_id m)) as [w1 dm].
    pose proof (Hone m ti dm (Hall m ltac:(by left))) as Hok.
    destruct (process_match _ _ _ _ _) as [ti1|e]; [|done].
    apply IH. intros m' Hm'. apply Hall. by right. }
  assert (∀ clusters w0 idx acc,
            Forall (λ c, c ≠ [] ∧ ∀ m, m ∈ c → fallback_ready player_team m = true)
              clusters →
            is_ok (snd (analyze_clusters lookup_detailed (ign data) player_team
                          w0 idx clusters acc)) = true) as Hclusters.
  { induction clusters as [|c clusters IH]; intros w0 idx acc Hall; simpl; [done|].
    apply Forall_cons in Hall as [[Hne Hc] Hall].
    unfold analyze_tournament.
    destruct (head c) as [first|] eqn:Hhead; [|by destruct c].
    destruct (last c) as [final|] eqn:Hlast; [|by apply last_None in Hlast].
    match goal with
    | |- context [process_matches ?l ?i ?pt ?w1 ?ti0 ?ms] =>
        pose proof (Hmany ms w1 ti0 Hc) as Hok;
        destruct (process_matches l i pt w1 ti0 ms) as [w1' [ti1|e]]
    end; [|done].
    by apply IH. }
  apply Hclusters.
  destruct (cluster_sorted_props (sort_by_timestamp (tournament_matches data)))
    as (Hne & _).
  apply Forall_forall. intros c Hc. split.
  - rewrite Forall_forall in Hne. by apply Hne.
  - intros m Hin. apply Hm.
    rewrite <- (sort_by_timestamp_perm (tournament_matches data)).
    rewrite <- (cluster_sorted_concat (sort_by_timestamp (tournament_matches data))).
    apply list_elem_of_In, in_concat. exists c.
    split; by apply list_elem_of_In.
Qed.

End ReportClaims.

(** * Further properties: texts *)

Lemma append_nil_l (s : string) : "" +:+ s = s.
Proof. reflexivity. Qed.

Lemma append_cons (c : Ascii.ascii) (a b : string) :
  String c a +:+ b = String c (a +:+ b).
Proof. reflexivity. Qed.

Ltac str := rewrite ?append_cons, ?append_nil_l.
Ltac str_in H := rewrite ?append_cons, ?append_nil_l in H.

Lemma append_nil_r (s : string) : s +:+ "" = s.
Proof. induction s as [|c s IH]; str; [done|by rewrite IH]. Qed.

Lemma append_assoc (a b c : string) : (a +:+ b) +:+ c = a +:+ b +:+ c.
Proof. induction a as [|x a IH]; str; [done|by rewrite IH]. Qed.

Lemma chars_append (a b : string) :
  String.list_ascii_of_string (a +:+ b)
  = String.list_ascii_of_string a ++ String.list_ascii_of_string b.
Proof. induction a as [|x a IH]; str; simpl; [done|by rewrite IH]. Qed.

Lemma length_append (a b : string) :
  String.length (a +:+ b) = (String.length a + String.length b)%nat.
Proof. induction a as [|x a IH]; str; simpl; [done|by rewrite IH]. Qed.

Lemma after_last_spec (sep : Ascii.ascii) (s current : string) :
  sep ∉ String.list_ascii_of_string current →
  (sep ∉ String.list_ascii_of_string (after_last sep s current)) ∧
  (((sep ∉ String.list_ascii_of_string s) ∧ after_last sep s current = current +:+ s) ∨
   ∃ pre, s = pre +:+ String sep (after_last sep s current)).
Proof.
  revert current. induction s as [|c s IH]; intros current Hcur; simpl.
  - split; [done|]. left. split; [apply not_elem_of_nil|by rewrite append_nil_r].
  - destruct (decide (c = sep)) as [->|Hc].
    + destruct (IH "" ltac:(apply not_elem_of_nil)) as [Hr [[_ Heq]|[pre Heq]]].
      * split; [done|]. right. exists "". str. str_in Heq. by rewrite Heq at 1.
      * split; [done|]. right. exists (String sep pre). str. by rewrite Heq at 1.
    + assert (sep ∉ String.list_ascii_of_string (current +:+ String c "")) as Hcur'.
      { rewrite chars_append. simpl. rewrite not_elem_of_app, not_elem_of_cons.
        split_and!; [done|congruence|apply not_elem_of_nil]. }
      destruct (IH _ Hcur') as [Hr [[Hs Heq]|[pre Heq]]].
      * split; [done|]. left. split.
        -- rewrite not_elem_of_cons. split; [congruence|done].
        -- rewrite Heq, append_assoc. by str.
      * split; [done|]. right. exists (String c pre). str. by rewrite Heq at 1.
Qed.

(** X26. The match number shown in a player report, the part of the match
    id after its last underscore, has no underscore; it is the whole id
    when the id has none, and otherwise the id is some text, an
    underscore, and the number. *)
Theorem match_num_suffix (mid : string) :
  ("_"%char ∉ String.list_ascii_of_string (match_num mid)) ∧
  ((("_"%char ∉ String.list_ascii_of_string mid) ∧ match_num mid = mid) ∨
   ∃ pre, mid = pre +:+ "_" +:+ match_num mid).
Proof.
  unfold match_num.
  destruct (after_last_spec "_"%char mid "" ltac:(apply not_elem_of_nil))
    as [Hr [[Hs Heq]|[pre Heq]]].
  - split; [done|]. left. by str_in Heq.
  - split; [done|]. right. exists pre. by str.
Qed.

Lemma find_char_spec (c : Ascii.ascii) (s : string) :
  (find_char c s = (-1)%Z ∧ (c ∉ String.list_ascii_of_string s)) ∨
  ∃ pre rest, s = pre +:+ String c rest ∧
              (c ∉ String.list_ascii_of_string pre) ∧
              find_char c s = Z.of_nat (String.length pre).
Proof.
  induction s as [|x s IH]; simpl.
  - left. split; [done|apply not_elem_of_nil].
  - destruct (decide (x = c)) as [->|Hx].
    + right. exists "", s. split_and!; [done|apply not_elem_of_nil|done].
    + destruct IH as [[-> Hs]|(pre & rest & Hs & Hpre & ->)].
      * left. split; [done|]. rewrite not_elem_of_cons. split; [congruence|done].
      * right. exists (String x pre), rest. split_and!.
        -- str. by rewrite Hs at 1.
        -- simpl. rewrite not_elem_of_cons. split; [congruence|done].
        -- rewrite (proj2 (Z.ltb_ge _ _)) by lia. simpl String.length. lia.
Qed.

Lemma rfind_char_spec (c : Ascii.ascii) (s : string) :
  (rfind_char c s = (-1)%Z ∧ (c ∉ String.list_ascii_of_string s)) ∨
  ∃ pre post, s = pre +:+ String c post ∧
              (c ∉ String.list_ascii_of_string post) ∧
              rfind_char c s = Z.of_nat (String.length pre).
Proof.
  induction s as [|x s IH]; simpl.
  - left. split; [done|apply not_elem_of_nil].
  - destruct IH as [[-> Hs]|(pre & post & Hs & Hpost & ->)].
    + simpl. destruct (decide (x = c)) as [->|Hx].
      * right. exists "", s. split_and!; done.
      * left. split; [done|]. rewrite not_elem_of_cons. split; [congruence|done].
    + right. exists (String x pre), post. split_and!.
      * str. by rewrite Hs at 1.
      * done.
      * rewrite (proj2 (Z.leb_le _ _)) by lia. simpl String.length. lia.
Qed.

Lemma append_split (a x b y : string) :
  a +:+ x = b +:+ y → (String.length a ≤ String.length b)%nat →
  ∃ d, b = a +:+ d ∧ x = d +:+ y.
Proof.
  revert b. induction a as [|c a IH]; intros b Heq Hlen.
  - exists b. by str_in Heq.
  - destruct b as [|c' b]; simpl in Hlen; [lia|].
    str_in Heq. injection Heq as -> Heq.
    destruct (IH b Heq ltac:(lia)) as (d & -> & ->). exists d. by str.
Qed.

Lemma substring_append (pre t post : string) :
  String.substring (String.length pre) (String.length t) (pre +:+ t +:+ post) = t.
Proof.
  induction pre as [|c pre IH]; str; simpl; [|done].
  induction t as [|c t IHt]; str; simpl.
  - by destruct post.
  - by rewrite IHt.
Qed.

Lemma slice_append (pre t post : string) :
  slice (pre +:+ t +:+ post) (Z.of_nat (String.length pre))
    (Z.of_nat (String.length pre + String.length t)) = t.
Proof.
  unfold slice.
  replace (Z.to_nat (Z.of_nat (String.length pre))) with (String.length pre) by lia.
  replace (Z.to_nat _) with (String.length t) by lia.
  apply substring_append.
Qed.

(** X27. From a page without a [pre] element the text handed to the JSON
    parser runs from the first opening brace to the last closing brace of
    the page; the fetch gives up exactly when the page has no opening
    brace followed, somewhere, by a closing one. *)
Theorem json_text_span (page_source : string) :
  match json_text_of_page page_source with
  | Some t =>
      ∃ pre body post,
        page_source = pre +:+ t +:+ post ∧
        t = "{" +:+ body +:+ "}" ∧
        ("{"%char ∉ String.list_ascii_of_string pre) ∧
        "}"%char ∉ String.list_ascii_of_string post
  | None => ∀ a b c, page_source ≠ a +:+ "{" +:+ b +:+ "}" +:+ c
  end.
Proof.
  unfold json_text_of_page. cbv zeta.
  destruct (find_char_spec "{"%char page_source)
    as [[-> Hnone]|(pre & rest & Hpage & Hpre & ->)].
  { simpl. intros a b c ->. apply Hnone.
    rewrite chars_append. apply elem_of_app. right. str. simpl. by left. }
  destruct (rfind_char_spec "}"%char page_source)
    as [[-> Hnone]|(pre2 & post & Hpage2 & Hpost & ->)].
  { rewrite (proj2 (Z.ltb_ge _ _)) by lia. rewrite andb_false_r.
    intros a b c ->. apply Hnone.
    rewrite chars_append. apply elem_of_app. right. str. simpl. right.
    rewrite chars_append. apply elem_of_app. right. str. simpl. by left. }
  rewrite (proj2 (Z.leb_le _ _)) by lia. rewrite andb_true_l.
  destruct (Z.ltb_spec (Z.of_nat (String.length pre))
              (Z.of_nat (String.length pre2) + 1)%Z) as [Hlt|Hge].
  - assert (String.length pre ≤ String.length pre2)%nat as Hle by lia.
    destruct (append_split pre (String "{"%char rest) pre2 (String "}"%char post)
                ltac:(congruence) Hle) as (d & Hpre2 & Hd).
    destruct d as [|x body]; str_in Hd; [done|].
    injection Hd as <- Hrest.
    assert (page_source
            = pre +:+ String "{"%char (body +:+ String "}"%char "") +:+ post)
      as Hshape.
    { rewrite Hpage, Hrest. str. by rewrite append_assoc. }
    assert (slice page_source (Z.of_nat (String.length pre))
              (Z.of_nat (String.length pre2) + 1)
            = String "{"%char (body +:+ String "}"%char "")) as Hslice.
    { rewrite Hshape at 1.
      replace (Z.of_nat (String.length pre2) + 1)%Z
        with (Z.of_nat (String.length pre
                        + String.length (String "{"%char (body +:+ String "}"%char ""))))
        by (rewrite Hpre2, !length_append; simpl String.length;
            rewrite length_append; simpl String.length; lia).
      apply slice_append. }
    rewrite Hslice.
    exists pre, body, post. split_and!; [exact Hshape|by str|done|done].
  - intros a b c Habc.
    assert (String.length pre ≤ String.length a)%nat as H1.
    { destruct (decide (String.length pre ≤ String.length a)%nat) as [|Hn]; [done|].
      exfalso.
      assert (String.length a ≤ String.length pre)%nat as Hle by lia.
      destruct (append_split a ("{" +:+ b +:+ "}" +:+ c) pre (String "{"%char rest)
                  ltac:(congruence) Hle) as (d & Hd1 & Hd).
      destruct d as [|x d].
      - rewrite append_nil_r in Hd1. rewrite Hd1 in Hn. lia.
      - str_in Hd. injection Hd as <- _. apply Hpre. rewrite Hd1.
        rewrite chars_append. apply elem_of_app. right. simpl. by left. }
    assert (String.length (a +:+ "{" +:+ b) ≤ String.length pre2)%nat as H2.
    { destruct (decide (String.length (a +:+ "{" +:+ b) ≤ String.length pre2)%nat)
        as [|Hn]; [done|].
      exfalso.
      assert (String.length pre2 ≤ String.length (a +:+ "{" +:+ b))%nat as Hle
        by lia.
      assert (pre2 +:+ String "}"%char post = (a +:+ "{" +:+ b) +:+ "}" +:+ c)
        as Heq.
      { by rewrite <- Hpage2, Habc, !append_assoc. }
      destruct (append_split _ _ _ _ Heq Hle) as (d & Hab & Hd).
      destruct d as [|x d].
      - rewrite append_nil_r in Hab. rewrite Hab in Hn. lia.
      - str_in Hd. injection Hd as <- Hd. apply Hpost. rewrite Hd.
        rewrite chars_append. apply elem_of_app. right. str. simpl. by left. }
    rewrite length_append in H2. str_in H2. simpl String.length in H2. lia.
Qed.

(** * The further properties on the scenario

    The run of the scenario with detailed records: two aggregates, the
    first of two matches with the players Ref and Ally. *)

Lemma detailed_first : results_of detailed_run !! 0%nat = Some (tournament_at (results_of detailed_run) 0).
Proof. apply tournament_at_lookup. vm_compute. reflexivity. Qed.

Lemma detailed_second : results_of detailed_run !! 1%nat = Some (tournament_at (results_of detailed_run) 1).
Proof. apply tournament_at_lookup. vm_compute. reflexivity. Qed.

Lemma detailed_ally :
  ti_player_stats (tournament_at (results_of detailed_run) 0) !! "Ally"%string
  = Some (entry_of (tournament_at (results_of detailed_run) 0) "Ally").
Proof. apply entry_of_lookup. vm_compute. reflexivity. Qed.

Lemma once_check (n : string) (mis : list MatchInfo) :
  forallb (λ mi, (length (List.filter (named n) (mi_team_stats mi)) =? 1)%nat) mis
  = true →
  Forall (λ mi, length (List.filter (named n) (mi_team_stats mi)) = 1%nat) mis.
Proof.
  intros H. apply Forall_forall. intros mi Hmi%list_elem_of_In.
  rewrite forallb_forall in H. by apply Nat.eqb_eq, H.
Qed.

Lemma tournament_headers_witness :
  analyze_tournaments with_detail scenario []
  = (fst detailed_run, Ok (results_of detailed_run)) ∧
  results_of detailed_run !! 0%nat = Some (tournament_at (results_of detailed_run) 0) ∧
  length (results_of detailed_run) = length (cluster_tournament_matches scenario) ∧
  ∃ c first final,
    cluster_tournament_matches scenario !! 0%nat = Some c ∧
    head c = Some first ∧ last c = Some final ∧
    ti_id (tournament_at (results_of detailed_run) 0) = (Z.of_nat 0 + 1)%Z ∧
    ti_match_count (tournament_at (results_of detailed_run) 0) = Z.of_nat (length c) ∧
    Z.of_nat (length (ti_matches (tournament_at (results_of detailed_run) 0))) = ti_match_count (tournament_at (results_of detailed_run) 0) ∧
    ti_start_date (tournament_at (results_of detailed_run) 0) = timestamp first ∧
    ti_end_date (tournament_at (results_of detailed_run) 0) = timestamp final ∧
    (ti_start_date (tournament_at (results_of detailed_run) 0) <= ti_end_date (tournament_at (results_of detailed_run) 0))%Z.
Proof.
  split; [exact run_ok_detailed|]. split; [exact detailed_first|].
  exact (tournament_headers with_detail scenario [] _ _ 0%nat _
           run_ok_detailed detailed_first).
Defined.

Lemma tournaments_apart_witness :
  analyze_tournaments with_detail scenario []
  = (fst detailed_run, Ok (results_of detailed_run)) ∧
  results_of detailed_run !! 0%nat = Some (tournament_at (results_of detailed_run) 0) ∧
  results_of detailed_run !! 1%nat = Some (tournament_at (results_of detailed_run) 1) ∧
  (day < ti_start_date (tournament_at (results_of detailed_run) 1) - ti_end_date (tournament_at (results_of detailed_run) 0))%Z.
Proof.
  split; [exact run_ok_detailed|]. split; [exact detailed_first|].
  split; [exact detailed_second|].
  exact (tournaments_apart with_detail scenario [] _ _ 0%nat _ _
           run_ok_detailed detailed_first detailed_second).
Defined.

Lemma entries_are_team_players_witness :
  analyze_tournaments with_detail scenario []
  = (fst detailed_run, Ok (results_of detailed_run)) ∧
  results_of detailed_run !! 0%nat = Some (tournament_at (results_of detailed_run) 0) ∧
  ∀ n, is_Some (ti_player_stats (tournament_at (results_of detailed_run) 0) !! n) ↔
       ∃ mi p, mi ∈ ti_matches (tournament_at (results_of detailed_run) 0) ∧ p ∈ mi_team_stats mi ∧ p_name p = n.
Proof.
  split; [exact run_ok_detailed|]. split; [exact detailed_first|].
  exact (entries_are_team_players with_detail scenario [] _ _ 0%nat _
           run_ok_detailed detailed_first).
Defined.



Lemma report_keys_present_witness :
  analyze_tournaments with_detail scenario []
  = (fst detailed_run, Ok (results_of detailed_run)) ∧
  results_of detailed_run !! 0%nat = Some (tournament_at (results_of detailed_run) 0) ∧
  ti_player_stats (tournament_at (results_of detailed_run) 0) !! "Ally"%string
  = Some (entry_of (tournament_at (results_of detailed_run) 0) "Ally") ∧
  keys_spec (entry_of (tournament_at (results_of detailed_run) 0) "Ally").
Proof.
  split; [exact run_ok_detailed|]. split; [exact detailed_first|].
  split; [exact detailed_ally|].
  exact (report_keys_present with_detail scenario [] _ _ 0%nat _ _ _
           run_ok_detailed detailed_first detailed_ally).
Defined.

Lemma match_entries_witness :
  analyze_tournaments with_detail scenario []
  = (fst detailed_run, Ok (results_of detailed_run)) ∧
  results_of detailed_run !! 0%nat = Some (tournament_at (results_of detailed_run) 0) ∧
  Forall (match_info_wf (ign scenario)) (ti_matches (tournament_at (results_of detailed_run) 0)).
Proof.
  split; [exact run_ok_detailed|]. split; [exact detailed_first|].
  exact (match_entries with_detail scenario [] _ _ 0%nat _
           run_ok_detailed detailed_first).
Defined.

Lemma team_record_witness :
  analyze_tournaments with_detail scenario []
  = (fst detailed_run, Ok (results_of detailed_run)) ∧
  results_of detailed_run !! 0%nat = Some (tournament_at (results_of detailed_run) 0) ∧
  ign scenario = Some "Ref"%string ∧
  Forall (λ mi, length (List.filter (named "Ref") (mi_team_stats mi)) = 1%nat)
    (ti_matches (tournament_at (results_of detailed_run) 0)) ∧
  ∃ stats, ti_player_stats (tournament_at (results_of detailed_run) 0) !! "Ref"%string = Some stats ∧
           wins stats = team_wins (tournament_at (results_of detailed_run) 0) ∧
           losses stats = team_losses (tournament_at (results_of detailed_run) 0).
Proof.
  assert (Forall (λ mi, length (List.filter (named "Ref") (mi_team_stats mi)) = 1%nat)
            (ti_matches (tournament_at (results_of detailed_run) 0))) as Honce.
  { apply once_check. vm_compute. reflexivity. }
  split; [exact run_ok_detailed|]. split; [exact detailed_first|].
  split; [reflexivity|]. split; [exact Honce|].
  exact (team_record with_detail scenario [] _ _ 0%nat _ "Ref"
           run_ok_detailed detailed_first eq_refl Honce).
Defined.

Lemma teammate_filter_keeps_all_witness :
  analyze_tournaments with_detail scenario []
  = (fst detailed_run, Ok (results_of detailed_run)) ∧
  results_of detailed_run !! 0%nat = Some (tournament_at (results_of detailed_run) 0) ∧
  ∀ mi filter_teammates player_ign,
    mi ∈ ti_matches (tournament_at (results_of detailed_run) 0) →
    match_report_teammates filter_teammates player_ign mi = mi_team_stats mi.
Proof.
  split; [exact run_ok_detailed|]. split; [exact detailed_first|].
  exact (teammate_filter_keeps_all with_detail scenario [] _ _ 0%nat _
           run_ok_detailed detailed_first).
Defined.

Lemma teammates_of_report_witness :
  analyze_tournaments with_detail scenario []
  = (fst detailed_run, Ok (results_of detailed_run)) ∧
  results_of detailed_run !! 0%nat = Some (tournament_at (results_of detailed_run) 0) ∧
  ∀ player_ign n,
    (n ∈ tournament_teammates player_ign (tournament_at (results_of detailed_run) 0) ↔
     ∃ mi p q, mi ∈ ti_matches (tournament_at (results_of detailed_run) 0) ∧ p ∈ mi_team_stats mi ∧
               Some (p_name p) = player_ign ∧
               q ∈ mi_team_stats mi ∧ p_name q = n) ∧
    (n ∈ tournament_teammates player_ign (tournament_at (results_of detailed_run) 0) →
     is_Some (ti_player_stats (tournament_at (results_of detailed_run) 0) !! n)).
Proof.
  split; [exact run_ok_detailed|]. split; [exact detailed_first|].
  exact (teammates_of_report with_detail scenario [] _ _ 0%nat _
           run_ok_detailed detailed_first).
Defined.

Lemma heroes_of_entry_witness :
  analyze_tournaments with_detail scenario []
  = (fst detailed_run, Ok (results_of detailed_run)) ∧
  results_of detailed_run !! 0%nat = Some (tournament_at (results_of detailed_run) 0) ∧
  ti_player_stats (tournament_at (results_of detailed_run) 0) !! "Ally"%string
  = Some (entry_of (tournament_at (results_of detailed_run) 0) "Ally") ∧
  heroes_spec (tournament_at (results_of detailed_run) 0) "Ally" (entry_of (tournament_at (results_of detailed_run) 0) "Ally").
Proof.
  split; [exact run_ok_detailed|]. split; [exact detailed_first|].
  split; [exact detailed_ally|].
  exact (heroes_of_entry with_detail scenario [] _ _ 0%nat _ _ _
           run_ok_detailed detailed_first detailed_ally).
Defined.

Lemma run_returns_witness :
  find_player_team (ign scenario) (data_matches scenario) = Some 0%Z ∧
  forallb (fallback_ready 0) (tournament_matches scenario) = true ∧
  is_ok (snd (analyze_tournaments with_detail scenario [])) = true.
Proof.
  assert (find_player_team (ign scenario) (data_matches scenario) = Some 0%Z) as H1
    by (vm_compute; reflexivity).
  assert (forallb (fallback_ready 0) (tournament_matches scenario) = true) as H2
    by (vm_compute; reflexivity).
  split; [exact H1|]. split; [exact H2|].
  exact (run_returns with_detail scenario [] 0 H1 H2).
Defined.
